(** * Data Navigator page: validation, storage, cleaning, filtering, summary

    A shallow embedding of [pages/03_Data.py].  The page is a Streamlit
    script over pandas data frames; the embedding keeps its structure:

    - a [DataFrame] is an index plus an ordered list of named columns, each
      column carrying its dtype with its cells ([object] cells are strings
      or NaN, [int64] cells are integers, [float64] cells are numbers or
      NaN; a column of any other dtype, such as [bool], keeps the name of
      its dtype and its cells as text, none of them missing);
    - Python exceptions are the [Err] results of an error monad;
    - Streamlit output, the data frames the script holds and the SQLite
      files on disk form the [page] state that [validate_data_structure]
      and [save_uploaded_file_as_sqlite] run in;
    - the in-place cleaning of [df] is a function from the contents of [df]
      before to its contents after.

    Conventions of the model, all of them about library behaviour:
    - [float64] values are exact rationals: rounding, infinities and
      overflow are not represented;
    - names and cells are byte strings and letter case is ASCII letter case;
    - the text-to-number conversion of [pd.to_numeric] is a parameter
      ([str_to_num]) about which nothing is assumed. *)

From Stdlib Require Import ZArith QArith Ascii String List Bool Lia.
From Stdlib Require Import DecimalString DecimalPos DecimalN Permutation.
From stdpp Require Import base option list gmap strings.

Open Scope string_scope.

(** ** Python exceptions and the error monad *)

Inductive pyexn :=
  | KeyError (key : string)
  | IndexError
  | AttributeError
  | ValueError
  | TypeError
  | NameError
  | UnboundLocalError
  | ReadError.

Inductive result (A : Type) :=
  | Ok (a : A)
  | Err (e : pyexn).
Arguments Ok {A} a.
Arguments Err {A} e.

#[global] Instance result_ret : MRet result := fun A a => Ok a.
#[global] Instance result_bind : MBind result := fun A B f m =>
  match m with
  | Ok a => f a
  | Err e => Err e
  end.
#[global] Instance result_fmap : FMap result := fun A B f m =>
  match m with
  | Ok a => Ok (f a)
  | Err e => Err e
  end.

Definition is_ok {A} (r : result A) : bool :=
  match r with Ok _ => true | Err _ => false end.

(** [[f(x) for x in xs]] with a body that can raise. *)
Fixpoint traverse {A B} (f : A -> result B) (xs : list A) : result (list B) :=
  match xs with
  | [] => Ok []
  | x :: xs' =>
      match f x with
      | Ok y => match traverse f xs' with
                | Ok ys => Ok (y :: ys)
                | Err e => Err e
                end
      | Err e => Err e
      end
  end.

(** ** Strings: the [str] methods the page uses

    A string is the sequence of its bytes; the case of a character is the
    case of the ASCII letters, which is what [str.islower], [str.upper] and
    [str.lower] give on text of ASCII characters. *)

Definition is_lower (c : ascii) : bool :=
  let n := nat_of_ascii c in (97 <=? n)%nat && (n <=? 122)%nat.

Definition is_upper (c : ascii) : bool :=
  let n := nat_of_ascii c in (65 <=? n)%nat && (n <=? 90)%nat.

Definition to_upper (c : ascii) : ascii :=
  if is_lower c then ascii_of_nat (nat_of_ascii c - 32) else c.

Definition to_lower (c : ascii) : ascii :=
  if is_upper c then ascii_of_nat (nat_of_ascii c + 32) else c.

Fixpoint string_map (f : ascii -> ascii) (s : string) : string :=
  match s with
  | EmptyString => EmptyString
  | String c s' => String (f c) (string_map f s')
  end.

(** [s.capitalize()]: first character upper-cased, the rest lower-cased. *)
Definition capitalize (s : string) : string :=
  match s with
  | EmptyString => EmptyString
  | String c rest => String (to_upper c) (string_map to_lower rest)
  end.

(** [s.startswith(p)]. *)
Definition startswith (p s : string) : bool := String.prefix p s.

(** [s.split(sep)] for a non-empty [sep]: the pieces between the
    non-overlapping occurrences of [sep], scanned from the left.  [skip]
    counts the characters of a matched separator still to be dropped and
    [acc] holds the current piece, reversed. *)
Fixpoint split_go (sep : string) (skip : nat) (acc : list ascii) (s : string)
  : list string :=
  match s with
  | EmptyString => [string_of_list_ascii (rev acc)]
  | String c s' =>
      match skip with
      | S k => split_go sep k acc s'
      | O =>
          if String.prefix sep s
          then string_of_list_ascii (rev acc)
                 :: split_go sep (String.length sep - 1) [] s'
          else split_go sep 0 (c :: acc) s'
      end
  end.

Definition py_split (sep s : string) : result (list string) :=
  match sep with
  | EmptyString => Err ValueError
  | _ => Ok (split_go sep 0 [] s)
  end.

(** [str(n)] for a non-negative integer. *)
Definition py_str (n : N) : string := NilZero.string_of_uint (N.to_uint n).

(** [int(s)] on a string of decimal digits; anything else is reported as the
    [ValueError] Python raises for a malformed literal.  (Python also accepts
    a sign, surrounding blanks and underscores; the page never produces
    such names.) *)
Definition py_int (s : string) : result N :=
  match NilZero.uint_of_string s with
  | Some d => Ok (N.of_uint d)
  | None => Err ValueError
  end.

Fixpoint repeat_char (c : ascii) (n : nat) : string :=
  match n with
  | O => EmptyString
  | S k => String c (repeat_char c k)
  end.

(** [s.zfill(width)] on a string of digits. *)
Definition zfill (width : nat) (s : string) : string :=
  repeat_char "0" (width - String.length s) ++ s.

(** ** Data frames *)

Inductive coldata :=
  | ObjectCol (cells : list (option string))
  | Int64Col (cells : list Z)
  | Float64Col (cells : list (option Q))
  | OtherCol (dtype_name : string) (cells : list string).

Record column := Column { col_name : string; col_data : coldata }.

Record DataFrame := Frame {
  df_index_name : option string;
  df_index : coldata;
  df_columns : list column
}.

(** [str(dtype)]. *)
Definition dtype_str (d : coldata) : string :=
  match d with
  | ObjectCol _ => "object"
  | Int64Col _ => "int64"
  | Float64Col _ => "float64"
  | OtherCol name _ => name
  end.

Definition col_length (d : coldata) : nat :=
  match d with
  | ObjectCol cells => length cells
  | Int64Col cells => length cells
  | Float64Col cells => length cells
  | OtherCol _ cells => length cells
  end.

(** [list(df.columns)] and [df.dtypes]. *)
Definition columns (df : DataFrame) : list string :=
  map col_name (df_columns df).

Definition dtypes (df : DataFrame) : list string :=
  map (fun c => dtype_str (col_data c)) (df_columns df).

(** [df.empty]: some axis has length zero. *)
Definition df_empty (df : DataFrame) : bool :=
  match df_columns df with
  | [] => true
  | _ => Nat.eqb (col_length (df_index df)) 0
  end.

(** ** The page state: frames held by the script, Streamlit output, disk *)

(** A data frame is a mutable object; the script holds references to the
    frames it has loaded. *)
Definition loc := nat.

Inductive st_event :=
  | StError (msg : string)
  | StErrorUnexpected (e : pyexn)
  | StWrite (values : list string).

Record page := Page {
  frames : list DataFrame;
  st_out : list st_event;
  dirs : gset string;
  files : gmap string (gmap string DataFrame)
}.

(** A script fragment runs in the page state; an exception leaves the
    state as it was when raised. *)
Definition Script (A : Type) : Type := page -> result A * page.

#[global] Instance script_ret : MRet Script := fun A a p => (Ok a, p).
#[global] Instance script_bind : MBind Script := fun A B f m p =>
  match m p with
  | (Ok a, p') => f a p'
  | (Err e, p') => (Err e, p')
  end.

Definition raise {A} (e : pyexn) : Script A := fun p => (Err e, p).

(** [try: body except Exception as e: handler(e)]. *)
Definition try_except {A} (body : Script A) (handler : pyexn -> Script A)
  : Script A := fun p =>
  match body p with
  | (Ok a, p') => (Ok a, p')
  | (Err e, p') => handler e p'
  end.

Definition get_frame (l : loc) : Script DataFrame := fun p =>
  match frames p !! l with
  | Some df => (Ok df, p)
  | None => (Err NameError, p)
  end.

Definition new_frame (df : DataFrame) : Script loc := fun p =>
  (Ok (length (frames p)),
   Page (frames p ++ [df]) (st_out p) (dirs p) (files p)).

Definition st_emit (e : st_event) : Script unit := fun p =>
  (Ok tt, Page (frames p) (st_out p ++ [e]) (dirs p) (files p)).

(** [os.makedirs(d, exist_ok=True)]. *)
Definition makedirs (d : string) : Script unit := fun p =>
  (Ok tt, Page (frames p) (st_out p) ({[d]} ∪ dirs p) (files p)).

(** [sqlite3.connect(path)] followed by a query: the database file exists
    afterwards, empty if it was not there. *)
Definition connect (path : string) : Script (gmap string DataFrame) := fun p =>
  match files p !! path with
  | Some db => (Ok db, p)
  | None => (Ok ∅, Page (frames p) (st_out p) (dirs p) (<[path := ∅]> (files p)))
  end.

(** [df.to_sql(table_name, conn, index=False, if_exists='replace')]. *)
Definition to_sql (path table_name : string) (df : DataFrame) : Script unit :=
  fun p =>
  let db := default ∅ (files p !! path) in
  (Ok tt, Page (frames p) (st_out p) (dirs p)
            (<[path := <[table_name := df]> db]> (files p))).

(** ** SchemaValidator: [validate_data_structure] (lines 80-100) *)

(** The values of the standardized list: a mapped class name (a [str]) or
    the dtype object itself, here its name. *)
Inductive pyval :=
  | PStr (s : string)
  | PDtype (name : string).

(** [==] on those values.  A dtype compared with a string that names no
    dtype ('Categorical' and 'Numerical' are the only strings that occur)
    is unequal. *)
Definition pyval_eqb (a b : pyval) : bool :=
  match a, b with
  | PStr s, PStr t => String.eqb s t
  | PDtype s, PDtype t => String.eqb s t
  | _, _ => false
  end.

(** [==] on lists: same length and equal elements. *)
Fixpoint py_list_eqb {A} (eqb : A -> A -> bool) (xs ys : list A) : bool :=
  match xs, ys with
  | [], [] => true
  | x :: xs', y :: ys' => eqb x y && py_list_eqb eqb xs' ys'
  | _, _ => false
  end.

Definition dtype_mapping : list (string * string) :=
  [("object", "Categorical"); ("category", "Categorical");
   ("int64", "Numerical"); ("float64", "Numerical")].

(** [d.get(k)]. *)
Fixpoint dict_get (k : string) (d : list (string * string)) : option string :=
  match d with
  | [] => None
  | (k', v) :: d' => if String.eqb k k' then Some v else dict_get k d'
  end.

Definition standardize_dtypes (df : DataFrame) : list pyval :=
  map (fun x => match dict_get x dtype_mapping with
                | Some v => PStr v
                | None => PDtype x
                end) (dtypes df).

Definition validate_data_structure (uploaded_df template_df : loc)
  : Script bool :=
  u ← get_frame uploaded_df;
  t ← get_frame template_df;
  if negb (py_list_eqb String.eqb (columns u) (columns t)) then mret false
  else if negb (py_list_eqb pyval_eqb (standardize_dtypes u)
                            (standardize_dtypes t))
  then _ ← st_emit (StWrite (dtypes u)); mret false
  else mret true.

(** ** TableStore: [save_uploaded_file_as_sqlite] (lines 104-161) *)

(** An uploaded file: its name and what the pandas reader makes of its
    bytes (a frame, or an exception). *)
Record uploaded_file := Upload {
  file_name : string;
  file_parse : result DataFrame
}.

Definition endswith (suffix s : string) : bool :=
  String.prefix (String.rev suffix) (String.rev s).

Definition msg_empty : string :=
  "The uploaded file is empty or improperly formatted. Please upload a valid file.".

Definition msg_structure : string :=
  "The structure of the uploaded file does not align with the expected template. 
                         Please review the column descriptions provided below to ensure that the column 
                         names and data types conform to the required specifications.
                         ".

Fixpoint list_max_N (xs : list N) : N :=
  match xs with
  | [] => 0%N
  | x :: xs' => N.max x (list_max_N xs')
  end.

(** [int(table.split(f"{username}_table")[1])]. *)
Definition table_number (username table : string) : result N :=
  match py_split (username ++ "_table") table with
  | Ok parts =>
      match parts !! 1%nat with
      | Some part => py_int part
      | None => Err IndexError
      end
  | Err e => Err e
  end.

(** Lines 119-131: the name of the next table. *)
Definition next_table_name (username : string) (existing_tables : list string)
  : result string :=
  let user_tables :=
    List.filter (startswith (username ++ "_table")) existing_tables in
  match
    match user_tables with
    | [] => Ok 1%N
    | _ => match traverse (table_number username) user_tables with
           | Ok nums => Ok (list_max_N nums + 1)%N
           | Err e => Err e
           end
    end
  with
  | Ok next_table_num =>
      let pad_length := String.length (py_str next_table_num) in
      Ok (username ++ "_table" ++ zfill pad_length (py_str next_table_num))
  | Err e => Err e
  end.

(** Lines 135-139: re-read the upload; [df] stays unbound when the name has
    neither extension. *)
Definition read_upload (file : uploaded_file) : Script loc :=
  if endswith ".csv" (file_name file) || endswith ".xlsx" (file_name file)
  then match file_parse file with
       | Ok df => new_frame df
       | Err e => raise e
       end
  else raise UnboundLocalError.

Definition save_uploaded_file_as_sqlite (initial_df : loc)
    (file : uploaded_file) (username : string)
  : Script (option (loc * string * string)) :=
  let save_dir := "./data/" ++ username in
  _ ← makedirs save_dir;
  let db_path := save_dir ++ "/" ++ username ++ ".db" in
  conn ← connect db_path;
  let existing_tables := (map_to_list conn).*1 in
  match next_table_name username existing_tables with
  | Err e => raise e
  | Ok table_name =>
      try_except
        (l ← read_upload file;
         df ← get_frame l;
         if df_empty df then
           _ ← st_emit (StError msg_empty); mret None
         else
           ok ← validate_data_structure l initial_df;
           if negb ok then
             _ ← st_emit (StError msg_structure); mret None
           else
             _ ← to_sql db_path table_name df;
             mret (Some (l, table_name, db_path)))
        (fun e => _ ← st_emit (StErrorUnexpected e); mret None)
  end.

(** A message points at the column descriptions when it contains these
    words. *)
Fixpoint contains (needle s : string) : bool :=
  String.prefix needle s ||
  match s with
  | EmptyString => false
  | String _ s' => contains needle s'
  end.

Definition points_at_column_descriptions (msg : string) : bool :=
  contains "column descriptions" msg.

(** ** Cleaner (lines 329-364) *)

Definition with_columns (df : DataFrame) (cols : list column) : DataFrame :=
  Frame (df_index_name df) (df_index df) cols.

(** How often a label occurs among the column labels. *)
Definition count_label (name : string) (names : list string) : nat :=
  length (List.filter (String.eqb name) names).

(** [df[name]] for a label that selects one column. *)
Fixpoint get_column (name : string) (cols : list column) : result coldata :=
  match cols with
  | [] => Err (KeyError name)
  | c :: cols' =>
      if String.eqb (col_name c) name then Ok (col_data c)
      else get_column name cols'
  end.

(** [df[name] = data]. *)
Definition set_column (name : string) (data : coldata) (cols : list column)
  : list column :=
  map (fun c => if String.eqb (col_name c) name then Column name data else c)
      cols.

(** *** Step 1, lines 330-331: [df.set_index('user_id', inplace=True)].
    A label that selects several columns cannot become an index. *)
Definition promote_identifier (df : DataFrame) : result DataFrame :=
  match count_label "user_id" (columns df) with
  | 0%nat => Ok df
  | 1%nat =>
      match get_column "user_id" (df_columns df) with
      | Ok ids =>
          Ok (Frame (Some "user_id") ids
                (List.filter (fun c => negb (String.eqb (col_name c) "user_id"))
                   (df_columns df)))
      | Err e => Err e
      end
  | _ => Err ValueError
  end.

(** *** Step 2, line 334:
    [col.capitalize() if col[0].islower() else col]; [col[0]] raises
    IndexError on the empty name. *)
Definition normalize_name (col : string) : result string :=
  match col with
  | EmptyString => Err IndexError
  | String c _ => Ok (if is_lower c then capitalize col else col)
  end.

Definition normalize_columns (df : DataFrame) : result DataFrame :=
  match traverse (fun c => match normalize_name (col_name c) with
                           | Ok n => Ok (Column n (col_data c))
                           | Err e => Err e
                           end) (df_columns df) with
  | Ok cols => Ok (with_columns df cols)
  | Err e => Err e
  end.

(** *** Step 3, lines 337-342: NaN becomes 'Unknown' in the categorical
    columns other than CHURN.  [df[column]] is a frame, without [dtype],
    when the label is duplicated. *)
Definition is_categorical_dtype (d : coldata) : bool :=
  String.eqb (dtype_str d) "object" || String.eqb (dtype_str d) "category".

Definition replace_nan_unknown (d : coldata) : coldata :=
  match d with
  | ObjectCol cells =>
      ObjectCol (map (fun c => match c with
                               | None => Some "Unknown"
                               | Some s => Some s
                               end) cells)
  | _ => d
  end.

Definition fill_column (names : list string) (c : column) : result column :=
  if negb (String.eqb (col_name c) "CHURN") then
    if (1 <? count_label (col_name c) names)%nat then Err AttributeError
    else if is_categorical_dtype (col_data c)
         then Ok (Column (col_name c) (replace_nan_unknown (col_data c)))
         else Ok c
  else Ok c.

Definition fill_unknown (df : DataFrame) : result DataFrame :=
  match traverse (fill_column (columns df)) (df_columns df) with
  | Ok cols => Ok (with_columns df cols)
  | Err e => Err e
  end.

(** *** Step 4, lines 345-349: the target column *)

(** [replace('Unknown', np.nan)]. *)
Definition replace_unknown_nan (d : coldata) : coldata :=
  match d with
  | ObjectCol cells =>
      ObjectCol (map (fun c => match c with
                               | Some s => if String.eqb s "Unknown" then None
                                           else Some s
                               | None => None
                               end) cells)
  | _ => d
  end.

(** The non-missing entries of a column. *)
Definition observed {A} (cells : list (option A)) : list A :=
  omap (fun c => c) cells.

Definition count_eqb {A} (eqb : A -> A -> bool) (x : A) (xs : list A) : nat :=
  length (List.filter (eqb x) xs).

(** The statistic of [SimpleImputer(strategy='most_frequent')]: among the
    values of highest count, the smallest. *)
Definition better {A} (eqb leb : A -> A -> bool) (xs : list A) (x y : A)
  : bool :=
  (count_eqb eqb y xs <? count_eqb eqb x xs)%nat
  || ((count_eqb eqb x xs =? count_eqb eqb y xs)%nat && leb x y).

Definition most_frequent {A} (eqb leb : A -> A -> bool) (xs : list A)
  : option A :=
  match xs with
  | [] => None
  | x :: rest =>
      Some (fold_left (fun best y => if better eqb leb xs best y then best
                                     else y) rest x)
  end.

Definition fill_missing {A} (v : A) (cells : list (option A))
  : list (option A) :=
  map (fun c => match c with Some x => Some x | None => Some v end) cells.

(** [SimpleImputer(...).fit_transform(df[[name]]).flatten()] assigned back:
    a column without any observed value is dropped by the imputer, and the
    assignment of the shorter result raises; without rows the imputer
    itself raises; dtypes other than object, integer and float are
    rejected. *)
Definition impute_most_frequent (d : coldata) : result coldata :=
  match d with
  | ObjectCol cells =>
      match most_frequent String.eqb String.leb (observed cells) with
      | Some m => Ok (ObjectCol (fill_missing m cells))
      | None => Err ValueError
      end
  | Float64Col cells =>
      match most_frequent Qeq_bool Qle_bool (observed cells) with
      | Some m => Ok (Float64Col (fill_missing m cells))
      | None => Err ValueError
      end
  | Int64Col cells =>
      match cells with
      | [] => Err ValueError
      | _ => Ok (Int64Col cells)
      end
  | OtherCol _ _ => Err ValueError
  end.

Definition impute_target (df : DataFrame) : result DataFrame :=
  match get_column "CHURN" (df_columns df) with
  | Err e => Err e
  | Ok churn =>
      if (1 <? count_label "CHURN" (columns df))%nat then Err ValueError
      else
        match impute_most_frequent (replace_unknown_nan churn) with
        | Ok imputed =>
            Ok (with_columns df (set_column "CHURN" imputed (df_columns df)))
        | Err e => Err e
        end
  end.

(** *** Step 5, line 352: [df.apply(pd.to_numeric, errors='ignore')] *)

(** What the conversion makes of one text cell. *)
Inductive num :=
  | NumInt (z : Z)
  | NumFloat (q : Q)
  | NumNaN.

Definition num_is_int (n : num) : bool :=
  match n with NumInt _ => true | _ => false end.

Definition num_int (n : num) : Z :=
  match n with NumInt z => z | _ => 0%Z end.

Definition num_float (n : num) : option Q :=
  match n with
  | NumInt z => Some (inject_Z z)
  | NumFloat q => Some q
  | NumNaN => None
  end.

(** The conversion of a text cell, [str_to_num], gives [None] when the text
    is not a number; a missing cell converts to NaN. *)
Definition cell_to_num (str_to_num : string -> option num)
    (c : option string) : option num :=
  match c with
  | None => Some NumNaN
  | Some s => str_to_num s
  end.

(** An object column becomes [int64] when every cell converts to an
    integer, [float64] when every cell converts, and is kept as it is when
    some cell does not convert. *)
Definition to_numeric (str_to_num : string -> option num) (d : coldata)
  : coldata :=
  match d with
  | ObjectCol cells =>
      match mapM (cell_to_num str_to_num) cells with
      | Some nums =>
          if forallb num_is_int nums then Int64Col (map num_int nums)
          else Float64Col (map num_float nums)
      | None => d
      end
  | _ => d
  end.

Definition reinfer_numeric (str_to_num : string -> option num)
    (df : DataFrame) : DataFrame :=
  with_columns df
    (map (fun c => Column (col_name c) (to_numeric str_to_num (col_data c)))
         (df_columns df)).

(** *** Steps 6 and 7, lines 355-364: median imputation, integer cast *)

Fixpoint insert_sorted (x : Q) (l : list Q) : list Q :=
  match l with
  | [] => [x]
  | y :: l' => if Qle_bool x y then x :: l else y :: insert_sorted x l'
  end.

Definition sort_Q (l : list Q) : list Q := fold_right insert_sorted [] l.

(** [np.median]: the middle value, or the mean of the two middle values. *)
Definition median (xs : list Q) : option Q :=
  let s := sort_Q xs in
  let n := length s in
  if Nat.odd n then s !! (n / 2)%nat
  else match s !! (n / 2 - 1)%nat, s !! (n / 2)%nat with
       | Some a, Some b => Some (Qred ((a + b) / 2))
       | _, _ => None
       end.

Definition is_numerical (d : coldata) : bool :=
  match d with
  | Int64Col _ | Float64Col _ => true
  | _ => false
  end.

Definition is_int64 (d : coldata) : bool :=
  match d with
  | Int64Col _ => true
  | _ => false
  end.

(** The conversion of an integer to float64: the nearest number with 53
    bits of mantissa, a tie going to the even mantissa.  Up to 2^53 in
    absolute value the integer is kept; an int64 never overflows the
    exponent. *)
Definition float64_of_Z (z : Z) : Z :=
  let e := (Z.log2 (Z.abs z) - 52)%Z in
  if (e <=? 0)%Z then z
  else
    let ulp := (2 ^ e)%Z in
    let q := (Z.abs z / ulp)%Z in
    let r := (Z.abs z mod ulp)%Z in
    let q' := if (2 * r <? ulp)%Z then q
              else if (ulp <? 2 * r)%Z then (q + 1)%Z
              else if Z.even q then q else (q + 1)%Z in
    (Z.sgn z * (q' * ulp))%Z.

(** One column of [SimpleImputer(strategy='median').fit_transform]: the
    input is converted to float64; a column without any observed value is
    dropped, which makes the assignment of the result raise. *)
Definition impute_median (d : coldata) : result coldata :=
  match d with
  | Int64Col cells =>
      let floats := map (fun z => inject_Z (float64_of_Z z)) cells in
      match median floats with
      | Some _ => Ok (Float64Col (map Some floats))
      | None => Err ValueError
      end
  | Float64Col cells =>
      match median (observed cells) with
      | Some m => Ok (Float64Col (fill_missing m cells))
      | None => Err ValueError
      end
  | _ => Ok d
  end.

(** [df[numerical_columns] = numerical_imputer.fit_transform(...)]; the
    imputer rejects a selection without columns. *)
Definition impute_numerical (df : DataFrame) : result DataFrame :=
  match List.filter (fun c => is_numerical (col_data c)) (df_columns df) with
  | [] => Err ValueError
  | _ =>
      match traverse (fun c => match impute_median (col_data c) with
                               | Ok d => Ok (Column (col_name c) d)
                               | Err e => Err e
                               end) (df_columns df) with
      | Ok cols => Ok (with_columns df cols)
      | Err e => Err e
      end
  end.

(** Truncation toward zero. *)
Definition Qtrunc (q : Q) : Z := Z.quot (Qnum q) (Zpos (Qden q)).

(** The cast of a float64 to int64: truncation toward zero; outside the
    range of int64 the conversion instruction of x86-64 gives -2^63. *)
Definition int64_of_float (q : Q) : Z :=
  let t := Qtrunc q in
  if ((- 2 ^ 63 <=? t) && (t <? 2 ^ 63))%Z then t else (- 2 ^ 63)%Z.

(** [astype('int64')] as the loop of lines 363-364 meets it: on the float
    columns the imputer has produced.  NaN cannot be cast; the labels are
    distinct at that point, so no other dtype is met, and the model leaves
    other columns alone. *)
Definition astype_int64 (d : coldata) : result coldata :=
  match d with
  | Float64Col cells =>
      match traverse (fun c => match c with
                               | Some q => Ok (int64_of_float q)
                               | None => Err ValueError
                               end) cells with
      | Ok zs => Ok (Int64Col zs)
      | Err e => Err e
      end
  | _ => Ok d
  end.

Definition label_in (name : string) (names : list string) : bool :=
  existsb (String.eqb name) names.

Definition cast_back (int64_columns : list string) (df : DataFrame)
  : result DataFrame :=
  match traverse (fun c => if label_in (col_name c) int64_columns
                           then match astype_int64 (col_data c) with
                                | Ok d => Ok (Column (col_name c) d)
                                | Err e => Err e
                                end
                           else Ok c) (df_columns df) with
  | Ok cols => Ok (with_columns df cols)
  | Err e => Err e
  end.

Definition impute_and_cast (df : DataFrame) : result DataFrame :=
  let int64_columns :=
    map col_name (List.filter (fun c => is_int64 (col_data c)) (df_columns df))
  in
  match impute_numerical df with
  | Ok df' => cast_back int64_columns df'
  | Err e => Err e
  end.

(** *** The whole of lines 329-364 *)

Definition clean (str_to_num : string -> option num) (df : DataFrame)
  : result DataFrame :=
  df ← promote_identifier df;
  df ← normalize_columns df;
  df ← fill_unknown df;
  df ← impute_target df;
  impute_and_cast (reinfer_numeric str_to_num df).

(** ** FilterEngine (lines 450-472) *)

(** A Python scalar: a cell value, an index label, a widget selection. *)
Inductive scalar :=
  | SStr (s : string)
  | SInt (z : Z)
  | SFloat (q : Q)
  | SOther (repr : string).

Definition scalar_eqb (a b : scalar) : bool :=
  match a, b with
  | SStr s, SStr t => String.eqb s t
  | SInt x, SInt y => Z.eqb x y
  | SFloat p, SFloat q => Qeq_bool p q
  | SInt x, SFloat q => Qeq_bool (inject_Z x) q
  | SFloat q, SInt x => Qeq_bool q (inject_Z x)
  | SOther s, SOther t => String.eqb s t
  | _, _ => false
  end.

Definition cells_of (d : coldata) : list (option scalar) :=
  match d with
  | ObjectCol cells => map (fmap SStr) cells
  | Int64Col cells => map (fun z => Some (SInt z)) cells
  | Float64Col cells => map (fmap SFloat) cells
  | OtherCol _ cells => map (fun s => Some (SOther s)) cells
  end.

(** [series == value]: NaN equals nothing. *)
Definition eq_mask (d : coldata) (v : scalar) : list bool :=
  map (fun c => match c with
                | Some x => scalar_eqb x v
                | None => false
                end) (cells_of d).

(** [(series >= lo) & (series <= hi)]; text does not compare with
    numbers. *)
Definition range_mask (d : coldata) (lo hi : Q) : result (list bool) :=
  match d with
  | Int64Col cells =>
      Ok (map (fun z => Qle_bool lo (inject_Z z) && Qle_bool (inject_Z z) hi)
              cells)
  | Float64Col cells =>
      Ok (map (fun c => match c with
                        | Some q => Qle_bool lo q && Qle_bool q hi
                        | None => false
                        end) cells)
  | _ => Err TypeError
  end.

(** [mask1 & mask2]. *)
Fixpoint and_mask (m1 m2 : list bool) : list bool :=
  match m1, m2 with
  | b1 :: m1', b2 :: m2' => (b1 && b2) :: and_mask m1' m2'
  | _, _ => []
  end.

(** [xs[mask]]. *)
Fixpoint select {A} (mask : list bool) (xs : list A) : list A :=
  match mask, xs with
  | b :: mask', x :: xs' => if b then x :: select mask' xs' else select mask' xs'
  | _, _ => []
  end.

Definition select_col (mask : list bool) (d : coldata) : coldata :=
  match d with
  | ObjectCol cells => ObjectCol (select mask cells)
  | Int64Col cells => Int64Col (select mask cells)
  | Float64Col cells => Float64Col (select mask cells)
  | OtherCol name cells => OtherCol name (select mask cells)
  end.

(** [df[mask]]. *)
Definition select_rows (mask : list bool) (df : DataFrame) : DataFrame :=
  Frame (df_index_name df) (select_col mask (df_index df))
    (map (fun c => Column (col_name c) (select_col mask (col_data c)))
         (df_columns df)).

Definition is_blank (v : scalar) : bool := scalar_eqb v (SStr "").

(** Lines 469-472: one slider. *)
Definition apply_slider (filtered_data : DataFrame)
    (slider : string * (Q * Q)) : result DataFrame :=
  let '(column, (min_val, max_val)) := slider in
  match get_column column (df_columns filtered_data) with
  | Ok d =>
      match range_mask d min_val max_val with
      | Ok mask => Ok (select_rows mask filtered_data)
      | Err e => Err e
      end
  | Err e => Err e
  end.

Fixpoint apply_sliders (filtered_data : DataFrame)
    (slider_values : list (string * (Q * Q))) : result DataFrame :=
  match slider_values with
  | [] => Ok filtered_data
  | slider :: rest =>
      match apply_slider filtered_data slider with
      | Ok fd => apply_sliders fd rest
      | Err e => Err e
      end
  end.

Definition filtered_data (df : DataFrame) (selected_column : string)
    (selected_value selected_customer_id : scalar)
    (slider_values : list (string * (Q * Q))) : result DataFrame :=
  match
    if is_blank selected_value && is_blank selected_customer_id then Ok df
    else if negb (is_blank selected_value) && is_blank selected_customer_id
    then match get_column selected_column (df_columns df) with
         | Ok d => Ok (select_rows (eq_mask d selected_value) df)
         | Err e => Err e
         end
    else if is_blank selected_value && negb (is_blank selected_customer_id)
    then Ok (select_rows (eq_mask (df_index df) selected_customer_id) df)
    else match get_column selected_column (df_columns df) with
         | Ok d =>
             Ok (select_rows
                   (and_mask (eq_mask d selected_value)
                             (eq_mask (df_index df) selected_customer_id)) df)
         | Err e => Err e
         end
  with
  | Ok fd => apply_sliders fd slider_values
  | Err e => Err e
  end.

(** The clauses of a predicate set, for applying them one at a time. *)
Inductive clause :=
  | CategoricalEq (column : string) (value : scalar)
  | IdentifierEq (value : scalar)
  | NumericalRange (column : string) (lo hi : Q).

Definition clause_mask (df : DataFrame) (c : clause) : result (list bool) :=
  match c with
  | CategoricalEq column value =>
      match get_column column (df_columns df) with
      | Ok d => Ok (eq_mask d value)
      | Err e => Err e
      end
  | IdentifierEq value => Ok (eq_mask (df_index df) value)
  | NumericalRange column lo hi =>
      match get_column column (df_columns df) with
      | Ok d => range_mask d lo hi
      | Err e => Err e
      end
  end.

Definition apply_clause (df : DataFrame) (c : clause) : result DataFrame :=
  match clause_mask df c with
  | Ok mask => Ok (select_rows mask df)
  | Err e => Err e
  end.

Fixpoint apply_clauses (df : DataFrame) (cs : list clause) : result DataFrame :=
  match cs with
  | [] => Ok df
  | c :: cs' =>
      match apply_clause df c with
      | Ok df' => apply_clauses df' cs'
      | Err e => Err e
      end
  end.

(** The clauses present in a selection: a blank selection is no clause. *)
Definition present_clauses (selected_column : string)
    (selected_value selected_customer_id : scalar)
    (slider_values : list (string * (Q * Q))) : list clause :=
  (if is_blank selected_value then []
   else [CategoricalEq selected_column selected_value])
  ++ (if is_blank selected_customer_id then []
      else [IdentifierEq selected_customer_id])
  ++ map (fun s => NumericalRange s.1 s.2.1 s.2.2) slider_values.

(** The rows of [df] that satisfy every clause: the conjunction of the
    clauses' masks, each computed on [df] itself. *)
Fixpoint and_masks (ms : list (list bool)) : option (list bool) :=
  match ms with
  | [] => None
  | m :: ms' =>
      match and_masks ms' with
      | None => Some m
      | Some r => Some (and_mask m r)
      end
  end.

Definition satisfying_rows (df : DataFrame) (cs : list clause)
  : result DataFrame :=
  match traverse (clause_mask df) cs with
  | Ok ms =>
      match and_masks ms with
      | None => Ok df
      | Some m => Ok (select_rows m df)
      end
  | Err e => Err e
  end.

(** A clause fits a frame when its column is there, numerical for a range:
    the widgets offer nothing else. *)
Definition clause_ok (df : DataFrame) (c : clause) : bool :=
  match c with
  | CategoricalEq column _ => is_ok (get_column column (df_columns df))
  | IdentifierEq _ => true
  | NumericalRange column _ _ =>
      match get_column column (df_columns df) with
      | Ok d => is_numerical d
      | Err _ => false
      end
  end.

(** ** Summarizer (lines 386-395 and 480-487) *)

Record numeric_summary := NumericSummary {
  ns_feature : string;
  ns_count : nat;
  ns_mean : option Q;
  ns_min : option Q;
  ns_q25 : option Q;
  ns_q50 : option Q;
  ns_q75 : option Q;
  ns_max : option Q
}.

Record object_summary := ObjectSummary {
  os_feature : string;
  os_count : nat;
  os_unique : nat;
  os_top : option string;
  os_freq : option nat
}.

Definition sum_Q (xs : list Q) : Q := fold_right Qplus 0%Q xs.

Definition mean (xs : list Q) : option Q :=
  match xs with
  | [] => None
  | _ => Some (Qred (sum_Q xs / inject_Z (Z.of_nat (length xs))))
  end.

(** The [k]-th quartile with linear interpolation. *)
Definition quartile (k : nat) (xs : list Q) : option Q :=
  let s := sort_Q xs in
  let pos := ((length s - 1) * k)%nat in
  match s !! (pos / 4)%nat with
  | None => None
  | Some a =>
      match s !! (pos / 4 + 1)%nat with
      | None => Some a
      | Some b =>
          Some (Qred (a + (b - a) * (inject_Z (Z.of_nat (pos mod 4)) / 4)))
      end
  end.

Definition numeric_values (d : coldata) : list Q :=
  match d with
  | Int64Col cells => map inject_Z cells
  | Float64Col cells => observed cells
  | _ => []
  end.

(** One row of [df.describe().T] on a numerical column; without values the
    statistics are NaN.  The standard deviation, a square root, is not
    represented. *)
Definition describe_numeric (c : column) : numeric_summary :=
  let xs := numeric_values (col_data c) in
  let s := sort_Q xs in
  NumericSummary (col_name c) (length xs) (mean xs) (head s)
    (quartile 1 xs) (quartile 2 xs) (quartile 3 xs) (last s).

Definition text_values (d : coldata) : list string :=
  match d with
  | ObjectCol cells => observed cells
  | OtherCol _ cells => cells
  | _ => []
  end.

Definition max_count (xs : list string) : option nat :=
  match most_frequent String.eqb String.leb xs with
  | Some m => Some (count_eqb String.eqb m xs)
  | None => None
  end.

(** One row of the description of a column of text: count, unique, top
    and freq, the last two NaN without values. *)
Definition describe_object (c : column) : object_summary :=
  let xs := text_values (col_data c) in
  ObjectSummary (col_name c) (length xs) (length (remove_dups xs))
    (most_frequent String.eqb String.leb xs) (max_count xs).

Inductive description :=
  | NumericDescription (rows : list numeric_summary)
  | ObjectDescription (rows : list object_summary).

(** [df.describe().T]: the numerical columns when there are some, else all
    the columns; a frame without columns cannot be described. *)
Definition describe (df : DataFrame) : result description :=
  match List.filter (fun c => is_numerical (col_data c)) (df_columns df) with
  | [] =>
      match df_columns df with
      | [] => Err ValueError
      | cols => Ok (ObjectDescription (map describe_object cols))
      end
  | num_cols => Ok (NumericDescription (map describe_numeric num_cols))
  end.

Definition is_object (d : coldata) : bool :=
  match d with
  | ObjectCol _ => true
  | _ => false
  end.

(** [frame.mode().iloc[0]]: the frame of modes has as many rows as the
    column with the most modes, and its first row does not exist when no
    column has a value. *)
Definition mode_first_row (obj : list column)
  : result (list (option string)) :=
  let tops := map (fun c => most_frequent String.eqb String.leb
                              (text_values (col_data c))) obj in
  if forallb (fun t => match t with None => true | Some _ => false end) tops
  then Err IndexError
  else Ok tops.

(** Lines 392-395: the description of the object columns, with [unique],
    [top] and [freq] assigned again feature by feature. *)
Definition categorical_summary (df : DataFrame)
  : result (list object_summary) :=
  let obj := List.filter (fun c => is_object (col_data c)) (df_columns df) in
  match obj with
  | [] => Err ValueError
  | _ =>
      let described := map describe_object obj in
      let unique := map (fun c => length (remove_dups
                                            (text_values (col_data c)))) obj in
      match mode_first_row obj with
      | Err e => Err e
      | Ok top =>
          let freq := map (fun c => max_count (text_values (col_data c))) obj in
          Ok (map (fun r => ObjectSummary (os_feature r.1.1.1) (os_count r.1.1.1)
                              r.1.1.2 r.1.2 r.2)
                  (zip (zip (zip described unique) top) freq))
      end
  end.

(** The summary block: numerical features, then categorical features. *)
Definition summarize (df : DataFrame)
  : result (description * list object_summary) :=
  match describe df with
  | Ok numeric =>
      match categorical_summary df with
      | Ok categorical => Ok (numeric, categorical)
      | Err e => Err e
      end
  | Err e => Err e
  end.

(** ** Upload flow: the columns to coerce (lines 305-318) *)

Definition columns_to_coerce : list string :=
  ["MONTANT"; "FREQUENCE_RECH"; "DATA_VOLUME"; "ON_NET"; "ORANGE"; "TIGO";
   "FREQ_TOP_PACK"; "REVENUE"; "ARPU_SEGMENT"; "FREQUENCE"; "REGULARITY"].

(** [pd.to_numeric(series, errors='coerce')]: a cell that is not a number
    becomes NaN. *)
Definition coerce_cell (str_to_num : string -> option num)
    (c : option string) : num :=
  match cell_to_num str_to_num c with
  | Some n => n
  | None => NumNaN
  end.

Definition to_numeric_coerce (str_to_num : string -> option num)
    (d : coldata) : coldata :=
  match d with
  | ObjectCol cells =>
      let nums := map (coerce_cell str_to_num) cells in
      if forallb num_is_int nums then Int64Col (map num_int nums)
      else Float64Col (map num_float nums)
  | _ => d
  end.

(** Lines 311-313, one turn of the loop, with the number of warnings shown
    so far; [df[column].dtype] raises when the label is duplicated. *)
Definition coerce_column (str_to_num : string -> option num)
    (df : DataFrame) (warnings : nat) (column : string)
  : result (DataFrame * nat) :=
  if label_in column (columns df) then
    if (1 <? count_label column (columns df))%nat then Err AttributeError
    else
      match get_column column (df_columns df) with
      | Ok d =>
          if String.eqb (dtype_str d) "object"
          then Ok (with_columns df
                     (set_column column (to_numeric_coerce str_to_num d)
                        (df_columns df)),
                   S warnings)
          else Ok (df, warnings)
      | Err e => Err e
      end
  else Ok (df, warnings).

Fixpoint coerce_loop (str_to_num : string -> option num)
    (names : list string) (df : DataFrame) (warnings : nat)
  : result (DataFrame * nat) :=
  match names with
  | [] => Ok (df, warnings)
  | column :: rest =>
      match coerce_column str_to_num df warnings column with
      | Ok (df', warnings') => coerce_loop str_to_num rest df' warnings'
      | Err e => Err e
      end
  end.

(** Lines 308-313: the body of the [try]; an error is what the handler of
    line 318 reports before it stops the page. *)
Definition coerce_columns (str_to_num : string -> option num)
    (df : DataFrame) : result (DataFrame * nat) :=
  coerce_loop str_to_num columns_to_coerce (reinfer_numeric str_to_num df) 0.

(** ** Sliders (lines 413-430) *)

Definition Q_min (a b : Q) : Q := if Qle_bool a b then a else b.
Definition Q_max (a b : Q) : Q := if Qle_bool a b then b else a.

(** [df[column].min()] and [df[column].max()], which skip NaN, converted by
    [int] or [float]: [int] raises on the NaN that a column without rows
    gives.  What the slider does with NaN bounds is the widget's affair;
    ValueError stands for it here. *)
Definition series_min_max (d : coldata) : result (Q * Q) :=
  match d with
  | Int64Col cells =>
      match cells with
      | z :: zs =>
          Ok (inject_Z (fold_left Z.min zs z), inject_Z (fold_left Z.max zs z))
      | [] => Err ValueError
      end
  | Float64Col cells =>
      match observed cells with
      | q :: qs => Ok (fold_left Q_min qs q, fold_left Q_max qs q)
      | [] => Err ValueError
      end
  | _ => Err TypeError
  end.

(** [df.select_dtypes(include=['float64', 'int64']).columns.tolist()]. *)
Definition numerical_columns (df : DataFrame) : list string :=
  map col_name
    (List.filter (fun c => is_numerical (col_data c)) (df_columns df)).

(** The value of a slider nobody has moved: [(min_value, max_value)]. *)
Definition slider_default (df : DataFrame) (column : string)
  : result (string * (Q * Q)) :=
  if (1 <? count_label column (columns df))%nat then Err AttributeError
  else
    match get_column column (df_columns df) with
    | Ok d =>
        match series_min_max d with
        | Ok range => Ok (column, range)
        | Err e => Err e
        end
    | Err e => Err e
    end.

Definition slider_defaults (df : DataFrame)
  : result (list (string * (Q * Q))) :=
  traverse (slider_default df) (numerical_columns df).

(** ** Notions of the specification *)

(** The classes of the specification: a native type is Categorical,
    Numerical, or stands for itself. *)
Inductive type_class :=
  | Categorical
  | Numerical
  | Literal (dtype_name : string).

Definition class_of (dtype_name : string) : type_class :=
  if String.eqb dtype_name "object" || String.eqb dtype_name "category"
  then Categorical
  else if String.eqb dtype_name "int64" || String.eqb dtype_name "float64"
  then Numerical
  else Literal dtype_name.

Definition standardize (x : string) : pyval :=
  match dict_get x dtype_mapping with
  | Some v => PStr v
  | None => PDtype x
  end.

Definition class_of_pyval (v : pyval) : type_class :=
  match v with
  | PStr s => if String.eqb s "Categorical" then Categorical else Numerical
  | PDtype name => Literal name
  end.

Definition pyval_of_class (k : type_class) : pyval :=
  match k with
  | Categorical => PStr "Categorical"
  | Numerical => PStr "Numerical"
  | Literal name => PDtype name
  end.


Definition is_digit (c : ascii) : bool :=
  let n := nat_of_ascii c in (48 <=? n)%nat && (n <=? 57)%nat.

Fixpoint all_digits (s : string) : bool :=
  match s with
  | EmptyString => true
  | String c s' => is_digit c && all_digits s'
  end.

(** The tables of a user are well named when each table whose name starts
    with [{username}_table] continues with a number in plain decimal
    notation: the names the store itself gives. *)
Definition well_named (username : string) (tables : list string) : Prop :=
  forall t, In t tables ->
    startswith (username ++ "_table") t = true ->
    exists n, t = username ++ "_table" ++ py_str n.

(** The database file of a user, and the names of the tables in it. *)
Definition db_path_of (username : string) : string :=
  ("./data/" ++ username) ++ "/" ++ username ++ ".db".

Definition user_db (p : page) (username : string) : gmap string DataFrame :=
  default ∅ (files p !! db_path_of username).

Definition tables_of (p : page) (username : string) : list string :=
  (map_to_list (user_db p username)).*1.

(** The tables on disk: the table [t] of the database file [path]. *)
Definition stored_table (p : page) (path t : string) : option DataFrame :=
  files p !! path ≫= fun db => db !! t.

(** The answer of the validator, as a function of the two frames. *)
Definition valid_schema (u t : DataFrame) : bool :=
  py_list_eqb String.eqb (columns u) (columns t)
  && py_list_eqb pyval_eqb (standardize_dtypes u) (standardize_dtypes t).

(** What the validator writes to the page: the candidate's dtypes, when
    the names agree and the classes do not. *)
Definition validation_output (u t : DataFrame) : list st_event :=
  if py_list_eqb String.eqb (columns u) (columns t)
     && negb (py_list_eqb pyval_eqb (standardize_dtypes u)
                (standardize_dtypes t))
  then [StWrite (dtypes u)]
  else [].

Definition has_extension (file : uploaded_file) : bool :=
  endswith ".csv" (file_name file) || endswith ".xlsx" (file_name file).

(** A target entry is missing when it is NaN or the sentinel 'Unknown';
    the other entries are the observed ones. *)
Definition target_missing (c : option scalar) : bool :=
  match c with
  | None => true
  | Some v => scalar_eqb v (SStr "Unknown")
  end.

Definition target_observed (cells : list (option scalar)) : list scalar :=
  omap (fun c => if target_missing c then None else c) cells.

(** A mode of a list: one of its values, as frequent as any. *)
Definition is_mode (m : scalar) (xs : list scalar) : Prop :=
  In m xs
  /\ forall v, In v xs ->
       (count_eqb scalar_eqb v xs <= count_eqb scalar_eqb m xs)%nat.

(** The dtypes the target imputer accepts. *)
Definition supported_target (d : coldata) : bool :=
  match d with
  | OtherCol _ _ => false
  | _ => true
  end.

(** The first two cleaning steps together give the normalized frame. *)
Definition normalized (df : DataFrame) : result DataFrame :=
  match promote_identifier df with
  | Ok df1 => normalize_columns df1
  | Err e => Err e
  end.

(** An integer taken to float64 and back to int64. *)
Definition int64_round_trip (z : Z) : Z :=
  int64_of_float (inject_Z (float64_of_Z z)).


(** A column after median imputation and cast: the missing values of a
    float column are filled with the median of its observed values; an
    integer column has gone through float64. *)
Definition median_imputed (d : coldata) : coldata :=
  match d with
  | Float64Col cells =>
      match median (observed cells) with
      | Some m => Float64Col (fill_missing m cells)
      | None => d
      end
  | Int64Col cells => Int64Col (map int64_round_trip cells)
  | _ => d
  end.

(** A mask narrowed by the conjunction of further masks. *)
Definition narrow (m : list bool) (ms : list (list bool)) : list bool :=
  match and_masks ms with
  | None => m
  | Some r => and_mask m r
  end.


(** ** The shape of a cleaned table *)

Definition no_nan {A} (cells : list (option A)) : Prop :=
  Forall (fun c => c <> None) cells.

Definition name_normalized (name : string) : Prop :=
  exists c rest, name = String c rest /\ is_lower c = false.

(** A column as the cleaning leaves it: text without NaN that is not
    numbers, integers that have been through float64, or floats without
    NaN; the numerical columns have rows. *)
Definition column_cleaned (str_to_num : string -> option num) (d : coldata)
  : Prop :=
  match d with
  | ObjectCol cells =>
      no_nan cells /\ mapM (cell_to_num str_to_num) cells = None
  | Int64Col cells =>
      cells <> [] /\ Forall (fun z => int64_round_trip z = z) cells
  | Float64Col cells => no_nan cells /\ cells <> []
  | OtherCol _ _ => True
  end.

Record cleaned (str_to_num : string -> option num) (df : DataFrame) : Prop :=
  Cleaned {
    cleaned_names : Forall name_normalized (columns df);
    cleaned_distinct : NoDup (columns df);
    cleaned_columns :
      Forall (fun c => column_cleaned str_to_num (col_data c)) (df_columns df);
    cleaned_target :
      exists churn,
        get_column "CHURN" (df_columns df) = Ok churn
        /\ impute_most_frequent (replace_unknown_nan churn) = Ok churn;
    cleaned_numerical :
      exists c, In c (df_columns df) /\ is_numerical (col_data c) = true
  }.

(** ** The rows of the categorical summary *)

(** The object columns of a frame: [select_dtypes(include=['object'])]. *)
Definition object_columns (df : DataFrame) : list column :=
  List.filter (fun c => is_object (col_data c)) (df_columns df).

Definition summary_row (c : column) : object_summary :=
  let xs := text_values (col_data c) in
  ObjectSummary (col_name c) (length xs) (length (remove_dups xs))
    (most_frequent String.eqb String.leb xs) (max_count xs).

(** Every row that a mask selects has the mask [true]. *)
Definition all_true (mask : list bool) : Prop := Forall (fun b => b = true) mask.

(** A string of ASCII characters: the characters whose case [is_lower],
    [to_upper] and [to_lower] decide as Python does. *)
Fixpoint ascii_only (s : string) : bool :=
  match s with
  | EmptyString => true
  | String c s' => (nat_of_ascii c <? 128)%nat && ascii_only s'
  end.

(** A string without capital letters. *)
Fixpoint no_upper (s : string) : bool :=
  match s with
  | EmptyString => true
  | String c s' => negb (is_upper c) && no_upper s'
  end.

(** A column without missing value. *)
Definition column_complete (d : coldata) : Prop :=
  match d with
  | ObjectCol cells => no_nan cells
  | Float64Col cells => no_nan cells
  | _ => True
  end.

(** The columns of a table other than the identifier. *)
Definition data_columns (df : DataFrame) : list column :=
  List.filter (fun c => negb (String.eqb (col_name c) "user_id"))
    (df_columns df).

(** A column kept under its label with as many cells. *)
Definition kept_as (c c' : column) : Prop :=
  col_name c' = col_name c
  /\ col_length (col_data c') = col_length (col_data c).

(** A column kept under its label with as many cells, and not turned into
    text. *)
Definition kept_numeric (c c' : column) : Prop :=
  kept_as c c'
  /\ (is_object (col_data c) = false -> is_object (col_data c') = false).

(** Every column has a cell for every row of the index. *)
Definition uniform_rows (df : DataFrame) : Prop :=
  Forall (fun c => col_length (col_data c) = col_length (df_index df))
    (df_columns df).

(** ** The rows of a table *)

(** A row: the label of the index and the cell under each column label. *)
Record row := Row {
  row_id : option scalar;
  row_cells : list (string * option scalar)
}.

Definition first_cell (cells : list (option scalar)) : option scalar :=
  match cells with
  | c :: _ => c
  | [] => None
  end.

(** The rows of a table, read from the top of the index and of the columns:
    a column that runs out of cells gives NaN. *)
Fixpoint zip_rows (ids : list (option scalar))
    (cols : list (string * list (option scalar))) : list row :=
  match ids with
  | [] => []
  | id :: ids' =>
      Row id (map (fun c => (c.1, first_cell c.2)) cols)
      :: zip_rows ids' (map (fun c => (c.1, tail c.2)) cols)
  end.

Definition labelled_cells (df : DataFrame)
  : list (string * list (option scalar)) :=
  map (fun c => (col_name c, cells_of (col_data c))) (df_columns df).

Definition rows_of (df : DataFrame) : list row :=
  zip_rows (cells_of (df_index df)) (labelled_cells df).

(** What stands under a label: the first entry of that label. *)
Fixpoint under_label {A} (column : string) (cells : list (string * A))
  : option A :=
  match cells with
  | [] => None
  | (name, v) :: cells' =>
      if String.eqb name column then Some v else under_label column cells'
  end.

Definition equals (value : scalar) (cell : option scalar) : bool :=
  match cell with
  | Some x => scalar_eqb x value
  | None => false
  end.

Definition in_range (lo hi : Q) (cell : option scalar) : bool :=
  match cell with
  | Some (SInt z) => Qle_bool lo (inject_Z z) && Qle_bool (inject_Z z) hi
  | Some (SFloat q) => Qle_bool lo q && Qle_bool q hi
  | _ => false
  end.

(** A row satisfies a clause: its cell under the clause's column, or its
    index label, equals the selected value or lies in the range. *)
Definition row_satisfies (r : row) (c : clause) : bool :=
  match c with
  | CategoricalEq column value =>
      match under_label column (row_cells r) with
      | Some cell => equals value cell
      | None => false
      end
  | IdentifierEq value => equals value (row_id r)
  | NumericalRange column lo hi =>
      match under_label column (row_cells r) with
      | Some cell => in_range lo hi cell
      | None => false
      end
  end.

(** The rows that satisfy every clause, in the order of the table. *)
Definition rows_satisfying (cs : list clause) (rows : list row) : list row :=
  List.filter (fun r => forallb (row_satisfies r) cs) rows.

(** ** Example data *)

Definition template_example : DataFrame :=
  Frame None (Int64Col [0%Z])
    [Column "user_id" (ObjectCol [Some "a1"]);
     Column "REGION" (ObjectCol [Some "DAKAR"]);
     Column "MONTANT" (Float64Col [Some 10%Q]);
     Column "CHURN" (ObjectCol [Some "Yes"])].

Definition montant_as_text : DataFrame :=
  Frame None (Int64Col [0%Z])
    [Column "user_id" (ObjectCol [Some "b7"]);
     Column "REGION" (ObjectCol [Some "THIES"]);
     Column "MONTANT" (ObjectCol [Some "ten"]);
     Column "CHURN" (ObjectCol [Some "No"])].


Definition valid_example : DataFrame :=
  Frame None (Int64Col [0%Z; 1%Z])
    [Column "user_id" (ObjectCol [Some "b7"; Some "c9"]);
     Column "REGION" (ObjectCol [Some "THIES"; None]);
     Column "MONTANT" (Float64Col [Some 25%Q; None]);
     Column "CHURN" (ObjectCol [Some "No"; Some "Yes"])].

(** A file with the header line of the template and no rows. *)
Definition header_only : DataFrame :=
  Frame None (Int64Col [])
    [Column "user_id" (ObjectCol []);
     Column "REGION" (ObjectCol []);
     Column "MONTANT" (ObjectCol []);
     Column "CHURN" (ObjectCol [])].

Definition five_tables : gmap string DataFrame :=
  list_to_map
    (map (fun name => (name, valid_example))
       ["u_table1"; "u_table2"; "u_table3"; "u_table4"; "u_table5"]).

(** The page of user [u] with the template loaded and five stored tables. *)
Definition page_of_u : page :=
  Page [template_example] [] {["./data/u"]} {["./data/u/u.db" := five_tables]}.

(** Three rows with CHURN = [Yes, missing, Yes]. *)
Definition churn_example : DataFrame :=
  Frame None (Int64Col [0%Z; 1%Z; 2%Z])
    [Column "REGION" (ObjectCol [Some "DAKAR"; Some "THIES"; Some "DAKAR"]);
     Column "CHURN" (ObjectCol [Some "Yes"; None; Some "Yes"])].


(** An upload without the target column, as the page asks for. *)
Definition no_target_example : DataFrame :=
  Frame None (Int64Col [0%Z; 1%Z])
    [Column "user_id" (ObjectCol [Some "a1"; Some "b7"]);
     Column "region" (ObjectCol [Some "DAKAR"; None]);
     Column "MONTANT" (Float64Col [Some 10%Q; Some 30%Q])].

(** A conversion that takes no text for a number. *)
Definition no_numbers (s : string) : option num := None.

(** A cleaned table of three customers. *)
Definition cleaned_example : DataFrame :=
  Frame (Some "user_id") (ObjectCol [Some "a1"; Some "b7"; Some "c9"])
    [Column "REGION" (ObjectCol [Some "DAKAR"; Some "THIES"; Some "DAKAR"]);
     Column "MONTANT" (Float64Col [Some 10%Q; Some 30%Q; Some 20%Q]);
     Column "CHURN" (Int64Col [0%Z; 1%Z; 0%Z])].

(** The same table without any row: what a filter leaves when no row
    matches. *)
Definition no_rows_example : DataFrame :=
  Frame (Some "user_id") (ObjectCol [])
    [Column "REGION" (ObjectCol []);
     Column "MONTANT" (Float64Col []);
     Column "CHURN" (Int64Col [])].

(** A conversion that reads plain decimal digits as integers. *)
Definition digits_to_num (s : string) : option num :=
  match NilZero.uint_of_string s with
  | Some d => Some (NumInt (Z.of_N (N.of_uint d)))
  | None => None
  end.

(** A raw table: an identifier column, a lowercase label, missing values,
    the sentinel in the target and a column of numbers kept as text. *)
Definition raw_example : DataFrame :=
  Frame None (Int64Col [0%Z; 1%Z; 2%Z])
    [Column "user_id" (ObjectCol [Some "a1"; Some "b7"; Some "c9"]);
     Column "region" (ObjectCol [Some "DAKAR"; None; Some "DAKAR"]);
     Column "MONTANT" (Float64Col [Some 10%Q; None; Some 30%Q]);
     Column "REGULARITY" (Int64Col [4%Z; 62%Z; 17%Z]);
     Column "FREQUENCE" (ObjectCol [Some "3"; Some "12"; Some "7"]);
     Column "CHURN" (ObjectCol [Some "Yes"; Some "Unknown"; Some "Yes"])].

(** The raw table, cleaned. *)
Definition raw_example_cleaned : DataFrame :=
  Frame (Some "user_id") (ObjectCol [Some "a1"; Some "b7"; Some "c9"])
    [Column "Region" (ObjectCol [Some "DAKAR"; Some "Unknown"; Some "DAKAR"]);
     Column "MONTANT" (Float64Col [Some 10%Q; Some 20%Q; Some 30%Q]);
     Column "REGULARITY" (Int64Col [4%Z; 62%Z; 17%Z]);
     Column "FREQUENCE" (Int64Col [3%Z; 12%Z; 7%Z]);
     Column "CHURN" (ObjectCol [Some "Yes"; Some "Yes"; Some "Yes"])].

(** The table with MONTANT as text, coerced. *)
Definition montant_coerced : DataFrame :=
  Frame None (Int64Col [0%Z])
    [Column "user_id" (ObjectCol [Some "b7"]);
     Column "REGION" (ObjectCol [Some "THIES"]);
     Column "MONTANT" (Float64Col [None]);
     Column "CHURN" (ObjectCol [Some "No"])].

(** * Properties *)

(** ** Generic facts about the error monad and Python lists *)

Lemma traverse_ok_length {A B} (f : A -> result B) xs ys :
  traverse f xs = Ok ys -> length ys = length xs.
Proof.
  revert ys. induction xs as [|x xs IH]; intros ys; simpl.
  - intros [= <-]. reflexivity.
  - destruct (f x); [|discriminate].
    destruct (traverse f xs); [|discriminate].
    intros [= <-]. simpl. f_equal. apply IH. reflexivity.
Qed.

Lemma traverse_ok_Forall2 {A B} (f : A -> result B) xs ys :
  traverse f xs = Ok ys <-> Forall2 (fun x y => f x = Ok y) xs ys.
Proof.
  revert ys. induction xs as [|x xs IH]; intros ys; simpl.
  - split.
    + intros [= <-]. constructor.
    + intros H. inversion H. reflexivity.
  - split.
    + destruct (f x) eqn:Hx; [|discriminate].
      destruct (traverse f xs) eqn:Hxs; [|discriminate].
      intros [= <-]. constructor; [assumption|]. apply IH. reflexivity.
    + intros H. inversion H as [|? y ? ys' Hy Hys]; subst.
      rewrite Hy. apply IH in Hys. rewrite Hys. reflexivity.
Qed.


Lemma py_list_eqb_spec {A} (eqb : A -> A -> bool) (xs ys : list A) :
  (forall x y, eqb x y = true <-> x = y) ->
  py_list_eqb eqb xs ys = true <-> xs = ys.
Proof.
  intros Heqb. revert ys.
  induction xs as [|x xs IH]; intros [|y ys]; simpl; try (split; congruence).
  rewrite andb_true_iff, Heqb, IH. split.
  - intros [-> ->]. reflexivity.
  - intros [= -> ->]. split; reflexivity.
Qed.

(** ** Column names (line 334) *)

Lemma is_lower_to_upper c : is_lower c = true -> is_lower (to_upper c) = false.
Proof.
  destruct c as [[] [] [] [] [] [] [] []]; vm_compute; congruence.
Qed.

Lemma normalize_name_not_lower c rest :
  is_lower c = false -> normalize_name (String c rest) = Ok (String c rest).
Proof. intros H. simpl. rewrite H. reflexivity. Qed.

(** The normalized name no longer starts with a lowercase letter. *)
Lemma normalize_name_head col col' :
  normalize_name col = Ok col' ->
  exists c rest, col' = String c rest /\ is_lower c = false.
Proof.
  destruct col as [|c rest]; simpl; [discriminate|].
  destruct (is_lower c) eqn:Hc; intros [= <-].
  - eexists _, _. split; [reflexivity|]. apply is_lower_to_upper, Hc.
  - eexists _, _. split; [reflexivity|]. exact Hc.
Qed.

Lemma normalize_name_idem col col' :
  normalize_name col = Ok col' -> normalize_name col' = Ok col'.
Proof.
  intros H. destruct (normalize_name_head _ _ H) as (c & rest & -> & Hc).
  apply normalize_name_not_lower, Hc.
Qed.

(** C3, at the input [mONTANT]: the normalization capitalizes the first
    letter and also turns every later capital into a small letter, so the
    name comes out as [Montant] and not as [MONTANT]. *)
Theorem normalize_name_lowers_the_rest :
  normalize_name "mONTANT" = Ok "Montant"
  /\ "Montant" <> "MONTANT".
Proof. split; [reflexivity | discriminate]. Qed.

(** ** SchemaValidator *)

Lemma class_of_standardize x : class_of_pyval (standardize x) = class_of x.
Proof.
  unfold standardize, class_of, dtype_mapping, dict_get.
  destruct (String.eqb x "object"), (String.eqb x "category"),
    (String.eqb x "int64"), (String.eqb x "float64"); reflexivity.
Qed.

Lemma standardize_of_class x : pyval_of_class (class_of x) = standardize x.
Proof.
  unfold standardize, class_of, dtype_mapping, dict_get.
  destruct (String.eqb x "object"), (String.eqb x "category"),
    (String.eqb x "int64"), (String.eqb x "float64"); reflexivity.
Qed.

Lemma pyval_eqb_eq a b : pyval_eqb a b = true <-> a = b.
Proof.
  destruct a, b; simpl; rewrite ?String.eqb_eq; split; congruence.
Qed.

Lemma standardize_class x y :
  pyval_eqb (standardize x) (standardize y) = true <-> class_of x = class_of y.
Proof.
  rewrite pyval_eqb_eq. split; intros H.
  - rewrite <- !class_of_standardize, H. reflexivity.
  - rewrite <- !standardize_of_class, H. reflexivity.
Qed.

Lemma standardize_dtypes_class (xs ys : list string) :
  py_list_eqb pyval_eqb (map standardize xs) (map standardize ys) = true
  <-> map class_of xs = map class_of ys.
Proof.
  revert ys. induction xs as [|x xs IH]; intros [|y ys]; simpl;
    try (split; congruence).
  rewrite andb_true_iff, standardize_class, IH. split.
  - intros [-> ->]. reflexivity.
  - intros [= -> ->]. split; reflexivity.
Qed.


(** ** TableStore: numbering *)

Lemma append_cons c s t : String c s ++ t = String c (s ++ t).
Proof. reflexivity. Qed.

Lemma append_assoc s t u : (s ++ t) ++ u = s ++ t ++ u.
Proof.
  induction s as [|c s IH]; [reflexivity|].
  rewrite !append_cons, IH. reflexivity.
Qed.

Lemma prefix_app p s : String.prefix p (p ++ s) = true.
Proof.
  induction p as [|c p IH].
  - destruct s; reflexivity.
  - rewrite append_cons. simpl.
    destruct (ascii_dec c c); [exact IH | congruence].
Qed.

Lemma prefix_all_digits p s :
  String.prefix p s = true -> all_digits s = true -> all_digits p = true.
Proof.
  revert s. induction p as [|c p IH]; intros [|d s]; simpl; try congruence.
  destruct (ascii_dec c d) as [->|]; [|discriminate].
  intros Hp [Hd Hs]%andb_true_iff. rewrite Hd. simpl. eapply IH; eassumption.
Qed.

Lemma all_digits_app s t :
  all_digits (s ++ t) = all_digits s && all_digits t.
Proof.
  induction s as [|c s IH]; [reflexivity|].
  rewrite append_cons. simpl. rewrite IH, andb_assoc. reflexivity.
Qed.

Lemma all_digits_string_of_uint d :
  all_digits (NilEmpty.string_of_uint d) = true.
Proof. induction d; simpl; auto. Qed.

Lemma all_digits_py_str n : all_digits (py_str n) = true.
Proof.
  unfold py_str, NilZero.string_of_uint.
  destruct (N.to_uint n); try apply all_digits_string_of_uint. reflexivity.
Qed.

Lemma table_prefix_not_digits username :
  all_digits (username ++ "_table") = false.
Proof. rewrite all_digits_app. simpl. apply andb_false_r. Qed.

Lemma to_uint_nonnil n : N.to_uint n <> Decimal.Nil.
Proof.
  destruct n; simpl; [discriminate|]. apply DecimalPos.Unsigned.to_uint_nonnil.
Qed.

(** [int(str(n)) == n]. *)
Lemma py_int_py_str n : py_int (py_str n) = Ok n.
Proof.
  unfold py_int, py_str.
  rewrite NilZero.usu by apply to_uint_nonnil.
  rewrite DecimalN.Unsigned.of_to. reflexivity.
Qed.

Lemma py_str_inj m n : py_str m = py_str n -> m = n.
Proof.
  intros H. pose proof (py_int_py_str m) as Hm.
  rewrite H, py_int_py_str in Hm. congruence.
Qed.

(** [str(n)] carries no padding: [zfill] to its own length adds nothing. *)
Lemma zfill_own_length s : zfill (String.length s) s = s.
Proof. unfold zfill. rewrite Nat.sub_diag. reflexivity. Qed.

Lemma split_go_skip sep acc s1 s2 :
  split_go sep (String.length s1) acc (s1 ++ s2) = split_go sep 0 acc s2.
Proof.
  induction s1 as [|c s1 IH]; [reflexivity|]. rewrite append_cons. exact IH.
Qed.

Lemma string_of_list_snoc l c s :
  string_of_list_ascii (l ++ [c]) ++ s = string_of_list_ascii l ++ String c s.
Proof.
  induction l as [|a l IH]; [reflexivity|].
  simpl. rewrite !append_cons, IH. reflexivity.
Qed.

Lemma append_empty_r s : s ++ "" = s.
Proof.
  induction s as [|a s IH]; [reflexivity|]. rewrite append_cons, IH. reflexivity.
Qed.

Lemma split_go_digits sep acc d :
  all_digits sep = false -> all_digits d = true ->
  split_go sep 0 acc d = [string_of_list_ascii (rev acc) ++ d].
Proof.
  intros Hsep. revert acc. induction d as [|c d IH]; intros acc Hd.
  - simpl. f_equal. symmetry. apply append_empty_r.
  - assert (String.prefix sep (String c d) = false) as Hp.
    { destruct (String.prefix sep (String c d)) eqn:Hp; [|reflexivity].
      rewrite (prefix_all_digits _ _ Hp Hd) in Hsep. discriminate. }
    simpl in Hd. apply andb_true_iff in Hd as [_ Hd].
    change (split_go sep 0 acc (String c d))
      with (if String.prefix sep (String c d)
            then string_of_list_ascii (rev acc)
                   :: split_go sep (String.length sep - 1) [] d
            else split_go sep 0 (c :: acc) d).
    rewrite Hp, (IH _ Hd).
    change (rev (c :: acc)) with (rev acc ++ [c])%list.
    rewrite string_of_list_snoc. reflexivity.
Qed.

(** The number of a well-named table is the number in its name. *)
Lemma table_number_py_str username n :
  table_number username (username ++ "_table" ++ py_str n) = Ok n.
Proof.
  unfold table_number, py_split.
  pose proof (table_prefix_not_digits username) as Hsep.
  rewrite <- append_assoc.
  pose proof (prefix_app (username ++ "_table") (py_str n)) as Hp.
  destruct (username ++ "_table") as [|c sep'] eqn:Esep; [discriminate|].
  rewrite append_cons in *.
  change (split_go (String c sep') 0 [] (String c (sep' ++ py_str n)))
    with (if String.prefix (String c sep') (String c (sep' ++ py_str n))
          then string_of_list_ascii (rev [])
                 :: split_go (String c sep')
                      (String.length (String c sep') - 1) []
                      (sep' ++ py_str n)
          else split_go (String c sep') 0 [c] (sep' ++ py_str n)).
  rewrite Hp.
  replace (String.length (String c sep') - 1)%nat with (String.length sep')
    by (simpl; lia).
  rewrite split_go_skip.
  rewrite split_go_digits by (assumption || apply all_digits_py_str).
  simpl. apply py_int_py_str.
Qed.

Lemma list_max_N_ge xs x : In x xs -> (x <= list_max_N xs)%N.
Proof.
  induction xs as [|y xs IH]; simpl; [tauto|].
  intros [->|H]; [lia | specialize (IH H); lia].
Qed.

Lemma list_max_N_in xs : xs <> [] -> In (list_max_N xs) xs.
Proof.
  induction xs as [|y xs IH]; [congruence|]. intros _. simpl.
  destruct xs as [|z xs].
  - left. simpl. lia.
  - destruct (N.max_spec y (list_max_N (z :: xs))) as [[_ ->]|[_ ->]].
    + right. apply IH. discriminate.
    + left. reflexivity.
Qed.

(** The numbering on well-named tables: the numbers read are the numbers in
    the names, and the new name carries one more than the largest. *)
Lemma next_table_name_ok username existing_tables :
  well_named username existing_tables ->
  exists next,
    next_table_name username existing_tables
    = Ok (username ++ "_table" ++ py_str next)
    /\ (forall n, In (username ++ "_table" ++ py_str n) existing_tables ->
                  (n < next)%N)
    /\ (next = 1%N
        /\ (forall t, In t existing_tables ->
                      startswith (username ++ "_table") t = false)
        \/ exists n, next = (n + 1)%N
                     /\ In (username ++ "_table" ++ py_str n) existing_tables).
Proof.
  intros Hwn. unfold next_table_name.
  set (prefix := username ++ "_table").
  set (user_tables := List.filter (startswith prefix) existing_tables).
  assert (exists nums,
            traverse (table_number username) user_tables = Ok nums
            /\ user_tables = map (fun n => username ++ "_table" ++ py_str n) nums)
    as (nums & Hnums & Hmap).
  { assert (forall t, In t user_tables ->
                      exists n, t = username ++ "_table" ++ py_str n) as Hall.
    { intros t [Hin Hst]%filter_In. apply (Hwn t Hin Hst). }
    clearbody user_tables.
    induction user_tables as [|t ts IH].
    - exists []. split; reflexivity.
    - destruct (Hall t (or_introl eq_refl)) as [n ->].
      destruct IH as (ns & Hns & ->); [intros; apply Hall; right; assumption|].
      exists (n :: ns). simpl. rewrite table_number_py_str, Hns.
      split; reflexivity. }
  assert (forall n, In (username ++ "_table" ++ py_str n) existing_tables
                    <-> In n nums) as Hin.
  { intros n. split.
    - intros H.
      assert (In (username ++ "_table" ++ py_str n) user_tables) as H'.
      { apply filter_In. split; [exact H|].
        unfold startswith, prefix. rewrite <- append_assoc. apply prefix_app. }
      rewrite Hmap in H'. apply in_map_iff in H' as (m & Hm & Hm').
      do 2 apply String.app_inj in Hm.
      apply py_str_inj in Hm. subst. assumption.
    - intros H.
      assert (In (username ++ "_table" ++ py_str n) user_tables) as H'.
      { rewrite Hmap. apply in_map_iff. eauto. }
      apply filter_In in H'. tauto. }
  destruct user_tables as [|t ts] eqn:Eut.
  - exists 1%N. split; [reflexivity|]. split.
    + intros n Hn. apply Hin in Hn.
      destruct nums; [destruct Hn | discriminate].
    + left. split; [reflexivity|]. intros t Ht.
      destruct (startswith prefix t) eqn:Hst; [|reflexivity].
      assert (In t (List.filter (startswith prefix) existing_tables)) as H'
        by (apply filter_In; auto).
      fold user_tables in H'. rewrite Eut in H'. destruct H'.
  - rewrite Hnums, zfill_own_length.
    exists (list_max_N nums + 1)%N. split; [reflexivity|]. split.
    + intros n Hn. apply Hin, list_max_N_ge in Hn. lia.
    + right. exists (list_max_N nums). split; [reflexivity|].
      apply Hin, list_max_N_in. destruct nums; discriminate.
Qed.

(** ** SchemaValidator and TableStore: runs *)

Lemma valid_schema_spec u t :
  valid_schema u t = true <->
  columns u = columns t /\ map class_of (dtypes u) = map class_of (dtypes t).
Proof.
  unfold valid_schema. rewrite andb_true_iff.
  rewrite (py_list_eqb_spec String.eqb _ _ String.eqb_eq).
  unfold standardize_dtypes.
  rewrite (standardize_dtypes_class (dtypes u) (dtypes t)). reflexivity.
Qed.

(** What a run of the validator returns and leaves behind. *)
Lemma validate_data_structure_run p uploaded_df template_df u t :
  frames p !! uploaded_df = Some u ->
  frames p !! template_df = Some t ->
  validate_data_structure uploaded_df template_df p
  = (Ok (valid_schema u t),
     Page (frames p) (st_out p ++ validation_output u t) (dirs p) (files p)).
Proof.
  intros Hu Ht.
  unfold validate_data_structure, mbind, script_bind, get_frame, valid_schema,
    validation_output.
  rewrite Hu, Ht.
  destruct (py_list_eqb String.eqb (columns u) (columns t)); simpl.
  - destruct (py_list_eqb pyval_eqb (standardize_dtypes u)
                (standardize_dtypes t)); simpl.
    + rewrite app_nil_r. destruct p; reflexivity.
    + reflexivity.
  - rewrite app_nil_r. destruct p; reflexivity.
Qed.

Lemma validation_output_valid u t :
  valid_schema u t = true -> validation_output u t = [].
Proof.
  unfold valid_schema, validation_output.
  intros [-> ->]%andb_true_iff. reflexivity.
Qed.

(** C1: validation answers true exactly when the candidate has the
    template's column names, in the template's order, and the same sequence
    of type classes (object and category are Categorical, int64 and float64
    are Numerical, any other type name is a class of its own); it leaves
    every frame the script holds, the candidate among them, and the disk as
    they were. *)
Theorem validate_data_structure_spec (p : page) (uploaded_df template_df : loc)
    (u t : DataFrame) :
  frames p !! uploaded_df = Some u ->
  frames p !! template_df = Some t ->
  exists b p',
    validate_data_structure uploaded_df template_df p = (Ok b, p')
    /\ (b = true <->
        columns u = columns t
        /\ map class_of (dtypes u) = map class_of (dtypes t))
    /\ frames p' = frames p
    /\ frames p' !! uploaded_df = Some u
    /\ files p' = files p.
Proof.
  intros Hu Ht.
  eexists _, _. split; [exact (validate_data_structure_run p _ _ u t Hu Ht)|].
  simpl.
  split; [apply valid_schema_spec|]. auto.
Qed.

Lemma validate_data_structure_witness :
  exists b p',
    validate_data_structure 1 0
      (Page [template_example; montant_as_text] [] ∅ ∅) = (Ok b, p')
    /\ (b = true <->
        columns montant_as_text = columns template_example
        /\ map class_of (dtypes montant_as_text)
           = map class_of (dtypes template_example))
    /\ frames p' = [template_example; montant_as_text]
    /\ frames p' !! 1%nat = Some montant_as_text
    /\ files p' = ∅.
Proof.
  apply (validate_data_structure_spec
           (Page [template_example; montant_as_text] [] ∅ ∅) 1 0
           montant_as_text template_example); reflexivity.
Defined.

Lemma connect_run path p :
  connect path p
  = (Ok (default ∅ (files p !! path)),
     Page (frames p) (st_out p) (dirs p)
       (<[path := default ∅ (files p !! path)]> (files p))).
Proof.
  unfold connect. destruct (files p !! path) as [db|] eqn:E; simpl.
  - rewrite insert_id by exact E. destruct p; reflexivity.
  - reflexivity.
Qed.

(** What [save_uploaded_file_as_sqlite] returns and leaves behind when the
    upload can be read and the numbering succeeds. *)
Lemma save_run initial_df file username p df tpl name :
  has_extension file = true ->
  file_parse file = Ok df ->
  frames p !! initial_df = Some tpl ->
  next_table_name username (tables_of p username) = Ok name ->
  exists out,
    save_uploaded_file_as_sqlite initial_df file username p
    = (Ok (if negb (df_empty df) && valid_schema df tpl
           then Some (length (frames p), name, db_path_of username)
           else None),
       Page (frames p ++ [df]) (st_out p ++ out)
         ({["./data/" ++ username]} ∪ dirs p)
         (<[db_path_of username :=
              if negb (df_empty df) && valid_schema df tpl
              then <[name := df]> (user_db p username)
              else user_db p username]> (files p)))
    /\ out = (if df_empty df then [StError msg_empty]
              else if valid_schema df tpl then []
              else validation_output df tpl ++ [StError msg_structure])%list.
Proof.
  intros Hext Hparse Htpl Hname.
  unfold save_uploaded_file_as_sqlite.
  unfold mbind at 1, script_bind at 1. unfold makedirs at 1.
  unfold mbind at 1, script_bind at 1. rewrite connect_run.
  cbn [files frames st_out dirs].
  fold (db_path_of username). fold (user_db p username).
  fold (tables_of p username). rewrite Hname.
  unfold try_except, mbind, script_bind, read_upload.
  fold (has_extension file). rewrite Hext, Hparse.
  unfold new_frame, get_frame. simpl frames.
  rewrite list_lookup_middle by reflexivity.
  destruct (df_empty df) eqn:Hempty; simpl.
  - exists [StError msg_empty]. split; reflexivity.
  - set (p3 := Page (frames p ++ [df]) (st_out p)
                 ({["./data/" ++ username]} ∪ dirs p)
                 (<[db_path_of username:=user_db p username]> (files p))).
    rewrite (validate_data_structure_run p3 (length (frames p)) initial_df
               df tpl);
      [| simpl; apply list_lookup_middle; reflexivity
       | simpl; apply lookup_app_l_Some; exact Htpl].
    destruct (valid_schema df tpl) eqn:Hvalid; simpl.
    + unfold to_sql, mret, script_ret. simpl.
      rewrite lookup_insert_eq. simpl. rewrite insert_insert_eq.
      rewrite (validation_output_valid _ _ Hvalid).
      exists []. split; reflexivity.
    + exists (validation_output df tpl ++ [StError msg_structure])%list.
      rewrite app_assoc. split; reflexivity.
Qed.

Lemma in_tables_of p username t :
  In t (tables_of p username) <-> is_Some (user_db p username !! t).
Proof.
  unfold tables_of. rewrite <- list_elem_of_In, list_elem_of_fmap. split.
  - intros ([t' df] & -> & H%elem_of_map_to_list). eauto.
  - intros [df H]. exists (t, df). split; [reflexivity|].
    apply elem_of_map_to_list, H.
Qed.

Lemma stored_table_after_save p username (db : gmap string DataFrame) path t :
  (db = user_db p username \/ path <> db_path_of username) ->
  stored_table
    (Page (frames p) (st_out p) (dirs p)
       (<[db_path_of username := db]> (files p))) path t
  = if decide (path = db_path_of username) then db !! t
    else stored_table p path t.
Proof.
  intros _. unfold stored_table. simpl. destruct (decide _) as [->|Hne].
  - rewrite lookup_insert_eq. reflexivity.
  - rewrite lookup_insert_ne by congruence. reflexivity.
Qed.

Lemma tables_of_page_of_u :
  tables_of page_of_u "u"
  = ["u_table3"; "u_table5"; "u_table1"; "u_table2"; "u_table4"].
Proof. vm_compute. reflexivity. Qed.

(** The five stored tables are named as the store names them. *)
Lemma well_named_page_of_u : well_named "u" (tables_of page_of_u "u").
Proof.
  rewrite tables_of_page_of_u. intros t Ht _.
  destruct Ht as [<-|[<-|[<-|[<-|[<-|[]]]]]];
    [exists 3%N | exists 5%N | exists 1%N | exists 2%N | exists 4%N];
    vm_compute; reflexivity.
Qed.

(** C8: a save of a valid upload numbers the new table one above the
    largest number among the user's tables [{username}_table{n}], or 1 when
    the user has none; the name carries that number in plain decimal
    notation, without padding, and the frame is stored under it.  With
    tables [u_table1] to [u_table5] in the store the save produces
    [u_table6]. *)
Theorem save_assigns_next_table_number :
  (forall initial_df file username p df tpl,
      has_extension file = true ->
      file_parse file = Ok df ->
      df_empty df = false ->
      frames p !! initial_df = Some tpl ->
      columns df = columns tpl ->
      map class_of (dtypes df) = map class_of (dtypes tpl) ->
      well_named username (tables_of p username) ->
      exists next p',
        save_uploaded_file_as_sqlite initial_df file username p
        = (Ok (Some (length (frames p),
                     username ++ "_table" ++ py_str next,
                     db_path_of username)), p')
        /\ stored_table p' (db_path_of username)
             (username ++ "_table" ++ py_str next) = Some df
        /\ (forall n,
              In (username ++ "_table" ++ py_str n) (tables_of p username) ->
              (n < next)%N)
        /\ (next = 1%N
            /\ (forall t, In t (tables_of p username) ->
                          startswith (username ++ "_table") t = false)
            \/ exists n,
                 next = (n + 1)%N
                 /\ In (username ++ "_table" ++ py_str n)
                      (tables_of p username)))
  /\ (save_uploaded_file_as_sqlite 0 (Upload "june.csv" (Ok valid_example))
        "u" page_of_u).1
     = Ok (Some (1%nat, "u_table6", "./data/u/u.db")).
Proof.
  split; [|vm_compute; reflexivity].
  intros initial_df file username p df tpl Hext Hparse Hempty Htpl Hcols Hcls Hwn.
  destruct (next_table_name_ok _ _ Hwn) as (next & Hname & Hlt & Hmax).
  destruct (save_run _ _ _ _ _ _ _ Hext Hparse Htpl Hname) as (out & Hrun & _).
  assert (valid_schema df tpl = true) as Hvalid
    by (apply valid_schema_spec; auto).
  rewrite Hempty, Hvalid in Hrun. simpl in Hrun.
  eexists next, _. split; [exact Hrun|]. split; [|split; assumption].
  unfold stored_table. simpl. rewrite lookup_insert_eq. simpl.
  apply lookup_insert_eq.
Qed.

Lemma save_assigns_next_table_number_witness :
  well_named "u" (tables_of page_of_u "u")
  /\ exists next p',
       save_uploaded_file_as_sqlite 0 (Upload "june.csv" (Ok valid_example))
         "u" page_of_u
       = (Ok (Some (length (frames page_of_u),
                    "u" ++ "_table" ++ py_str next, db_path_of "u")), p')
       /\ stored_table p' (db_path_of "u") ("u" ++ "_table" ++ py_str next)
          = Some valid_example
       /\ (forall n,
             In ("u" ++ "_table" ++ py_str n) (tables_of page_of_u "u") ->
             (n < next)%N)
       /\ (next = 1%N
           /\ (forall t, In t (tables_of page_of_u "u") ->
                         startswith ("u" ++ "_table") t = false)
           \/ exists n,
                next = (n + 1)%N
                /\ In ("u" ++ "_table" ++ py_str n) (tables_of page_of_u "u")).
Proof.
  split; [exact well_named_page_of_u|].
  apply (proj1 save_assigns_next_table_number 0%nat
           (Upload "june.csv" (Ok valid_example)) "u" page_of_u
           valid_example template_example).
  - vm_compute. reflexivity.
  - reflexivity.
  - vm_compute. reflexivity.
  - reflexivity.
  - vm_compute. reflexivity.
  - vm_compute. reflexivity.
  - exact well_named_page_of_u.
Defined.

(** C9, as the code has it: given an upload that is empty or fails the
    validation against the template, the save returns no record, its last
    word on the page is an error message, and every table of every database
    is as it was.  For a failed validation the message points at the column
    descriptions; for an empty table it says that the file is empty or
    improperly formatted. *)
Theorem save_rejects_invalid_upload initial_df file username p df tpl :
  has_extension file = true ->
  file_parse file = Ok df ->
  frames p !! initial_df = Some tpl ->
  well_named username (tables_of p username) ->
  df_empty df = true
  \/ ~ (columns df = columns tpl
        /\ map class_of (dtypes df) = map class_of (dtypes tpl)) ->
  exists p' msg,
    save_uploaded_file_as_sqlite initial_df file username p = (Ok None, p')
    /\ last (st_out p') = Some (StError msg)
    /\ msg = (if df_empty df then msg_empty else msg_structure)
    /\ (df_empty df = false -> points_at_column_descriptions msg = true)
    /\ (forall path t, stored_table p' path t = stored_table p path t).
Proof.
  intros Hext Hparse Htpl Hwn Hbad.
  destruct (next_table_name_ok _ _ Hwn) as (next & Hname & _).
  destruct (save_run _ _ _ _ _ _ _ Hext Hparse Htpl Hname) as (out & Hrun & Hout).
  assert (negb (df_empty df) && valid_schema df tpl = false) as Hno.
  { destruct Hbad as [->|Hbad]; [reflexivity|].
    destruct (valid_schema df tpl) eqn:Hv; [|apply andb_false_r].
    apply valid_schema_spec in Hv. contradiction. }
  rewrite Hno in Hrun.
  eexists _, (if df_empty df then msg_empty else msg_structure).
  split; [exact Hrun|]. simpl. split; [|split; [reflexivity|split]].
  - rewrite Hout. destruct (df_empty df) eqn:He.
    + apply last_snoc.
    + simpl in Hno. rewrite Hno, app_assoc. apply last_snoc.
  - intros ->. vm_compute. reflexivity.
  - intros path t. unfold stored_table. simpl.
    destruct (decide (path = db_path_of username)) as [->|Hne].
    + rewrite lookup_insert_eq. unfold user_db.
      destruct (files p !! db_path_of username); reflexivity.
    + rewrite lookup_insert_ne by congruence. reflexivity.
Qed.

Lemma save_rejects_invalid_upload_witness :
  exists p' msg,
    save_uploaded_file_as_sqlite 0 (Upload "bad.csv" (Ok montant_as_text))
      "u" page_of_u = (Ok None, p')
    /\ last (st_out p') = Some (StError msg)
    /\ msg = (if df_empty montant_as_text then msg_empty else msg_structure)
    /\ (df_empty montant_as_text = false ->
        points_at_column_descriptions msg = true)
    /\ (forall path t, stored_table p' path t = stored_table page_of_u path t).
Proof.
  apply (save_rejects_invalid_upload 0%nat
           (Upload "bad.csv" (Ok montant_as_text)) "u" page_of_u
           montant_as_text template_example).
  - vm_compute. reflexivity.
  - reflexivity.
  - reflexivity.
  - exact well_named_page_of_u.
  - right. intros [_ H]. revert H. vm_compute. discriminate.
Defined.

(** C9 as stated fails on an empty upload: the save reports the file as
    empty or improperly formatted, and no message on the page mentions the
    column descriptions. *)
Lemma save_empty_upload_message :
  (save_uploaded_file_as_sqlite 0 (Upload "empty.csv" (Ok header_only))
     "u" page_of_u).1 = Ok None
  /\ ~ (exists msg,
          In (StError msg)
             (st_out (save_uploaded_file_as_sqlite 0
                        (Upload "empty.csv" (Ok header_only)) "u" page_of_u).2)
          /\ points_at_column_descriptions msg = true).
Proof.
  split; [vm_compute; reflexivity|].
  intros (msg & Hin & Hpoints).
  assert (st_out (save_uploaded_file_as_sqlite 0
                    (Upload "empty.csv" (Ok header_only)) "u" page_of_u).2
          = [StError msg_empty]) as E by (vm_compute; reflexivity).
  rewrite E in Hin. destruct Hin as [[= <-]|[]].
  revert Hpoints. vm_compute. discriminate.
Qed.

(** ** Cleaner: the target column (lines 345-349) *)

Lemma most_frequent_fold {A} (eqb leb : A -> A -> bool) (xs rest : list A) x :
  let pick := fun best y => if better eqb leb xs best y then best else y in
  In (fold_left pick rest x) (x :: rest)
  /\ forall v, In v (x :: rest) ->
       (count_eqb eqb v xs <= count_eqb eqb (fold_left pick rest x) xs)%nat.
Proof.
  intros pick. revert x. induction rest as [|y rest IH]; intros x; simpl.
  - split; [left; reflexivity|]. intros v [->|[]]. reflexivity.
  - destruct (IH (pick x y)) as [Hin Hmax]. split.
    + destruct Hin as [Hin|Hin]; [|right; right; exact Hin].
      rewrite <- Hin. unfold pick.
      destruct (better eqb leb xs x y); [left | right; left]; reflexivity.
    + assert (count_eqb eqb x xs <= count_eqb eqb (pick x y) xs
              /\ count_eqb eqb y xs <= count_eqb eqb (pick x y) xs)%nat
        as [Hx Hy].
      { unfold pick, better.
        destruct (count_eqb eqb y xs <? count_eqb eqb x xs)%nat eqn:Hlt; simpl.
        - apply Nat.ltb_lt in Hlt. lia.
        - apply Nat.ltb_ge in Hlt.
          destruct (count_eqb eqb x xs =? count_eqb eqb y xs)%nat eqn:Heq;
            simpl.
          + apply Nat.eqb_eq in Heq. destruct (leb x y); lia.
          + lia. }
      intros v [->|[->|Hv]].
      * etransitivity; [exact Hx|]. apply Hmax. left. reflexivity.
      * etransitivity; [exact Hy|]. apply Hmax. left. reflexivity.
      * apply Hmax. right. exact Hv.
Qed.

(** The statistic of the imputer is a value of the list, as frequent as
    any other. *)
Lemma most_frequent_spec {A} (eqb leb : A -> A -> bool) (xs : list A) m :
  most_frequent eqb leb xs = Some m ->
  In m xs /\ forall v, In v xs -> (count_eqb eqb v xs <= count_eqb eqb m xs)%nat.
Proof.
  destruct xs as [|x rest]; simpl; [discriminate|]. intros [= <-].
  apply (most_frequent_fold eqb leb (x :: rest) rest x).
Qed.

Lemma most_frequent_some {A} (eqb leb : A -> A -> bool) (xs : list A) :
  xs <> [] -> exists m, most_frequent eqb leb xs = Some m.
Proof. destruct xs; [congruence|]. simpl. eauto. Qed.

Lemma count_eqb_map {A B} (f : A -> B) (eqa : A -> A -> bool)
    (eqb : B -> B -> bool) x xs :
  (forall a b, eqb (f a) (f b) = eqa a b) ->
  count_eqb eqb (f x) (map f xs) = count_eqb eqa x xs.
Proof.
  intros H. unfold count_eqb. induction xs as [|y xs IH]; simpl; [reflexivity|].
  rewrite H. destruct (eqa x y); simpl; rewrite IH; reflexivity.
Qed.

Lemma is_mode_map {A} (f : A -> scalar) (eqa leb : A -> A -> bool) xs m :
  (forall a b, scalar_eqb (f a) (f b) = eqa a b) ->
  most_frequent eqa leb xs = Some m ->
  is_mode (f m) (map f xs).
Proof.
  intros Hf [Hin Hmax]%most_frequent_spec. split.
  - apply in_map, Hin.
  - intros v (a & <- & Ha)%in_map_iff.
    rewrite !(count_eqb_map f eqa scalar_eqb) by exact Hf. apply Hmax, Ha.
Qed.

Lemma omap_map {A B C} (f : B -> option C) (g : A -> B) (l : list A) :
  omap f (map g l) = omap (fun x => f (g x)) l.
Proof.
  induction l as [|x l IH]; [reflexivity|]. cbn [map omap list_omap].
  change (omap f (map g l)) with (omap f (map g l)).
  destruct (f (g x)); rewrite <- IH; reflexivity.
Qed.

Lemma map_omap {A B C} (h : B -> C) (k : A -> option B) (l : list A) :
  map h (omap k l) = omap (fun x => h <$> k x) l.
Proof.
  induction l as [|x l IH]; [reflexivity|]. cbn [omap list_omap].
  destruct (k x); cbn [fmap option_fmap option_map map]; rewrite <- IH;
    reflexivity.
Qed.

Lemma omap_pointwise {A B} (f g : A -> option B) (l : list A) :
  (forall x, f x = g x) -> omap f l = omap g l.
Proof.
  intros H. induction l as [|x l IH]; [reflexivity|]. cbn [omap list_omap].
  rewrite H. destruct (g x); rewrite <- IH; reflexivity.
Qed.

Lemma target_observed_object cells :
  target_observed (cells_of (ObjectCol cells))
  = map SStr
      (observed
         (map (fun c => match c with
                        | Some s => if String.eqb s "Unknown" then None else Some s
                        | None => None
                        end) cells)).
Proof.
  unfold target_observed, observed, cells_of.
  rewrite !omap_map, map_omap. apply omap_pointwise.
  intros [s|]; [|reflexivity]. simpl.
  destruct (String.eqb s "Unknown"); reflexivity.
Qed.

Lemma target_observed_float cells :
  target_observed (cells_of (Float64Col cells)) = map SFloat (observed cells).
Proof.
  unfold target_observed, observed, cells_of.
  rewrite omap_map, map_omap. apply omap_pointwise.
  intros [q|]; reflexivity.
Qed.

Lemma target_observed_int cells :
  target_observed (cells_of (Int64Col cells)) = map SInt cells.
Proof.
  unfold target_observed, cells_of. rewrite omap_map.
  induction cells as [|z cells IH]; [reflexivity|]. cbn [omap list_omap map].
  rewrite <- IH. reflexivity.
Qed.

(** The imputation of one target column. *)
Lemma impute_most_frequent_spec churn :
  supported_target churn = true ->
  target_observed (cells_of churn) <> [] ->
  exists m churn',
    impute_most_frequent (replace_unknown_nan churn) = Ok churn'
    /\ dtype_str churn' = dtype_str churn
    /\ cells_of churn'
       = map (fun c => if target_missing c then Some m else c) (cells_of churn)
    /\ is_mode m (target_observed (cells_of churn)).
Proof.
  intros Hsup Hobs. destruct churn as [cells|cells|cells|name cells];
    [| | |discriminate].
  - rewrite target_observed_object in *. simpl.
    destruct (most_frequent_some String.eqb String.leb
                (observed (map (fun c => match c with
                   | Some s => if String.eqb s "Unknown" then None else Some s
                   | None => None end) cells))) as [m Hm].
    { intros E. rewrite E in Hobs. apply Hobs. reflexivity. }
    rewrite Hm. exists (SStr m). eexists. split; [reflexivity|].
    split; [reflexivity|]. split.
    + simpl. unfold fill_missing. rewrite !map_map. apply map_ext.
      intros [s|]; simpl; [|reflexivity].
      destruct (String.eqb s "Unknown"); reflexivity.
    + apply (is_mode_map SStr String.eqb String.leb); [reflexivity|exact Hm].
  - rewrite target_observed_int in *. simpl.
    destruct cells as [|z cells]; [contradiction Hobs; reflexivity|].
    destruct (most_frequent_some Z.eqb Z.leb (z :: cells)) as [m Hm];
      [discriminate|].
    exists (SInt m). eexists. split; [reflexivity|]. split; [reflexivity|].
    split.
    + simpl. rewrite map_map. reflexivity.
    + apply (is_mode_map SInt Z.eqb Z.leb); [reflexivity|exact Hm].
  - rewrite target_observed_float in *. simpl.
    destruct (most_frequent_some Qeq_bool Qle_bool (observed cells)) as [m Hm].
    { intros E. rewrite E in Hobs. apply Hobs. reflexivity. }
    rewrite Hm. exists (SFloat m). eexists. split; [reflexivity|].
    split; [reflexivity|]. split.
    + simpl. unfold fill_missing. rewrite !map_map. apply map_ext.
      intros [q|]; reflexivity.
    + apply (is_mode_map SFloat Qeq_bool Qle_bool); [reflexivity|exact Hm].
Qed.

(** C5: in the column CHURN every 'Unknown' and every missing entry is
    replaced by a mode of the observed entries (those that are neither
    missing nor 'Unknown'), the other entries and the other columns are
    kept; CHURN = [Yes, missing, Yes] becomes [Yes, Yes, Yes]. *)
Theorem impute_target_mode :
  (forall df churn,
      get_column "CHURN" (df_columns df) = Ok churn ->
      (count_label "CHURN" (columns df) <= 1)%nat ->
      supported_target churn = true ->
      target_observed (cells_of churn) <> [] ->
      exists m churn',
        impute_target df
        = Ok (with_columns df (set_column "CHURN" churn' (df_columns df)))
        /\ dtype_str churn' = dtype_str churn
        /\ cells_of churn'
           = map (fun c => if target_missing c then Some m else c)
               (cells_of churn)
        /\ is_mode m (target_observed (cells_of churn)))
  /\ impute_target churn_example
     = Ok (Frame None (Int64Col [0%Z; 1%Z; 2%Z])
             [Column "REGION"
                (ObjectCol [Some "DAKAR"; Some "THIES"; Some "DAKAR"]);
              Column "CHURN" (ObjectCol [Some "Yes"; Some "Yes"; Some "Yes"])]).
Proof.
  split; [|reflexivity].
  intros df churn Hget Hcount Hsup Hobs.
  destruct (impute_most_frequent_spec churn Hsup Hobs)
    as (m & churn' & Himp & Hdt & Hcells & Hmode).
  exists m, churn'. unfold impute_target. rewrite Hget.
  apply Nat.ltb_ge in Hcount. rewrite Hcount, Himp. auto.
Qed.

Lemma impute_target_mode_witness :
  exists m churn',
    impute_target churn_example
    = Ok (with_columns churn_example
            (set_column "CHURN" churn' (df_columns churn_example)))
    /\ dtype_str churn' = "object"
    /\ cells_of churn'
       = map (fun c => if target_missing c then Some m else c)
           [Some (SStr "Yes"); None; Some (SStr "Yes")]
    /\ is_mode m [SStr "Yes"; SStr "Yes"].
Proof.
  apply (proj1 impute_target_mode churn_example
           (ObjectCol [Some "Yes"; None; Some "Yes"])).
  - reflexivity.
  - vm_compute. lia.
  - reflexivity.
  - vm_compute. discriminate.
Defined.

(** ** Cleaner: median imputation and integer cast (lines 355-364) *)

Lemma traverse_map {A B} (f : A -> result B) (g : A -> B) xs :
  (forall x, In x xs -> f x = Ok (g x)) -> traverse f xs = Ok (map g xs).
Proof.
  induction xs as [|x xs IH]; intros H; simpl; [reflexivity|].
  rewrite (H x (or_introl eq_refl)), IH; [reflexivity|].
  intros y Hy. apply H. right. exact Hy.
Qed.

Lemma traverse_map_map {A B C} (f : B -> result C) (g : A -> B) xs :
  traverse f (map g xs) = traverse (fun x => f (g x)) xs.
Proof.
  induction xs as [|x xs IH]; simpl; [reflexivity|]. rewrite IH. reflexivity.
Qed.

Lemma insert_sorted_length x l : length (insert_sorted x l) = S (length l).
Proof.
  induction l as [|y l IH]; simpl; [reflexivity|].
  destruct (Qle_bool x y); simpl; [reflexivity | rewrite IH; reflexivity].
Qed.

Lemma sort_Q_length l : length (sort_Q l) = length l.
Proof.
  induction l as [|x l IH]; simpl; [reflexivity|].
  rewrite insert_sorted_length, IH. reflexivity.
Qed.

(** A non-empty list has a median. *)
Lemma median_some xs : xs <> [] -> exists m, median xs = Some m.
Proof.
  intros Hne. unfold median.
  assert (0 < length (sort_Q xs))%nat as Hlen.
  { rewrite sort_Q_length. destruct xs; [congruence | simpl; lia]. }
  set (s := sort_Q xs) in *. set (n := length s) in *.
  assert (n / 2 < n)%nat as Hhalf by (apply Nat.div_lt; lia).
  destruct (Nat.odd n).
  - destruct (lookup_lt_is_Some_2 s (n / 2)%nat Hhalf) as [m Hm]. eauto.
  - destruct (lookup_lt_is_Some_2 s (n / 2 - 1)%nat) as [a Ha]; [lia|].
    destruct (lookup_lt_is_Some_2 s (n / 2)%nat Hhalf) as [b Hb].
    rewrite Ha, Hb. eauto.
Qed.

Lemma median_none xs : median xs = None -> xs = [].
Proof.
  intros H. destruct xs as [|x xs]; [reflexivity|].
  destruct (median_some (x :: xs)) as [m Hm]; [discriminate|]. congruence.
Qed.

Lemma Qtrunc_inject_Z z : Qtrunc (inject_Z z) = z.
Proof. unfold Qtrunc, inject_Z. simpl. apply Z.quot_1_r. Qed.

(** *** Integers through float64 *)

Open Scope Z_scope.

(** A multiple [m * 2^e] with [2^52 <= m <= 2^53] is a float. *)
Lemma float64_of_Z_fixed s m e :
  (s = 1 \/ s = -1) -> 0 <= e -> 2 ^ 52 <= m <= 2 ^ 53 ->
  float64_of_Z (s * (m * 2 ^ e)) = s * (m * 2 ^ e).
Proof.
  intros Hs He [Hlo Hhi].
  assert (0 < 2 ^ e) as Hpow by (apply Z.pow_pos_nonneg; lia).
  assert (Z.abs (s * (m * 2 ^ e)) = m * 2 ^ e) as Habs
    by (destruct Hs as [-> | ->]; nia).
  assert (Z.sgn (s * (m * 2 ^ e)) = s) as Hsgn
    by (destruct Hs as [-> | ->]; nia).
  destruct (Z.eq_dec m (2 ^ 53)) as [->|Hne].
  - unfold float64_of_Z. rewrite Habs, Hsgn.
    rewrite <- Z.pow_add_r by lia. rewrite Z.log2_pow2 by lia.
    destruct (Z.leb_spec (53 + e - 52) 0) as [_|_]; [reflexivity|].
    cbv zeta. replace (53 + e - 52) with (e + 1) by lia.
    replace (53 + e) with (52 + (e + 1)) by lia.
    rewrite Z.pow_add_r by lia.
    assert (0 < 2 ^ (e + 1)) as Hpow' by (apply Z.pow_pos_nonneg; lia).
    rewrite Z.div_mul by lia. rewrite Z.mod_mul by lia.
    destruct (Z.ltb_spec (2 * 0) (2 ^ (e + 1))); [reflexivity | lia].
  - unfold float64_of_Z. rewrite Habs, Hsgn.
    assert (Z.log2 (m * 2 ^ e) = 52 + e) as Hlog.
    { apply Z.log2_unique; [lia|].
      replace (Z.succ (52 + e)) with (53 + e) by lia.
      rewrite !Z.pow_add_r by lia. split.
      - apply Z.mul_le_mono_nonneg_r; lia.
      - apply Z.mul_lt_mono_pos_r; lia. }
    rewrite Hlog.
    destruct (Z.leb_spec (52 + e - 52) 0) as [_|_]; [reflexivity|].
    cbv zeta. replace (52 + e - 52) with e by lia.
    rewrite Z.div_mul by lia. rewrite Z.mod_mul by lia.
    destruct (Z.ltb_spec (2 * 0) (2 ^ e)); [reflexivity | lia].
Qed.


(** The value of the conversion is the integer itself or a multiple
    [m * 2^e] of 53 bits. *)
Lemma float64_of_Z_shape z :
  float64_of_Z z = z
  \/ exists s m e,
       (s = 1 \/ s = -1) /\ 0 <= e /\ 2 ^ 52 <= m <= 2 ^ 53
       /\ float64_of_Z z = s * (m * 2 ^ e).
Proof.
  unfold float64_of_Z.
  destruct (Z.leb_spec (Z.log2 (Z.abs z) - 52) 0) as [He|He]; [left; reflexivity|].
  right. cbv zeta. set (e := Z.log2 (Z.abs z) - 52) in *.
  assert (0 < Z.abs z) as Hpos.
  { destruct (Z.eq_dec (Z.abs z) 0) as [E|]; [|lia].
    unfold e in He. rewrite E in He. simpl in He. lia. }
  pose proof (Z.log2_spec (Z.abs z) Hpos) as [Hlo Hhi].
  assert (0 < 2 ^ e) as Hpow by (apply Z.pow_pos_nonneg; lia).
  replace (Z.log2 (Z.abs z)) with (52 + e) in Hlo, Hhi by (unfold e; lia).
  replace (Z.succ (52 + e)) with (53 + e) in Hhi by lia.
  rewrite Z.pow_add_r in Hlo, Hhi by lia.
  pose proof (Z.div_mod (Z.abs z) (2 ^ e) ltac:(lia)) as Hdm.
  pose proof (Z.mod_pos_bound (Z.abs z) (2 ^ e) Hpow) as Hr.
  set (q := Z.abs z / 2 ^ e) in *. set (r := Z.abs z mod 2 ^ e) in *.
  assert (2 ^ 52 <= q < 2 ^ 53) as Hq by nia.
  exists (Z.sgn z),
    (if 2 * r <? 2 ^ e then q
     else if 2 ^ e <? 2 * r then q + 1 else if Z.even q then q else q + 1), e.
  split; [lia|]. split; [lia|]. split; [|reflexivity].
  destruct (2 * r <? 2 ^ e); [lia|].
  destruct (2 ^ e <? 2 * r); [lia|].
  destruct (Z.even q); lia.
Qed.

Lemma float64_of_Z_idem z : float64_of_Z (float64_of_Z z) = float64_of_Z z.
Proof.
  destruct (float64_of_Z_shape z) as [E|(s & m & e & Hs & He & Hm & E)];
    rewrite E.
  - exact E.
  - apply float64_of_Z_fixed; assumption.
Qed.


Lemma int64_round_trip_idem z :
  int64_round_trip (int64_round_trip z) = int64_round_trip z.
Proof.
  unfold int64_round_trip at 2 3. unfold int64_of_float.
  rewrite Qtrunc_inject_Z.
  destruct (_ && _) eqn:Hrange.
  - unfold int64_round_trip, int64_of_float.
    rewrite float64_of_Z_idem, Qtrunc_inject_Z, Hrange. reflexivity.
  - reflexivity.
Qed.

(** Beyond 53 bits the round trip changes the integer, and at the top of
    the range it wraps. *)
Lemma int64_round_trip_beyond_mantissa :
  int64_round_trip (2 ^ 53 + 1) = 2 ^ 53
  /\ int64_round_trip (2 ^ 53 + 3) = 2 ^ 53 + 4
  /\ int64_round_trip (2 ^ 63 - 1) = - 2 ^ 63.
Proof. repeat split; reflexivity. Qed.

Close Scope Z_scope.

(** The float column the imputer makes of integers casts back to their
    round trips. *)
Lemma astype_int64_of_ints cells :
  astype_int64
    (Float64Col (map Some (map (fun z => inject_Z (float64_of_Z z)) cells)))
  = Ok (Int64Col (map int64_round_trip cells)).
Proof.
  unfold astype_int64.
  rewrite (traverse_map _ (fun c => match c with
                                    | Some q => int64_of_float q
                                    | None => 0%Z
                                    end)).
  - rewrite !map_map. reflexivity.
  - intros c (q & <- & _)%in_map_iff. reflexivity.
Qed.

Lemma label_in_spec name names : label_in name names = true <-> In name names.
Proof.
  unfold label_in. rewrite existsb_exists. split.
  - intros (x & Hx & ->%String.eqb_eq). exact Hx.
  - intros H. exists name. split; [exact H | apply String.eqb_refl].
Qed.

Lemma NoDup_map_inj {A B} (f : A -> B) l x y :
  NoDup (map f l) -> In x l -> In y l -> f x = f y -> x = y.
Proof.
  induction l as [|a l IH]; simpl; [tauto|].
  intros [Hnotin Hnd]%NoDup_cons [->|Hx] [->|Hy] Hf; auto.
  - exfalso. apply Hnotin. rewrite Hf. apply list_elem_of_In, in_map, Hy.
  - exfalso. apply Hnotin. rewrite <- Hf. apply list_elem_of_In, in_map, Hx.
Qed.

(** With distinct labels, the labels of the integer columns select the
    integer columns. *)
Lemma label_in_int64_columns cols c :
  NoDup (map col_name cols) -> In c cols ->
  label_in (col_name c)
    (map col_name (List.filter (fun c => is_int64 (col_data c)) cols))
  = is_int64 (col_data c).
Proof.
  intros Hnd Hc. apply eq_true_iff_eq. rewrite label_in_spec, in_map_iff. split.
  - intros (c' & Hname & [Hc' Hint]%filter_In).
    rewrite (NoDup_map_inj col_name cols c c' Hnd Hc Hc') by congruence.
    exact Hint.
  - intros Hint. exists c. split; [reflexivity|]. apply filter_In. auto.
Qed.

(** The two steps on a frame with distinct labels whose numerical columns
    have values. *)
Lemma impute_and_cast_run df :
  (exists c, In c (df_columns df) /\ is_numerical (col_data c) = true) ->
  (forall c, In c (df_columns df) -> is_numerical (col_data c) = true ->
             numeric_values (col_data c) <> []) ->
  NoDup (columns df) ->
  impute_and_cast df
  = Ok (with_columns df
          (map (fun c => Column (col_name c) (median_imputed (col_data c)))
             (df_columns df))).
Proof.
  intros (c0 & Hc0 & Hnum0) Hvalues Hnd.
  unfold impute_and_cast, impute_numerical.
  destruct (List.filter (fun c => is_numerical (col_data c)) (df_columns df))
    as [|c1 rest] eqn:Hfilter.
  { assert (In c0 []) as []. rewrite <- Hfilter. apply filter_In. auto. }
  clear Hfilter c1 rest.
  rewrite (traverse_map _
             (fun c => Column (col_name c)
                         match col_data c with
                         | Int64Col cells =>
                             Float64Col
                               (map Some
                                  (map (fun z => inject_Z (float64_of_Z z))
                                     cells))
                         | d => median_imputed d
                         end)).
  - unfold cast_back. simpl df_columns. rewrite traverse_map_map.
    rewrite (traverse_map _
               (fun c => Column (col_name c) (median_imputed (col_data c)))).
    + reflexivity.
    + intros c Hc. simpl col_name.
      rewrite (label_in_int64_columns _ _ Hnd Hc).
      destruct (col_data c) as [cells|cells|cells|name cells];
        cbn [is_int64 median_imputed]; try reflexivity.
      cbn [col_data]. rewrite astype_int64_of_ints. reflexivity.
  - intros c Hc. pose proof (Hvalues c Hc) as Hv.
    destruct (col_data c) as [cells|cells|cells|name cells]; simpl in *;
      try reflexivity.
    + destruct (median_some (map (fun z => inject_Z (float64_of_Z z)) cells))
        as [m ->]; [|reflexivity].
      intros E. apply Hv; [reflexivity|]. apply map_eq_nil in E.
      rewrite E. reflexivity.
    + destruct (median_some (observed cells)) as [m ->]; auto.
Qed.


(** Distinct labels of a concrete frame. *)
Ltac solve_NoDup :=
  repeat (apply NoDup_cons_2;
          [rewrite list_elem_of_In; simpl; intuition discriminate|]);
  apply NoDup_nil_2.


(** ** Cleaner: the target column is required *)

Lemma get_column_missing name cols :
  ~ In name (map col_name cols) -> get_column name cols = Err (KeyError name).
Proof.
  induction cols as [|c cols IH]; simpl; [reflexivity|]. intros Hnot.
  destruct (String.eqb_spec (col_name c) name) as [E|_]; [tauto|].
  apply IH. tauto.
Qed.

Lemma get_column_ok_in name cols d :
  get_column name cols = Ok d -> In (Column name d) cols.
Proof.
  induction cols as [|c cols IH]; simpl; [discriminate|].
  destruct (String.eqb_spec (col_name c) name) as [E|_].
  - intros [= <-]. left. destruct c; simpl in *. congruence.
  - intros H. right. apply IH, H.
Qed.

Lemma fill_column_name names c c' :
  fill_column names c = Ok c' -> col_name c' = col_name c.
Proof.
  unfold fill_column.
  destruct (negb (String.eqb (col_name c) "CHURN")); [|congruence].
  destruct (1 <? count_label (col_name c) names)%nat; [discriminate|].
  destruct (is_categorical_dtype (col_data c)); intros [= <-]; reflexivity.
Qed.

Lemma fill_unknown_columns df df' :
  fill_unknown df = Ok df' -> columns df' = columns df.
Proof.
  unfold fill_unknown, columns.
  destruct (traverse (fill_column (map col_name (df_columns df)))
              (df_columns df)) as [cols|] eqn:Htr; [|discriminate].
  intros [= <-]. simpl. apply traverse_ok_Forall2 in Htr.
  induction Htr as [|c c' cs cs' Hc _ IH]; simpl; [reflexivity|].
  rewrite (fill_column_name _ _ _ Hc), IH. reflexivity.
Qed.

Lemma count_label_NoDup name names :
  NoDup names -> (count_label name names <= 1)%nat.
Proof.
  unfold count_label. induction 1 as [|x l Hx _ IH]; simpl; [lia|].
  destruct (String.eqb_spec name x) as [->|_]; [|exact IH]. simpl.
  assert (List.filter (String.eqb x) l = []) as ->; [|simpl; lia].
  clear IH. induction l as [|y l IHl]; simpl; [reflexivity|].
  destruct (String.eqb_spec x y) as [->|_].
  - exfalso. apply Hx. left.
  - apply IHl. intros H. apply Hx. right. exact H.
Qed.

Lemma fill_unknown_ok df :
  NoDup (columns df) -> exists df', fill_unknown df = Ok df'.
Proof.
  intros Hnd. unfold fill_unknown.
  assert (forall cols, exists cols',
             traverse (fill_column (columns df)) cols = Ok cols') as H.
  { induction cols as [|c cols [cols' IH]]; simpl; [eauto|].
    assert (exists c', fill_column (columns df) c = Ok c') as [c' ->].
    { unfold fill_column.
      destruct (negb (String.eqb (col_name c) "CHURN")); [|eauto].
      pose proof (count_label_NoDup (col_name c) _ Hnd) as Hle.
      apply Nat.ltb_ge in Hle. rewrite Hle.
      destruct (is_categorical_dtype (col_data c)); eauto. }
    rewrite IH. eauto. }
  destruct (H (df_columns df)) as [cols' ->]. eauto.
Qed.

(** C10: the cleaning succeeds only on a table that has, after the
    normalization of the names, a column named CHURN.  On a table without
    one the target step raises KeyError for 'CHURN' rather than passing over
    the absent column, so the cleaning fails, with that KeyError whenever
    the labels are distinct. *)
Theorem cleaning_requires_target :
  (forall (str_to_num : string -> option num) df df',
      clean str_to_num df = Ok df' ->
      exists df2, normalized df = Ok df2 /\ In "CHURN" (columns df2))
  /\ (forall (str_to_num : string -> option num) df df2,
        normalized df = Ok df2 ->
        ~ In "CHURN" (columns df2) ->
        (forall df3, fill_unknown df2 = Ok df3 ->
                     impute_target df3 = Err (KeyError "CHURN"))
        /\ (exists e, clean str_to_num df = Err e)
        /\ (NoDup (columns df2) ->
            clean str_to_num df = Err (KeyError "CHURN"))).
Proof.
  assert (forall df2 df3, ~ In "CHURN" (columns df2) ->
            fill_unknown df2 = Ok df3 ->
            impute_target df3 = Err (KeyError "CHURN")) as Hkey.
  { intros df2 df3 Hnot Hfill. unfold impute_target.
    rewrite get_column_missing; [reflexivity|].
    fold (columns df3). rewrite (fill_unknown_columns _ _ Hfill). exact Hnot. }
  assert (forall str_to_num df df2, normalized df = Ok df2 ->
            clean str_to_num df
            = match fill_unknown df2 with
              | Ok df3 =>
                  match impute_target df3 with
                  | Ok df4 => impute_and_cast (reinfer_numeric str_to_num df4)
                  | Err e => Err e
                  end
              | Err e => Err e
              end) as Hclean.
  { intros str_to_num df df2. unfold normalized, clean, mbind, result_bind.
    destruct (promote_identifier df) as [df1|]; [|discriminate].
    intros ->. reflexivity. }
  split.
  - intros str_to_num df df' Hok.
    destruct (normalized df) as [df2|e] eqn:Hnorm.
    + exists df2. split; [reflexivity|].
      destruct (in_dec string_dec "CHURN" (columns df2)) as [Hin|Hnot];
        [exact Hin|].
      rewrite (Hclean _ _ _ Hnorm) in Hok.
      destruct (fill_unknown df2) as [df3|] eqn:Hfill; [|discriminate].
      rewrite (Hkey _ _ Hnot Hfill) in Hok. discriminate.
    + exfalso. revert Hok Hnorm.
      unfold normalized, clean, mbind, result_bind.
      destruct (promote_identifier df) as [df1|]; [|discriminate].
      destruct (normalize_columns df1); [discriminate|discriminate].
  - intros str_to_num df df2 Hnorm Hnot. split; [|split].
    + intros df3. apply Hkey, Hnot.
    + rewrite (Hclean _ _ _ Hnorm).
      destruct (fill_unknown df2) as [df3|e] eqn:Hfill; [|eauto].
      rewrite (Hkey _ _ Hnot Hfill). eauto.
    + intros Hnd. rewrite (Hclean _ _ _ Hnorm).
      destruct (fill_unknown_ok df2 Hnd) as [df3 Hfill].
      rewrite Hfill, (Hkey _ _ Hnot Hfill). reflexivity.
Qed.

Lemma cleaning_requires_target_witness :
  normalized no_target_example
  = Ok (Frame (Some "user_id") (ObjectCol [Some "a1"; Some "b7"])
          [Column "Region" (ObjectCol [Some "DAKAR"; None]);
           Column "MONTANT" (Float64Col [Some 10%Q; Some 30%Q])])
  /\ (exists e, clean no_numbers no_target_example = Err e)
  /\ clean no_numbers no_target_example = Err (KeyError "CHURN").
Proof.
  split; [reflexivity|].
  destruct (proj2 cleaning_requires_target no_numbers no_target_example
              (Frame (Some "user_id") (ObjectCol [Some "a1"; Some "b7"])
                 [Column "Region" (ObjectCol [Some "DAKAR"; None]);
                  Column "MONTANT" (Float64Col [Some 10%Q; Some 30%Q])]))
    as (_ & Herr & Hkey).
  - reflexivity.
  - simpl. intros [H|[H|[]]]; discriminate.
  - split; [exact Herr|]. apply Hkey. solve_NoDup.
Defined.

(** ** FilterEngine *)

Lemma select_nil_r {A} (m : list bool) : select m (@nil A) = [].
Proof. destruct m as [|[] m]; reflexivity. Qed.

Lemma select_map {A B} (f : A -> B) m (xs : list A) :
  select m (map f xs) = map f (select m xs).
Proof.
  revert xs. induction m as [|b m IH]; intros [|x xs]; simpl; try reflexivity.
  destruct b; simpl; rewrite IH; reflexivity.
Qed.

(** Selecting twice is selecting by the conjunction of the masks. *)
Lemma select_select {A} (m1 m2 : list bool) (xs : list A) :
  select (select m1 m2) (select m1 xs) = select (and_mask m1 m2) xs.
Proof.
  revert m2 xs. induction m1 as [|b1 m1 IH]; intros m2 xs; [reflexivity|].
  destruct m2 as [|b2 m2]; [reflexivity|].
  destruct xs as [|x xs].
  - simpl. rewrite !select_nil_r. reflexivity.
  - destruct b1, b2; simpl; rewrite IH; reflexivity.
Qed.

Lemma and_mask_comm m1 m2 : and_mask m1 m2 = and_mask m2 m1.
Proof.
  revert m2. induction m1 as [|b1 m1 IH]; intros [|b2 m2]; simpl;
    try reflexivity.
  rewrite IH, andb_comm. reflexivity.
Qed.

Lemma and_mask_assoc m1 m2 m3 :
  and_mask m1 (and_mask m2 m3) = and_mask (and_mask m1 m2) m3.
Proof.
  revert m2 m3. induction m1 as [|b1 m1 IH]; intros [|b2 m2] [|b3 m3]; simpl;
    try reflexivity.
  rewrite IH, andb_assoc. reflexivity.
Qed.

Lemma select_col_select m1 m2 d :
  select_col (select m1 m2) (select_col m1 d) = select_col (and_mask m1 m2) d.
Proof. destruct d; simpl; rewrite select_select; reflexivity. Qed.

Lemma select_rows_select_rows m1 m2 df :
  select_rows (select m1 m2) (select_rows m1 df)
  = select_rows (and_mask m1 m2) df.
Proof.
  unfold select_rows. simpl. rewrite select_col_select, map_map. f_equal.
  apply map_ext. intros c. simpl. rewrite select_col_select. reflexivity.
Qed.

Lemma eq_mask_select m d v :
  eq_mask (select_col m d) v = select m (eq_mask d v).
Proof.
  unfold eq_mask. destruct d; simpl; rewrite <- !select_map; reflexivity.
Qed.

Lemma range_mask_select m d lo hi :
  range_mask (select_col m d) lo hi
  = match range_mask d lo hi with
    | Ok mask => Ok (select m mask)
    | Err e => Err e
    end.
Proof. destruct d; simpl; rewrite <- ?select_map; reflexivity. Qed.

Lemma get_column_select_rows name m df :
  get_column name (df_columns (select_rows m df))
  = match get_column name (df_columns df) with
    | Ok d => Ok (select_col m d)
    | Err e => Err e
    end.
Proof.
  unfold select_rows. simpl.
  induction (df_columns df) as [|c cols IH]; simpl; [reflexivity|].
  destruct (String.eqb (col_name c) name); [reflexivity | exact IH].
Qed.

(** The mask of a clause on selected rows is the selection of its mask. *)
Lemma clause_mask_select_rows m df c :
  clause_mask (select_rows m df) c
  = match clause_mask df c with
    | Ok mask => Ok (select m mask)
    | Err e => Err e
    end.
Proof.
  destruct c as [column value|value|column lo hi]; unfold clause_mask.
  - rewrite get_column_select_rows.
    destruct (get_column column (df_columns df)); [|reflexivity].
    rewrite eq_mask_select. reflexivity.
  - change (df_index (select_rows m df)) with (select_col m (df_index df)).
    rewrite eq_mask_select. reflexivity.
  - rewrite get_column_select_rows.
    destruct (get_column column (df_columns df)); [|reflexivity].
    apply range_mask_select.
Qed.

Lemma apply_clauses_select_rows m df cs :
  apply_clauses (select_rows m df) cs
  = match traverse (clause_mask df) cs with
    | Ok ms => Ok (select_rows (narrow m ms) df)
    | Err e => Err e
    end.
Proof.
  revert m. induction cs as [|c cs IH]; intros m; [reflexivity|].
  simpl. unfold apply_clause. rewrite clause_mask_select_rows.
  destruct (clause_mask df c) as [mc|]; [|reflexivity].
  rewrite select_rows_select_rows, IH.
  destruct (traverse (clause_mask df) cs) as [ms|]; [|reflexivity].
  unfold narrow. simpl. destruct (and_masks ms); [|reflexivity].
  rewrite and_mask_assoc. reflexivity.
Qed.

(** Applying the clauses one after the other keeps the rows that satisfy
    all of them. *)
Lemma apply_clauses_satisfying df cs :
  apply_clauses df cs = satisfying_rows df cs.
Proof.
  unfold satisfying_rows. destruct cs as [|c cs]; [reflexivity|].
  simpl. unfold apply_clause.
  destruct (clause_mask df c) as [mc|]; [|reflexivity].
  rewrite apply_clauses_select_rows.
  destruct (traverse (clause_mask df) cs) as [ms|]; [|reflexivity].
  unfold narrow. cbn [and_masks]. destruct (and_masks ms); reflexivity.
Qed.

Lemma apply_sliders_clauses fd slider_values :
  apply_sliders fd slider_values
  = apply_clauses fd
      (map (fun s => NumericalRange s.1 s.2.1 s.2.2) slider_values).
Proof.
  revert fd. induction slider_values as [|[column [lo hi]] rest IH]; intros fd;
    [reflexivity|].
  simpl. unfold apply_slider, apply_clause. simpl.
  destruct (get_column column (df_columns fd)) as [d|]; [|reflexivity].
  destruct (range_mask d lo hi); [apply IH | reflexivity].
Qed.

(** The code's filter keeps the rows that satisfy the present clauses. *)
Lemma filtered_data_satisfying df selected_column selected_value
    selected_customer_id slider_values :
  filtered_data df selected_column selected_value selected_customer_id
    slider_values
  = satisfying_rows df
      (present_clauses selected_column selected_value selected_customer_id
         slider_values).
Proof.
  unfold filtered_data, present_clauses, satisfying_rows.
  destruct (is_blank selected_value), (is_blank selected_customer_id); simpl.
  - rewrite apply_sliders_clauses. apply apply_clauses_satisfying.
  - rewrite apply_sliders_clauses, apply_clauses_select_rows.
    destruct (traverse _ _) as [ms|]; [|reflexivity].
    unfold narrow. cbn [and_masks]. destruct (and_masks ms); reflexivity.
  - destruct (get_column selected_column (df_columns df)) as [d|]; [|reflexivity].
    rewrite apply_sliders_clauses, apply_clauses_select_rows.
    destruct (traverse _ _) as [ms|]; [|reflexivity].
    unfold narrow. cbn [and_masks]. destruct (and_masks ms); reflexivity.
  - destruct (get_column selected_column (df_columns df)) as [d|]; [|reflexivity].
    rewrite apply_sliders_clauses, apply_clauses_select_rows.
    destruct (traverse _ _) as [ms|]; [|reflexivity].
    unfold narrow. cbn [and_masks]. destruct (and_masks ms); [|reflexivity].
    rewrite and_mask_assoc. reflexivity.
Qed.

Lemma and_masks_Permutation ms ms' :
  Permutation ms ms' -> and_masks ms = and_masks ms'.
Proof.
  induction 1 as [|m l l' _ IH|x y l|l l' l'' _ IH1 _ IH2]; simpl.
  - reflexivity.
  - rewrite IH. reflexivity.
  - destruct (and_masks l) as [r|].
    + rewrite !and_mask_assoc, (and_mask_comm y x). reflexivity.
    + rewrite and_mask_comm. reflexivity.
  - congruence.
Qed.

Lemma traverse_Permutation {A B} (f : A -> result B) xs ys bs :
  Permutation xs ys -> traverse f xs = Ok bs ->
  exists bs', traverse f ys = Ok bs' /\ Permutation bs bs'.
Proof.
  intros HP. revert bs.
  induction HP as [|x l l' _ IH|x y l|l l' l'' _ IH1 _ IH2]; intros bs; simpl.
  - intros [= <-]. eauto.
  - destruct (f x) as [b|]; [|discriminate].
    destruct (traverse f l) as [bl|]; [|discriminate]. intros [= <-].
    destruct (IH bl eq_refl) as (bl' & -> & HP'). eauto.
  - destruct (f y) as [b|]; [|discriminate].
    destruct (f x) as [a|]; [|discriminate].
    destruct (traverse f l) as [bl|]; [|discriminate]. intros [= <-].
    eexists. split; [reflexivity|]. apply perm_swap.
  - intros H. destruct (IH1 _ H) as (b1 & H1 & HP1).
    destruct (IH2 _ H1) as (b2 & H2 & HP2).
    exists b2. split; [exact H2|]. etransitivity; eassumption.
Qed.

Lemma clause_ok_mask df c :
  clause_ok df c = true -> exists m, clause_mask df c = Ok m.
Proof.
  destruct c as [column value|value|column lo hi]; simpl.
  - destruct (get_column column (df_columns df)); [eauto|discriminate].
  - eauto.
  - destruct (get_column column (df_columns df)) as [d|]; [|discriminate].
    destruct d; simpl; try discriminate; eauto.
Qed.

Lemma clauses_ok_masks df cs :
  Forall (fun c => clause_ok df c = true) cs ->
  exists ms, traverse (clause_mask df) cs = Ok ms.
Proof.
  induction 1 as [|c cs Hc _ [ms IH]]; simpl; [eauto|].
  destruct (clause_ok_mask df c Hc) as [m ->]. rewrite IH. eauto.
Qed.

(** *** The rows of the filtered table *)

Lemma cells_of_length d : length (cells_of d) = col_length d.
Proof. destruct d; simpl; rewrite ?length_map; reflexivity. Qed.

Lemma cells_of_select m d : cells_of (select_col m d) = select m (cells_of d).
Proof. destruct d; simpl; rewrite select_map; reflexivity. Qed.

Lemma select_filter {A} (f : A -> bool) (xs : list A) :
  select (map f xs) xs = List.filter f xs.
Proof.
  induction xs as [|x xs IH]; simpl; [reflexivity|].
  rewrite IH. reflexivity.
Qed.

Lemma and_mask_map {A} (f g : A -> bool) (xs : list A) :
  and_mask (map f xs) (map g xs) = map (fun x => f x && g x) xs.
Proof.
  induction xs as [|x xs IH]; simpl; [reflexivity|]. rewrite IH. reflexivity.
Qed.

(** Selecting the cells of the index and of every column selects the
    rows. *)
Lemma zip_rows_select m ids cols :
  (forall c, In c cols -> length c.2 = length ids) ->
  zip_rows (select m ids) (map (fun c => (c.1, select m c.2)) cols)
  = select m (zip_rows ids cols).
Proof.
  revert ids cols. induction m as [|b m IH]; intros ids cols Hlen.
  - reflexivity.
  - destruct ids as [|id ids]; [reflexivity|].
    assert (forall c, In c (map (fun c => (c.1, tail c.2)) cols) ->
                      length c.2 = length ids) as Hlen'.
    { intros c' (c & <- & Hc)%in_map_iff. simpl.
      specialize (Hlen c Hc). destruct (c.2); simpl in *; lia. }
    destruct b.
    + cbn [select zip_rows]. rewrite !map_map. cbn [fst snd]. f_equal.
      * f_equal. apply map_ext_in. intros c Hc.
        specialize (Hlen c Hc). destruct (c.2); [discriminate | reflexivity].
      * rewrite <- (IH ids _ Hlen'). f_equal.
        rewrite map_map. apply map_ext_in. intros c Hc. simpl.
        specialize (Hlen c Hc). destruct (c.2); [discriminate | reflexivity].
    + cbn [select zip_rows]. rewrite <- (IH ids _ Hlen'). f_equal.
      rewrite map_map. apply map_ext_in. intros c Hc. simpl.
      specialize (Hlen c Hc). destruct (c.2); [discriminate | reflexivity].
Qed.

Lemma labelled_cells_length df c :
  uniform_rows df -> In c (labelled_cells df) ->
  length c.2 = length (cells_of (df_index df)).
Proof.
  unfold uniform_rows, labelled_cells. rewrite Forall_forall.
  intros Hu (col & <- & Hcol)%in_map_iff. simpl.
  rewrite !cells_of_length. apply Hu, list_elem_of_In, Hcol.
Qed.

(** The rows of the selection are the selected rows. *)
Lemma rows_of_select_rows m df :
  uniform_rows df -> rows_of (select_rows m df) = select m (rows_of df).
Proof.
  intros Hu. unfold rows_of. rewrite <- zip_rows_select.
  - unfold labelled_cells, select_rows. simpl. rewrite cells_of_select.
    rewrite !map_map. simpl. f_equal. apply map_ext. intros c.
    rewrite cells_of_select. reflexivity.
  - intros c. apply labelled_cells_length, Hu.
Qed.

Lemma zip_rows_ids ids cols : map row_id (zip_rows ids cols) = ids.
Proof.
  revert cols. induction ids as [|id ids IH]; intros cols; simpl;
    [reflexivity|]. rewrite IH. reflexivity.
Qed.

Lemma under_label_map {A B} (f : A -> B) column (cells : list (string * A)) :
  under_label column (map (fun c => (c.1, f c.2)) cells)
  = f <$> under_label column cells.
Proof.
  induction cells as [|[name v] cells IH]; simpl; [reflexivity|].
  destruct (String.eqb name column); [reflexivity | exact IH].
Qed.

Lemma under_label_In {A} column (cells : list (string * A)) v :
  under_label column cells = Some v -> In (column, v) cells.
Proof.
  induction cells as [|[name x] cells IH]; simpl; [discriminate|].
  destruct (String.eqb_spec name column) as [->|_].
  - intros [= ->]. left. reflexivity.
  - intros H. right. apply IH, H.
Qed.

(** The cells of the rows under a label are the cells of the column. *)
Lemma zip_rows_column column ids cols cells :
  (forall c, In c cols -> length c.2 = length ids) ->
  under_label column cols = Some cells ->
  map (fun r => under_label column (row_cells r)) (zip_rows ids cols)
  = map Some cells.
Proof.
  revert cols cells. induction ids as [|id ids IH]; intros cols cells Hlen Hc.
  - pose proof (Hlen _ (under_label_In _ _ _ Hc)) as Hl. simpl in Hl.
    destruct cells; [reflexivity | discriminate].
  - pose proof (Hlen _ (under_label_In _ _ _ Hc)) as Hl. simpl in Hl.
    destruct cells as [|x xs]; [discriminate|]. simpl.
    rewrite under_label_map, Hc. simpl. f_equal.
    apply IH.
    + intros c' (c & <- & Hin)%in_map_iff. simpl.
      specialize (Hlen c Hin). destruct (c.2); simpl in *; lia.
    + rewrite under_label_map, Hc. reflexivity.
Qed.

Lemma get_column_under_label column df d :
  get_column column (df_columns df) = Ok d ->
  under_label column (labelled_cells df) = Some (cells_of d).
Proof.
  unfold labelled_cells.
  induction (df_columns df) as [|c cols IH]; simpl; [discriminate|].
  destruct (String.eqb (col_name c) column); [|exact IH].
  intros [= <-]. reflexivity.
Qed.

Lemma range_mask_cells d lo hi m :
  range_mask d lo hi = Ok m -> m = map (in_range lo hi) (cells_of d).
Proof.
  destruct d as [cells|cells|cells|dn cells]; simpl; try discriminate;
    intros [= <-]; rewrite map_map; apply map_ext; intros c;
    [reflexivity | destruct c; reflexivity].
Qed.

(** The mask of a clause says of each row whether it satisfies the
    clause. *)
Lemma clause_mask_rows df c m :
  uniform_rows df -> clause_mask df c = Ok m ->
  m = map (fun r => row_satisfies r c) (rows_of df).
Proof.
  intros Hu. unfold rows_of.
  pose proof (fun x => labelled_cells_length df x Hu) as Hlen.
  destruct c as [column value|value|column lo hi]; simpl.
  - destruct (get_column column (df_columns df)) as [d|] eqn:Hget;
      [|discriminate].
    intros [= <-]. apply get_column_under_label in Hget.
    rewrite <- (map_map (fun r => under_label column (row_cells r))
                  (fun o => match o with
                            | Some cell => equals value cell
                            | None => false
                            end)).
    rewrite (zip_rows_column _ _ _ _ Hlen Hget), map_map. reflexivity.
  - intros [= <-].
    rewrite <- (map_map row_id (equals value)), zip_rows_ids. reflexivity.
  - destruct (get_column column (df_columns df)) as [d|] eqn:Hget;
      [|discriminate].
    intros ->%range_mask_cells. apply get_column_under_label in Hget.
    rewrite <- (map_map (fun r => under_label column (row_cells r))
                  (fun o => match o with
                            | Some cell => in_range lo hi cell
                            | None => false
                            end)).
    rewrite (zip_rows_column _ _ _ _ Hlen Hget), map_map. reflexivity.
Qed.

(** The conjunction of the masks says of each row whether it satisfies
    every clause. *)
Lemma and_masks_rows df cs ms :
  uniform_rows df -> traverse (clause_mask df) cs = Ok ms ->
  match and_masks ms with
  | Some m => m = map (fun r => forallb (row_satisfies r) cs) (rows_of df)
  | None => cs = []
  end.
Proof.
  intros Hu H. apply traverse_ok_Forall2 in H.
  induction H as [|c m cs ms Hc _ IH]; [reflexivity|].
  apply (clause_mask_rows df c m Hu) in Hc. cbn [and_masks forallb].
  destruct (and_masks ms) as [r|].
  - rewrite Hc, IH. apply and_mask_map.
  - rewrite IH, Hc. apply map_ext. intros r. simpl.
    rewrite andb_true_r. reflexivity.
Qed.

Lemma filter_all {A} (xs : list A) : List.filter (fun _ => true) xs = xs.
Proof. induction xs as [|x xs IH]; simpl; [|rewrite IH]; reflexivity. Qed.

(** On a table with a cell for every row, the rows kept are the rows that
    satisfy every clause. *)
Lemma satisfying_rows_rows df cs fd :
  uniform_rows df -> satisfying_rows df cs = Ok fd ->
  rows_of fd = rows_satisfying cs (rows_of df).
Proof.
  intros Hu. unfold satisfying_rows, rows_satisfying.
  destruct (traverse (clause_mask df) cs) as [ms|] eqn:Hms; [|discriminate].
  pose proof (and_masks_rows df cs ms Hu Hms) as Hm.
  destruct (and_masks ms) as [m|]; intros [= <-].
  - rewrite (rows_of_select_rows m df Hu), Hm. apply select_filter.
  - rewrite Hm. simpl. symmetry. apply filter_all.
Qed.

Lemma satisfying_rows_columns df cs fd :
  satisfying_rows df cs = Ok fd -> columns fd = columns df.
Proof.
  unfold satisfying_rows.
  destruct (traverse (clause_mask df) cs) as [ms|]; [|discriminate].
  destruct (and_masks ms) as [m|]; intros [= <-]; [|reflexivity].
  unfold columns, select_rows. simpl. rewrite map_map. reflexivity.
Qed.

(** C7: for a predicate set whose clauses fit the table (the selected
    categorical column is there, every slider names a numerical column),
    the filter of the page and the application of the present clauses one
    at a time, in any order, give the same table.  It has the columns of
    the table, and on a table with a cell for every row its rows are, in
    the order of the table, the rows that satisfy every present clause: the
    row's cell under the selected column equals the selected value, its
    index label equals the selected identifier, and its cell under each
    slider's column lies within the slider's bounds. *)
Theorem filter_order_irrelevant df selected_column selected_value
    selected_customer_id slider_values cs :
  Forall (fun c => clause_ok df c = true)
    (present_clauses selected_column selected_value selected_customer_id
       slider_values) ->
  Permutation
    (present_clauses selected_column selected_value selected_customer_id
       slider_values) cs ->
  exists fd,
    filtered_data df selected_column selected_value selected_customer_id
      slider_values = Ok fd
    /\ apply_clauses df cs = Ok fd
    /\ satisfying_rows df
         (present_clauses selected_column selected_value selected_customer_id
            slider_values) = Ok fd
    /\ columns fd = columns df
    /\ (uniform_rows df ->
        rows_of fd
        = rows_satisfying
            (present_clauses selected_column selected_value
               selected_customer_id slider_values)
            (rows_of df)).
Proof.
  intros Hok HP.
  assert (exists fd,
             satisfying_rows df
               (present_clauses selected_column selected_value
                  selected_customer_id slider_values) = Ok fd
             /\ satisfying_rows df cs = Ok fd) as (fd & Hfd & Hcs).
  { unfold satisfying_rows.
    destruct (clauses_ok_masks df _ Hok) as [ms Hms]. rewrite Hms.
    destruct (traverse_Permutation _ _ _ _ HP Hms) as (ms' & -> & HP').
    rewrite <- (and_masks_Permutation _ _ HP').
    destruct (and_masks ms); eauto. }
  exists fd. rewrite filtered_data_satisfying, apply_clauses_satisfying.
  split; [exact Hfd|]. split; [exact Hcs|]. split; [exact Hfd|].
  split; [exact (satisfying_rows_columns _ _ _ Hfd)|].
  intros Hu. exact (satisfying_rows_rows _ _ _ Hu Hfd).
Qed.

Lemma filter_order_irrelevant_witness :
  exists fd,
    filtered_data cleaned_example "REGION" (SStr "DAKAR") (SStr "")
      [("MONTANT", (10%Q, 25%Q))] = Ok fd
    /\ apply_clauses cleaned_example
         [NumericalRange "MONTANT" 10%Q 25%Q;
          CategoricalEq "REGION" (SStr "DAKAR")] = Ok fd
    /\ satisfying_rows cleaned_example
         [CategoricalEq "REGION" (SStr "DAKAR");
          NumericalRange "MONTANT" 10%Q 25%Q] = Ok fd
    /\ columns fd = columns cleaned_example
    /\ rows_of fd
       = rows_satisfying
           [CategoricalEq "REGION" (SStr "DAKAR");
            NumericalRange "MONTANT" 10%Q 25%Q]
           (rows_of cleaned_example).
Proof.
  destruct (filter_order_irrelevant cleaned_example "REGION" (SStr "DAKAR")
              (SStr "") [("MONTANT", (10%Q, 25%Q))]
              [NumericalRange "MONTANT" 10%Q 25%Q;
               CategoricalEq "REGION" (SStr "DAKAR")])
    as (fd & H1 & H2 & H3 & H4 & H5).
  - repeat constructor.
  - apply perm_swap.
  - exists fd. split; [exact H1|]. split; [exact H2|]. split; [exact H3|].
    split; [exact H4|]. apply H5. repeat constructor.
Defined.

(** ** Summarizer *)

(** Without any value in its object columns, a frame has no first row of
    modes. *)
Lemma mode_first_row_no_values obj :
  Forall (fun c => text_values (col_data c) = []) obj ->
  mode_first_row obj = Err IndexError.
Proof.
  intros H. unfold mode_first_row.
  assert (forallb (fun t : option string =>
                     match t with None => true | Some _ => false end)
            (map (fun c => most_frequent String.eqb String.leb
                             (text_values (col_data c))) obj) = true) as ->;
    [|reflexivity].
  induction H as [|c obj Hc _ IH]; simpl; [reflexivity|].
  rewrite Hc, IH. reflexivity.
Qed.

(** C4, at a filter without matching rows: selecting REGION = DAKAR with the
    MONTANT slider at [30, 30] leaves no row of the three; the numerical
    statistics of that view are reported as NaN, and the categorical
    summary raises IndexError at [mode().iloc[0]]. *)
Theorem summarize_no_rows_raises :
  filtered_data cleaned_example "REGION" (SStr "DAKAR") (SStr "")
    [("MONTANT", (30%Q, 30%Q))] = Ok no_rows_example
  /\ describe no_rows_example
     = Ok (NumericDescription
             [NumericSummary "MONTANT" 0 None None None None None None;
              NumericSummary "CHURN" 0 None None None None None None])
  /\ categorical_summary no_rows_example = Err IndexError
  /\ summarize no_rows_example = Err IndexError.
Proof. repeat split; reflexivity. Qed.

(** ** Cleaner: a cleaned table is a fixed point *)

Lemma fill_missing_no_nan {A} (m : A) cells :
  no_nan cells -> fill_missing m cells = cells.
Proof.
  unfold fill_missing. induction 1 as [|c cells Hc _ IH]; simpl; [reflexivity|].
  rewrite IH. destruct c; [reflexivity | congruence].
Qed.

Lemma fill_missing_is_no_nan {A} (m : A) cells : no_nan (fill_missing m cells).
Proof.
  unfold no_nan, fill_missing. apply Forall_map, Forall_forall.
  intros [x|] _; discriminate.
Qed.

Lemma observed_no_nan {A} (cells : list (option A)) :
  no_nan cells -> cells <> [] -> observed cells <> [].
Proof.
  intros Hn Hne. destruct Hn as [|[x|] cells Hc _]; [congruence| |congruence].
  unfold observed. cbn [omap list_omap]. discriminate.
Qed.

Lemma count_label_absent name names :
  ~ In name names -> count_label name names = 0%nat.
Proof.
  unfold count_label. induction names as [|x names IH]; simpl; [reflexivity|].
  intros Hnot. destruct (String.eqb_spec name x) as [->|_]; [tauto|].
  apply IH. tauto.
Qed.

Lemma name_normalized_not_user_id names :
  Forall name_normalized names -> ~ In "user_id" names.
Proof.
  intros H Hin. rewrite Forall_forall in H.
  destruct (H _ (proj2 (list_elem_of_In _ _) Hin)) as (c & rest & [= <- _] & Hc).
  discriminate.
Qed.








(** ** Cleaner: what each step establishes *)

Lemma normalize_columns_names df df' :
  normalize_columns df = Ok df' -> Forall name_normalized (columns df').
Proof.
  unfold normalize_columns.
  destruct (traverse _ (df_columns df)) as [cols|] eqn:Htr; [|discriminate].
  intros [= <-]. unfold columns. simpl. apply traverse_ok_Forall2 in Htr.
  induction Htr as [|c c' cs cs' Hc _ IH]; simpl; constructor; [|exact IH].
  destruct (normalize_name (col_name c)) as [n|] eqn:Hn; [|discriminate].
  injection Hc as <-. simpl. exact (normalize_name_head _ _ Hn).
Qed.

(** A column that passed the loop of lines 337-342: its label is not
    duplicated, and its text has no NaN left. *)
Lemma fill_column_spec names c c' :
  fill_column names c = Ok c' ->
  col_name c' = col_name c
  /\ (col_name c <> "CHURN" ->
      (count_label (col_name c) names <= 1)%nat
      /\ forall cells, col_data c' = ObjectCol cells -> no_nan cells).
Proof.
  unfold fill_column.
  destruct (String.eqb_spec (col_name c) "CHURN") as [E|Hne]; simpl.
  - intros [= <-]. split; [reflexivity | congruence].
  - destruct (1 <? count_label (col_name c) names)%nat eqn:Hcount;
      [discriminate|].
    apply Nat.ltb_ge in Hcount.
    destruct (is_categorical_dtype (col_data c)) eqn:Hcat; intros [= <-];
      (split; [reflexivity|]); intros _; (split; [exact Hcount|]).
    + simpl. intros cells Hcells.
      destruct (col_data c) as [cs|cs|cs|dn cs]; simpl in Hcells;
        try discriminate.
      injection Hcells as <-. unfold no_nan. apply Forall_map, Forall_forall.
      intros [s|] _; discriminate.
    + intros cells Hcells. rewrite Hcells in Hcat. discriminate.
Qed.

Lemma count_labels_NoDup names :
  (forall name, In name names -> (count_label name names <= 1)%nat) ->
  NoDup names.
Proof.
  induction names as [|x names IH]; intros H; [apply NoDup_nil_2|].
  apply NoDup_cons_2.
  - intros Hin%list_elem_of_In.
    specialize (H x (or_introl eq_refl)). unfold count_label in H.
    simpl in H. rewrite String.eqb_refl in H. simpl in H.
    assert (0 < length (List.filter (String.eqb x) names))%nat; [|lia].
    clear -Hin. induction names as [|y names IH]; simpl; [destruct Hin|].
    destruct (String.eqb_spec x y) as [->|Hne]; simpl; [lia|].
    apply IH. destruct Hin; congruence.
  - apply IH. intros name Hin. specialize (H name (or_intror Hin)).
    unfold count_label in *. simpl in H.
    destruct (String.eqb name x); simpl in H; lia.
Qed.

Lemma set_column_names name d cols :
  map col_name (set_column name d cols) = map col_name cols.
Proof.
  unfold set_column. rewrite map_map. apply map_ext. intros c.
  destruct (String.eqb_spec (col_name c) name) as [E|_]; simpl; congruence.
Qed.

Lemma get_column_set_column name d d0 cols :
  get_column name cols = Ok d0 ->
  get_column name (set_column name d cols) = Ok d.
Proof.
  unfold set_column. induction cols as [|c cols IH]; simpl; [discriminate|].
  destruct (String.eqb_spec (col_name c) name) as [E|Hne]; simpl.
  - rewrite String.eqb_refl. reflexivity.
  - destruct (String.eqb_spec (col_name c) name); [contradiction|]. exact IH.
Qed.

Lemma get_column_map name (f : coldata -> coldata) cols :
  get_column name (map (fun c => Column (col_name c) (f (col_data c))) cols)
  = match get_column name cols with
    | Ok d => Ok (f d)
    | Err e => Err e
    end.
Proof.
  induction cols as [|c cols IH]; simpl; [reflexivity|].
  destruct (String.eqb (col_name c) name); [reflexivity | exact IH].
Qed.

Lemma float_target_fixed cells :
  no_nan cells -> cells <> [] ->
  impute_most_frequent (replace_unknown_nan (Float64Col cells))
  = Ok (Float64Col cells).
Proof.
  intros Hn Hne. simpl.
  destruct (most_frequent_some Qeq_bool Qle_bool (observed cells)) as [m ->].
  { apply observed_no_nan; assumption. }
  rewrite fill_missing_no_nan by exact Hn. reflexivity.
Qed.

Lemma int_target_fixed cells :
  cells <> [] ->
  impute_most_frequent (replace_unknown_nan (Int64Col cells))
  = Ok (Int64Col cells).
Proof. intros Hne. simpl. destruct cells; [congruence | reflexivity]. Qed.

(** The imputed target is a fixed point of the target step, has no NaN and
    has rows. *)
Lemma impute_most_frequent_idem d d' :
  impute_most_frequent (replace_unknown_nan d) = Ok d' ->
  impute_most_frequent (replace_unknown_nan d') = Ok d'
  /\ match d' with
     | ObjectCol cells => no_nan cells
     | Float64Col cells => no_nan cells /\ cells <> []
     | Int64Col cells => cells <> []
     | OtherCol _ _ => False
     end.
Proof.
  destruct d as [cells|cells|cells|dn cells]; simpl; [| | |discriminate].
  - set (repl := fun c : option string =>
                   match c with
                   | Some s => if String.eqb s "Unknown" then None else Some s
                   | None => None
                   end).
    destruct (most_frequent String.eqb String.leb (observed (map repl cells)))
      as [m|] eqn:Hm; [|discriminate].
    intros [= <-]. split; [|apply fill_missing_is_no_nan].
    assert (String.eqb m "Unknown" = false) as Hmu.
    { apply most_frequent_spec in Hm as [Hin _].
      unfold observed in Hin. apply list_elem_of_In in Hin.
      apply list_elem_of_omap in Hin as (c & Hc & Hcm). subst c.
      apply list_elem_of_fmap in Hc as ([s|] & Hs & _); simpl in Hs;
        [|discriminate].
      destruct (String.eqb s "Unknown") eqn:E; [discriminate|].
      injection Hs as ->. exact E. }
    assert (map repl (fill_missing m (map repl cells))
            = fill_missing m (map repl cells)) as Hrepl.
    { unfold fill_missing. rewrite !map_map. apply map_ext.
      intros [s|]; simpl; [|rewrite Hmu; reflexivity].
      destruct (String.eqb s "Unknown") eqn:E; simpl; rewrite ?Hmu, ?E;
        reflexivity. }
    simpl. fold repl. rewrite Hrepl.
    destruct (most_frequent_some String.eqb String.leb
                (observed (fill_missing m (map repl cells)))) as [m' ->].
    { apply observed_no_nan; [apply fill_missing_is_no_nan|].
      intros E. apply map_eq_nil in E. apply map_eq_nil in E. subst cells.
      discriminate. }
    rewrite fill_missing_no_nan by apply fill_missing_is_no_nan. reflexivity.
  - destruct cells as [|z cells]; [discriminate|]. intros [= <-].
    split; [reflexivity | discriminate].
  - destruct (most_frequent Qeq_bool Qle_bool (observed cells)) as [m|] eqn:Hm;
      [|discriminate].
    intros [= <-].
    assert (fill_missing m cells <> []) as Hne.
    { intros E. apply map_eq_nil in E. subst cells. discriminate. }
    split; [|split; [apply fill_missing_is_no_nan | exact Hne]].
    apply float_target_fixed; [apply fill_missing_is_no_nan | exact Hne].
Qed.

Lemma median_nil : median [] = None.
Proof. reflexivity. Qed.

(** The two last steps succeed only on a frame with a numerical column,
    every numerical column having a value. *)
Lemma impute_and_cast_ok_inv df df' :
  impute_and_cast df = Ok df' ->
  (exists c, In c (df_columns df) /\ is_numerical (col_data c) = true)
  /\ (forall c, In c (df_columns df) -> is_numerical (col_data c) = true ->
                numeric_values (col_data c) <> []).
Proof.
  unfold impute_and_cast, impute_numerical.
  destruct (List.filter (fun c => is_numerical (col_data c)) (df_columns df))
    as [|c0 rest] eqn:Hfilter; [discriminate|].
  destruct (traverse _ (df_columns df)) as [cols|] eqn:Htr; [|discriminate].
  intros _. split.
  - exists c0.
    apply (proj1 (filter_In (fun c => is_numerical (col_data c)) c0
                    (df_columns df))).
    rewrite Hfilter. left. reflexivity.
  - apply traverse_ok_Forall2 in Htr. intros c Hc Hnum.
    assert (exists c1, match impute_median (col_data c) with
                       | Ok d => Ok (Column (col_name c) d)
                       | Err e => Err e
                       end = Ok c1) as [c1 Hc1].
    { clear -Htr Hc. induction Htr as [|x y xs ys Hxy _ IH]; [destruct Hc|].
      destruct Hc as [->|Hc]; [eauto | apply IH, Hc]. }
    destruct (col_data c) as [cells|cells|cells|dn cells]; simpl in *;
      try discriminate.
    + intros E. apply map_eq_nil in E. subst cells. discriminate.
    + intros E. rewrite E in Hc1. discriminate.
Qed.

Lemma fill_unknown_spec df df' :
  fill_unknown df = Ok df' ->
  Forall (fun c' =>
            col_name c' <> "CHURN" ->
            (count_label (col_name c') (columns df') <= 1)%nat
            /\ forall cells, col_data c' = ObjectCol cells -> no_nan cells)
    (df_columns df').
Proof.
  intros H. pose proof (fill_unknown_columns _ _ H) as Hnames.
  rewrite Hnames. revert H. unfold fill_unknown.
  destruct (traverse _ (df_columns df)) as [cols|] eqn:Htr; [|discriminate].
  intros [= <-]. simpl. apply traverse_ok_Forall2 in Htr. clear Hnames.
  generalize dependent (columns df). intros names Htr.
  induction Htr as [|c c' cs cs' Hc _ IH]; [apply Forall_nil_2|].
  apply Forall_cons_2; [|exact IH].
  destruct (fill_column_spec _ _ _ Hc) as [Hname Hspec].
  rewrite Hname. exact Hspec.
Qed.

Lemma impute_target_inv df df4 :
  impute_target df = Ok df4 ->
  exists churn imputed,
    get_column "CHURN" (df_columns df) = Ok churn
    /\ (count_label "CHURN" (columns df) <= 1)%nat
    /\ impute_most_frequent (replace_unknown_nan churn) = Ok imputed
    /\ df4 = with_columns df (set_column "CHURN" imputed (df_columns df)).
Proof.
  unfold impute_target.
  destruct (get_column "CHURN" (df_columns df)) as [churn|]; [|discriminate].
  destruct (1 <? count_label "CHURN" (columns df))%nat eqn:Hcount;
    [discriminate|].
  destruct (impute_most_frequent (replace_unknown_nan churn))
    as [imputed|] eqn:Himp; [|discriminate].
  intros [= <-]. exists churn, imputed. apply Nat.ltb_ge in Hcount.
  split; [reflexivity|]. split; [exact Hcount|].
  split; [exact Himp | reflexivity].
Qed.

Lemma is_numerical_median_imputed d :
  is_numerical (median_imputed d) = is_numerical d.
Proof.
  destruct d as [cells|cells|cells|dn cells]; simpl; try reflexivity.
  destruct (median (observed cells)); reflexivity.
Qed.

Lemma float_median_imputed_cleaned str_to_num cells :
  observed cells <> [] ->
  column_cleaned str_to_num (median_imputed (Float64Col cells)).
Proof.
  intros Hobs. simpl.
  destruct (median_some (observed cells) Hobs) as [m ->]. simpl. split.
  - apply fill_missing_is_no_nan.
  - intros E. apply map_eq_nil in E. subst cells. apply Hobs. reflexivity.
Qed.

Lemma int_median_imputed_cleaned str_to_num cells :
  cells <> [] ->
  column_cleaned str_to_num (median_imputed (Int64Col cells)).
Proof.
  intros Hne. simpl. split.
  - intros E. apply map_eq_nil in E. contradiction.
  - apply Forall_map, Forall_forall. intros z _. apply int64_round_trip_idem.
Qed.

(** A column after re-inference and imputation is a cleaned column. *)
Lemma column_final_cleaned str_to_num d :
  (forall cells, d = ObjectCol cells -> no_nan cells) ->
  (is_numerical (to_numeric str_to_num d) = true ->
   numeric_values (to_numeric str_to_num d) <> []) ->
  column_cleaned str_to_num (median_imputed (to_numeric str_to_num d)).
Proof.
  intros Hobj Hval.
  destruct d as [cells|cells|cells|dn cells]; cbn [to_numeric] in *.
  - destruct (mapM (cell_to_num str_to_num) cells) as [nums|] eqn:Hm.
    + destruct (forallb num_is_int nums).
      * apply int_median_imputed_cleaned. simpl in Hval.
        intros E. apply Hval; [reflexivity|]. rewrite E. reflexivity.
      * apply float_median_imputed_cleaned. apply Hval. reflexivity.
    + simpl. split; [apply Hobj; reflexivity | exact Hm].
  - apply int_median_imputed_cleaned. simpl in Hval.
    intros E. apply Hval; [reflexivity|]. rewrite E. reflexivity.
  - apply float_median_imputed_cleaned. apply Hval. reflexivity.
  - exact I.
Qed.

(** The target after re-inference and imputation is still a fixed point of
    the target step. *)
Lemma target_final_fixed str_to_num d :
  impute_most_frequent (replace_unknown_nan d) = Ok d ->
  (is_numerical (to_numeric str_to_num d) = true ->
   numeric_values (to_numeric str_to_num d) <> []) ->
  impute_most_frequent
    (replace_unknown_nan (median_imputed (to_numeric str_to_num d)))
  = Ok (median_imputed (to_numeric str_to_num d)).
Proof.
  intros Hfix Hval.
  pose proof (column_final_cleaned str_to_num d) as Hclean.
  destruct (impute_most_frequent_idem _ _ Hfix) as [_ Hshape].
  destruct d as [cells|cells|cells|dn cells]; cbn [to_numeric] in *;
    [| | |destruct Hshape].
  - destruct (mapM (cell_to_num str_to_num) cells) as [nums|] eqn:Hm.
    + specialize (Hclean ltac:(intros ? [= <-]; exact Hshape) Hval).
      destruct (forallb num_is_int nums).
      * apply int_target_fixed. exact (proj1 Hclean).
      * simpl in Hclean |- *.
        destruct (median (observed (map num_float nums))); simpl in Hclean.
        -- apply float_target_fixed; tauto.
        -- apply float_target_fixed; tauto.
    + exact Hfix.
  - apply int_target_fixed. intros E. apply map_eq_nil in E. contradiction.
  - destruct Hshape as [Hn Hne]. simpl.
    destruct (median (observed cells)); [|exact Hfix].
    rewrite fill_missing_no_nan by exact Hn. exact Hfix.
Qed.

(** What the cleaning returns is a cleaned table. *)
Lemma clean_cleaned str_to_num df df' :
  clean str_to_num df = Ok df' -> cleaned str_to_num df'.
Proof.
  unfold clean, mbind, result_bind.
  destruct (promote_identifier df) as [df1|] eqn:H1; [|discriminate].
  destruct (normalize_columns df1) as [df2|] eqn:H2; [|discriminate].
  destruct (fill_unknown df2) as [df3|] eqn:H3; [|discriminate].
  destruct (impute_target df3) as [df4|] eqn:H4; [|discriminate].
  intros H6.
  pose proof (normalize_columns_names _ _ H2) as Hn2.
  pose proof (fill_unknown_columns _ _ H3) as Hc3.
  pose proof (fill_unknown_spec _ _ H3) as Hfill.
  destruct (impute_target_inv _ _ H4)
    as (churn & imputed & Hget & Hcount & Himp & ->).
  destruct (impute_most_frequent_idem _ _ Himp) as [Hfix Hshape].
  rewrite Forall_forall in Hfill.
  assert (NoDup (columns df3)) as Hnd.
  { apply count_labels_NoDup. intros name Hin.
    destruct (string_dec name "CHURN") as [->|Hne]; [exact Hcount|].
    unfold columns in Hin. apply in_map_iff in Hin as (c & <- & Hc).
    apply (Hfill c (proj2 (list_elem_of_In _ _) Hc) Hne). }
  set (cols4 := set_column "CHURN" imputed (df_columns df3)) in *.
  assert (map col_name cols4 = columns df3) as Hnames4
    by apply set_column_names.
  assert (forall c, In c cols4 ->
            forall cells, col_data c = ObjectCol cells -> no_nan cells)
    as Hobj4.
  { intros c Hc cells Hcells. unfold cols4, set_column in Hc.
    apply in_map_iff in Hc as (c3 & <- & Hin3).
    destruct (String.eqb_spec (col_name c3) "CHURN") as [E|Hne].
    - simpl in Hcells. subst imputed. exact Hshape.
    - apply (Hfill c3 (proj2 (list_elem_of_In _ _) Hin3) Hne). exact Hcells. }
  unfold reinfer_numeric, with_columns in H6. simpl in H6.
  set (df5 := Frame (df_index_name df3) (df_index df3)
                (map (fun c => Column (col_name c)
                                 (to_numeric str_to_num (col_data c))) cols4))
    in *.
  destruct (impute_and_cast_ok_inv _ _ H6) as [Hex Hval].
  assert (columns df5 = columns df3) as Hnames5.
  { unfold columns, df5. simpl. rewrite map_map. exact Hnames4. }
  rewrite impute_and_cast_run in H6;
    [|exact Hex|exact Hval|rewrite Hnames5; exact Hnd].
  injection H6 as <-. unfold df5. simpl. rewrite map_map. simpl.
  assert (forall c, In c cols4 ->
            is_numerical (to_numeric str_to_num (col_data c)) = true ->
            numeric_values (to_numeric str_to_num (col_data c)) <> [])
    as Hval4.
  { intros c Hc. apply (Hval (Column (col_name c)
                                (to_numeric str_to_num (col_data c)))).
    unfold df5. simpl. apply in_map_iff. eauto. }
  constructor.
  - unfold columns. simpl. rewrite map_map. simpl.
    change (Forall name_normalized (map col_name cols4)).
    rewrite Hnames4, Hc3. exact Hn2.
  - unfold columns. simpl. rewrite map_map. simpl.
    change (NoDup (map col_name cols4)). rewrite Hnames4. exact Hnd.
  - simpl. apply Forall_map, Forall_forall. intros c Hc%list_elem_of_In. simpl.
    apply column_final_cleaned; [apply Hobj4, Hc | apply Hval4, Hc].
  - simpl.
    exists (median_imputed (to_numeric str_to_num imputed)).
    rewrite (get_column_map "CHURN"
               (fun d => median_imputed (to_numeric str_to_num d))).
    unfold cols4. rewrite (get_column_set_column _ _ _ _ Hget).
    split; [reflexivity|].
    apply target_final_fixed; [exact Hfix|].
    apply (Hval4 (Column "CHURN" imputed)).
    apply (get_column_ok_in "CHURN"), (get_column_set_column _ _ _ _ Hget).
  - simpl. destruct Hex as (c5 & Hc5 & Hnum5). unfold df5 in Hc5. simpl in Hc5.
    apply in_map_iff in Hc5 as (c4 & <- & Hc4).
    exists (Column (col_name c4)
              (median_imputed (to_numeric str_to_num (col_data c4)))).
    split.
    + apply in_map_iff. eauto.
    + simpl in *. rewrite is_numerical_median_imputed. exact Hnum5.
Qed.


Lemma clean_raw_example :
  clean digits_to_num raw_example = Ok raw_example_cleaned.
Proof. vm_compute. reflexivity. Qed.


(** ** TableStore: what a save does to the store *)

(** The outcomes of a save on a store whose numbering succeeds: either
    nothing is stored, or the parsed upload is stored under the new name. *)
Lemma save_cases initial_df file username p tpl name :
  frames p !! initial_df = Some tpl ->
  next_table_name username (tables_of p username) = Ok name ->
  exists outcome p',
    save_uploaded_file_as_sqlite initial_df file username p = (Ok outcome, p')
    /\ (outcome = None
        /\ files p' = <[db_path_of username := user_db p username]> (files p)
        \/ exists df,
             outcome = Some (length (frames p), name, db_path_of username)
             /\ file_parse file = Ok df
             /\ frames p' !! length (frames p) = Some df
             /\ files p'
                = <[db_path_of username := <[name := df]> (user_db p username)]>
                    (files p)).
Proof.
  intros Htpl Hname.
  destruct (has_extension file) eqn:Hext.
  - destruct (file_parse file) as [df|e] eqn:Hparse.
    + destruct (save_run _ _ _ _ _ _ _ Hext Hparse Htpl Hname)
        as (out & Hrun & _).
      eexists _, _. split; [exact Hrun|].
      destruct (negb (df_empty df) && valid_schema df tpl).
      * right. exists df. simpl. split; [reflexivity|]. split; [reflexivity|].
        split; [apply list_lookup_middle|]; reflexivity.
      * left. split; reflexivity.
    + unfold save_uploaded_file_as_sqlite.
      unfold mbind at 1, script_bind at 1. unfold makedirs at 1.
      unfold mbind at 1, script_bind at 1. rewrite connect_run.
      cbn [files frames st_out dirs].
      fold (db_path_of username). fold (user_db p username).
      fold (tables_of p username). rewrite Hname.
      unfold try_except, mbind, script_bind, read_upload.
      fold (has_extension file). rewrite Hext, Hparse. simpl.
      eexists _, _. split; [reflexivity|]. left. split; reflexivity.
  - unfold save_uploaded_file_as_sqlite.
    unfold mbind at 1, script_bind at 1. unfold makedirs at 1.
    unfold mbind at 1, script_bind at 1. rewrite connect_run.
    cbn [files frames st_out dirs].
    fold (db_path_of username). fold (user_db p username).
    fold (tables_of p username). rewrite Hname.
    unfold try_except, mbind, script_bind, read_upload.
    fold (has_extension file). rewrite Hext. simpl.
    eexists _, _. split; [reflexivity|]. left. split; reflexivity.
Qed.

Lemma stored_table_connected p username path t :
  (<[db_path_of username := user_db p username]> (files p)) !! path
    ≫= (fun db => db !! t)
  = stored_table p path t.
Proof.
  unfold stored_table. destruct (decide (path = db_path_of username)) as [->|Hne].
  - rewrite lookup_insert_eq. unfold user_db.
    destruct (files p !! db_path_of username); reflexivity.
  - rewrite lookup_insert_ne by congruence. reflexivity.
Qed.

Lemma append_prefix_startswith username s :
  startswith (username ++ "_table") (username ++ "_table" ++ s) = true.
Proof. unfold startswith. rewrite <- append_assoc. apply prefix_app. Qed.

(** X1: on a store whose tables are well named, a save never raises,
    whatever the upload (unreadable, of another extension, empty, of the
    wrong structure or valid); when it returns no record every stored table
    is as before, and when it returns a record the table under the returned
    name holds the frame of the returned reference. *)
Theorem save_never_raises initial_df file username p tpl :
  frames p !! initial_df = Some tpl ->
  well_named username (tables_of p username) ->
  exists outcome p',
    save_uploaded_file_as_sqlite initial_df file username p = (Ok outcome, p')
    /\ (outcome = None ->
        forall path t, stored_table p' path t = stored_table p path t)
    /\ (forall l name path, outcome = Some (l, name, path) ->
          path = db_path_of username
          /\ is_Some (frames p' !! l)
          /\ stored_table p' path name = frames p' !! l).
Proof.
  intros Htpl Hwn.
  destruct (next_table_name_ok _ _ Hwn) as (next & Hname & _).
  destruct (save_cases initial_df file _ _ _ _ Htpl Hname)
    as (outcome & p' & Hrun & [[-> Hfiles]|(df & -> & _ & Hl & Hfiles)]).
  - exists None, p'. split; [exact Hrun|]. split; [|discriminate].
    intros _ path t. unfold stored_table at 1. rewrite Hfiles.
    apply stored_table_connected.
  - eexists _, p'. split; [exact Hrun|]. split; [discriminate|].
    intros l name path [= <- <- <-]. split; [reflexivity|].
    split; [exists df; exact Hl|].
    etransitivity; [|symmetry; exact Hl].
    unfold stored_table. rewrite Hfiles, lookup_insert_eq. simpl.
    apply lookup_insert_eq.
Qed.

Lemma save_never_raises_witness :
  exists outcome p',
    save_uploaded_file_as_sqlite 0 (Upload "notes.txt" (Err ReadError)) "u"
      page_of_u = (Ok outcome, p')
    /\ (outcome = None ->
        forall path t, stored_table p' path t = stored_table page_of_u path t)
    /\ (forall l name path, outcome = Some (l, name, path) ->
          path = db_path_of "u"
          /\ is_Some (frames p' !! l)
          /\ stored_table p' path name = frames p' !! l).
Proof.
  apply (save_never_raises 0%nat (Upload "notes.txt" (Err ReadError)) "u"
           page_of_u template_example).
  - reflexivity.
  - exact well_named_page_of_u.
Defined.

(** X2: a save that stores a table never overwrites: the name it returns
    was not the name of a table of the user before, and every other stored
    table, of this user or of another, is as before. *)
Theorem save_never_overwrites initial_df file username p tpl l name path p' :
  frames p !! initial_df = Some tpl ->
  well_named username (tables_of p username) ->
  save_uploaded_file_as_sqlite initial_df file username p
  = (Ok (Some (l, name, path)), p') ->
  ~ In name (tables_of p username)
  /\ stored_table p path name = None
  /\ forall path' t, (path', t) <> (path, name) ->
       stored_table p' path' t = stored_table p path' t.
Proof.
  intros Htpl Hwn Hsave.
  destruct (next_table_name_ok _ _ Hwn) as (next & Hname & Hlt & _).
  destruct (save_cases initial_df file _ _ _ _ Htpl Hname)
    as (outcome & p'' & Hrun & Hcases).
  rewrite Hsave in Hrun. injection Hrun as <- <-.
  destruct Hcases as [[[=] _]|(df & Hout & _ & _ & Hfiles)].
  injection Hout as -> -> ->.
  assert (~ In (username ++ "_table" ++ py_str next) (tables_of p username))
    as Hfresh.
  { intros Hin. specialize (Hlt next Hin). lia. }
  split; [exact Hfresh|]. split.
  - unfold stored_table.
    destruct (files p !! db_path_of username) as [db|] eqn:Hdb;
      [|reflexivity]. simpl.
    destruct (db !! (username ++ "_table" ++ py_str next)) eqn:Ht;
      [|reflexivity].
    exfalso. apply Hfresh, in_tables_of. unfold user_db. rewrite Hdb. simpl.
    eauto.
  - intros path' t Hne. unfold stored_table at 1. rewrite Hfiles.
    destruct (decide (path' = db_path_of username)) as [->|Hp].
    + rewrite lookup_insert_eq. simpl.
      rewrite lookup_insert_ne by congruence.
      unfold stored_table, user_db.
      destruct (files p !! db_path_of username); reflexivity.
    + rewrite lookup_insert_ne by congruence. reflexivity.
Qed.

Lemma save_never_overwrites_witness :
  ~ In "u_table6" (tables_of page_of_u "u")
  /\ stored_table page_of_u "./data/u/u.db" "u_table6" = None
  /\ forall path' t, (path', t) <> ("./data/u/u.db", "u_table6") ->
       stored_table
         (save_uploaded_file_as_sqlite 0 (Upload "june.csv" (Ok valid_example))
            "u" page_of_u).2 path' t
       = stored_table page_of_u path' t.
Proof.
  apply (save_never_overwrites 0%nat (Upload "june.csv" (Ok valid_example))
           "u" page_of_u template_example 1%nat).
  - reflexivity.
  - exact well_named_page_of_u.
  - vm_compute. reflexivity.
Defined.

(** X3: the well-naming of a user's tables is kept by every save, so the
    numbering of the next upload of that user cannot fail on a name the
    store itself has given. *)
Theorem save_keeps_well_named initial_df file username p tpl outcome p' :
  frames p !! initial_df = Some tpl ->
  well_named username (tables_of p username) ->
  save_uploaded_file_as_sqlite initial_df file username p = (Ok outcome, p') ->
  well_named username (tables_of p' username)
  /\ exists next,
       next_table_name username (tables_of p' username)
       = Ok (username ++ "_table" ++ py_str next).
Proof.
  intros Htpl Hwn Hsave.
  destruct (next_table_name_ok _ _ Hwn) as (next & Hname & _).
  destruct (save_cases initial_df file _ _ _ _ Htpl Hname)
    as (outcome' & p'' & Hrun & Hcases).
  rewrite Hsave in Hrun. injection Hrun as <- <-.
  assert (well_named username (tables_of p' username)) as Hwn'.
  { intros t Hin Hst. apply in_tables_of in Hin.
    unfold user_db in Hin.
    destruct Hcases as [[_ Hfiles]|(df & _ & _ & _ & Hfiles)];
      rewrite Hfiles, lookup_insert_eq in Hin; simpl in Hin.
    - apply (Hwn t); [|exact Hst]. apply in_tables_of, Hin.
    - destruct (decide (t = username ++ "_table" ++ py_str next)) as [->|Hne].
      + eauto.
      + rewrite lookup_insert_ne in Hin by congruence.
        apply (Hwn t); [|exact Hst]. apply in_tables_of, Hin. }
  split; [exact Hwn'|].
  destruct (next_table_name_ok _ _ Hwn') as (next' & Hname' & _). eauto.
Qed.

Lemma save_keeps_well_named_witness :
  well_named "u"
    (tables_of
       (save_uploaded_file_as_sqlite 0 (Upload "june.csv" (Ok valid_example))
          "u" page_of_u).2 "u")
  /\ exists next,
       next_table_name "u"
         (tables_of
            (save_uploaded_file_as_sqlite 0
               (Upload "june.csv" (Ok valid_example)) "u" page_of_u).2 "u")
       = Ok ("u" ++ "_table" ++ py_str next).
Proof.
  apply (save_keeps_well_named 0%nat (Upload "june.csv" (Ok valid_example))
           "u" page_of_u template_example
           (Some (1%nat, "u_table6", "./data/u/u.db"))).
  - reflexivity.
  - exact well_named_page_of_u.
  - vm_compute. reflexivity.
Defined.

(** ** Summarizer: outcomes of the categorical summary *)

Lemma zip_map_same {A B C} (f : A -> B) (g : A -> C) (l : list A) :
  zip (map f l) (map g l) = map (fun x => (f x, g x)) l.
Proof. induction l as [|x l IH]; simpl; [reflexivity | rewrite IH; reflexivity]. Qed.

Lemma categorical_summary_run df :
  categorical_summary df
  = match object_columns df with
    | [] => Err ValueError
    | obj =>
        if forallb (fun c => match text_values (col_data c) with
                             | [] => true
                             | _ => false
                             end) obj
        then Err IndexError
        else Ok (map summary_row obj)
    end.
Proof.
  unfold categorical_summary, object_columns, mode_first_row.
  destruct (List.filter _ (df_columns df)) as [|c0 obj0] eqn:E; [reflexivity|].
  set (obj := c0 :: obj0). clearbody obj.
  assert (forallb (fun t : option string =>
                     match t with None => true | Some _ => false end)
            (map (fun c => most_frequent String.eqb String.leb
                             (text_values (col_data c))) obj)
          = forallb (fun c => match text_values (col_data c) with
                              | [] => true | _ => false end) obj) as ->.
  { clear. induction obj as [|c obj IH]; simpl; [reflexivity|].
    rewrite IH. destruct (text_values (col_data c)); reflexivity. }
  destruct (forallb _ obj); [reflexivity|].
  f_equal. rewrite !zip_map_same, map_map. apply map_ext. intros c. reflexivity.
Qed.

Lemma remove_dups_length (xs : list string) :
  (length (remove_dups xs) <= length xs)%nat.
Proof.
  induction xs as [|x xs IH]; simpl; [lia|].
  destruct (decide_rel elem_of x xs); simpl; lia.
Qed.

(** X4: the categorical summary of lines 392-395 and 484-487 raises
    ValueError exactly on a frame without object columns and IndexError
    exactly on a frame whose object columns all lack a value (a view
    without rows among them); otherwise it returns one row per object
    column. *)
Theorem categorical_summary_outcome df :
  (categorical_summary df = Err ValueError <-> object_columns df = [])
  /\ (categorical_summary df = Err IndexError <->
      object_columns df <> []
      /\ Forall (fun c => text_values (col_data c) = []) (object_columns df))
  /\ (Exists (fun c => text_values (col_data c) <> []) (object_columns df) ->
      categorical_summary df = Ok (map summary_row (object_columns df))).
Proof.
  rewrite categorical_summary_run.
  destruct (object_columns df) as [|c0 obj0] eqn:E.
  - split; [split; reflexivity || congruence|]. split.
    + split; [discriminate | intros [H _]; congruence].
    + intros H. inversion H.
  - cbv beta iota zeta.
    assert (c0 :: obj0 <> []) as Hne by discriminate.
    set (obj := c0 :: obj0) in *. clearbody obj. clear E.
    destruct (forallb _ obj) eqn:Hall.
    + rewrite forallb_forall in Hall.
      assert (Forall (fun c => text_values (col_data c) = []) obj) as HF.
      { apply Forall_forall. intros c Hc%list_elem_of_In.
        specialize (Hall c Hc). destruct (text_values (col_data c));
          [reflexivity | discriminate]. }
      split; [split; [discriminate | intros H; destruct (Hne H)]|]. split.
      * split; [intros _; split; [exact Hne | exact HF] | reflexivity].
      * intros Hex. apply Exists_exists in Hex as (c & Hc & Hc').
        rewrite Forall_forall in HF. destruct (Hc' (HF c Hc)).
    + split; [split; [discriminate | intros H; destruct (Hne H)]|]. split.
      * split; [discriminate|]. intros [_ HF].
        assert (forallb (fun c => match text_values (col_data c) with
                                  | [] => true | _ => false end) obj = true)
          as Hall'; [|congruence].
        apply forallb_forall. intros c Hc. rewrite Forall_forall in HF.
        rewrite (HF c (proj2 (list_elem_of_In _ _) Hc)). reflexivity.
      * reflexivity.
Qed.

Lemma categorical_summary_outcome_witness :
  categorical_summary cleaned_example
  = Ok (map summary_row (object_columns cleaned_example)).
Proof.
  apply (proj2 (proj2 (categorical_summary_outcome cleaned_example))).
  apply Exists_cons_hd. discriminate.
Defined.

(** X5: in every row the categorical summary returns for an object column,
    [count] is the number of non-missing values, [unique] is at most
    [count], and when the column has a value [top] is one of its values,
    [freq] is the number of occurrences of [top], and no value of the
    column occurs more often. *)
Theorem categorical_summary_rows df rows :
  categorical_summary df = Ok rows ->
  Forall2 (fun c r =>
             let xs := text_values (col_data c) in
             os_feature r = col_name c
             /\ os_count r = length xs
             /\ (os_unique r <= os_count r)%nat
             /\ (xs <> [] ->
                 exists m, os_top r = Some m
                           /\ In m xs
                           /\ os_freq r = Some (count_eqb String.eqb m xs)
                           /\ forall v, In v xs ->
                                (count_eqb String.eqb v xs
                                 <= count_eqb String.eqb m xs)%nat))
    (object_columns df) rows.
Proof.
  rewrite categorical_summary_run.
  destruct (object_columns df) as [|c0 obj0]; [discriminate|].
  cbv beta iota zeta. set (obj := c0 :: obj0). clearbody obj.
  destruct (forallb _ obj); [discriminate|]. intros [= <-].
  induction obj as [|c obj IH]; simpl; constructor; [|exact IH].
  simpl. split; [reflexivity|]. split; [reflexivity|].
  split; [apply remove_dups_length|]. intros Hne. unfold max_count.
  destruct (most_frequent_some String.eqb String.leb _ Hne) as [m Hm].
  rewrite Hm. exists m. split; [reflexivity|].
  destruct (most_frequent_spec _ _ _ _ Hm) as [Hin Hmax]. auto.
Qed.

Lemma categorical_summary_rows_witness :
  Forall2 (fun c r =>
             let xs := text_values (col_data c) in
             os_feature r = col_name c
             /\ os_count r = length xs
             /\ (os_unique r <= os_count r)%nat
             /\ (xs <> [] ->
                 exists m, os_top r = Some m
                           /\ In m xs
                           /\ os_freq r = Some (count_eqb String.eqb m xs)
                           /\ forall v, In v xs ->
                                (count_eqb String.eqb v xs
                                 <= count_eqb String.eqb m xs)%nat))
    (object_columns cleaned_example)
    [ObjectSummary "REGION" 3 2 (Some "DAKAR") (Some 2%nat)].
Proof.
  apply (categorical_summary_rows cleaned_example). vm_compute. reflexivity.
Defined.

(** ** FilterEngine: what the filter keeps *)

Lemma select_length {A} m (xs : list A) : (length (select m xs) <= length xs)%nat.
Proof.
  revert xs. induction m as [|b m IH]; intros [|x xs]; simpl; try lia.
  specialize (IH xs). destruct b; simpl; lia.
Qed.

Lemma select_rows_schema m df :
  columns (select_rows m df) = columns df
  /\ dtypes (select_rows m df) = dtypes df
  /\ df_index_name (select_rows m df) = df_index_name df
  /\ (col_length (df_index (select_rows m df)) <= col_length (df_index df))%nat.
Proof.
  unfold columns, dtypes, select_rows. simpl. rewrite !map_map. simpl.
  split; [reflexivity|]. split.
  - apply map_ext. intros c. destruct (col_data c); reflexivity.
  - split; [reflexivity|]. destruct (df_index df); simpl; apply select_length.
Qed.

(** X6: the filter only removes rows: the filtered view has the labels and
    dtypes of the table in the same order and the same index name, and no
    more rows than the table. *)
Theorem filtered_data_schema df selected_column selected_value
    selected_customer_id slider_values fd :
  filtered_data df selected_column selected_value selected_customer_id
    slider_values = Ok fd ->
  columns fd = columns df
  /\ dtypes fd = dtypes df
  /\ df_index_name fd = df_index_name df
  /\ (col_length (df_index fd) <= col_length (df_index df))%nat.
Proof.
  rewrite filtered_data_satisfying. unfold satisfying_rows.
  destruct (traverse _ _) as [ms|]; [|discriminate].
  destruct (and_masks ms) as [m|]; intros [= <-].
  - apply select_rows_schema.
  - repeat split; reflexivity || lia.
Qed.

Lemma filtered_data_schema_witness :
  columns no_rows_example = columns cleaned_example
  /\ dtypes no_rows_example = dtypes cleaned_example
  /\ df_index_name no_rows_example = df_index_name cleaned_example
  /\ (col_length (df_index no_rows_example)
      <= col_length (df_index cleaned_example))%nat.
Proof.
  apply (filtered_data_schema cleaned_example "REGION" (SStr "DAKAR")
           (SStr "") [("MONTANT", (30%Q, 30%Q))]).
  reflexivity.
Defined.

Lemma select_and_mask_r m r (x : list bool) :
  all_true (select r x) -> all_true (select (and_mask m r) x).
Proof.
  unfold all_true. revert r x. induction m as [|b m IH]; intros r x H.
  - apply Forall_nil_2.
  - destruct r as [|c r]; [apply Forall_nil_2|].
    destruct x as [|y x]; [apply Forall_nil_2|].
    simpl in *. destruct c.
    + apply Forall_cons_1 in H as [Hy Hx]. rewrite andb_true_r.
      destruct b; [apply Forall_cons_2; [exact Hy|] |]; apply IH, Hx.
    + rewrite andb_false_r. apply IH, H.
Qed.

Lemma select_self m : all_true (select m m).
Proof.
  unfold all_true. induction m as [|[] m IH]; simpl; [constructor| |exact IH].
  constructor; [reflexivity | exact IH].
Qed.

Lemma and_masks_implies ms M mc :
  and_masks ms = Some M -> In mc ms -> all_true (select M mc).
Proof.
  revert M. induction ms as [|m ms IH]; intros M; simpl; [discriminate|].
  destruct (and_masks ms) as [r|] eqn:Hr; intros [= <-] [->|Hin].
  - rewrite and_mask_comm. apply select_and_mask_r, select_self.
  - apply select_and_mask_r, IH; [reflexivity | exact Hin].
  - apply select_self.
  - destruct ms as [|m' ms']; [destruct Hin|]. simpl in Hr.
    destruct (and_masks ms'); discriminate.
Qed.

Lemma traverse_In {A B} (f : A -> result B) xs ys x :
  traverse f xs = Ok ys -> In x xs -> exists y, f x = Ok y /\ In y ys.
Proof.
  intros H%traverse_ok_Forall2 Hin.
  induction H as [|a b xs ys Hab _ IH]; [destruct Hin|].
  destruct Hin as [->|Hin]; [exists b; split; [exact Hab | left; reflexivity]|].
  destruct (IH Hin) as (y & Hy & Hy'). exists y. split; [exact Hy | right; exact Hy'].
Qed.

(** X7: every row of the filtered view satisfies every clause of the
    selection: evaluated on the view, the mask of each present clause
    (categorical equality, identifier equality, each slider range) is
    [true] on every row. *)
Theorem filtered_data_rows_satisfy df selected_column selected_value
    selected_customer_id slider_values fd c :
  filtered_data df selected_column selected_value selected_customer_id
    slider_values = Ok fd ->
  In c (present_clauses selected_column selected_value selected_customer_id
          slider_values) ->
  exists mask, clause_mask fd c = Ok mask /\ all_true mask.
Proof.
  rewrite filtered_data_satisfying. unfold satisfying_rows.
  destruct (traverse _ _) as [ms|] eqn:Htr; [|discriminate].
  intros Hfd Hin. destruct (traverse_In _ _ _ _ Htr Hin) as (mc & Hmc & Hmcin).
  destruct (and_masks ms) as [M|] eqn:HM; injection Hfd as <-.
  - rewrite clause_mask_select_rows, Hmc. eexists. split; [reflexivity|].
    apply (and_masks_implies ms); assumption.
  - destruct ms; [destruct Hmcin|]. simpl in HM.
    destruct (and_masks ms); discriminate.
Qed.

Lemma filtered_data_rows_satisfy_witness :
  exists mask,
    clause_mask
      (Frame (Some "user_id") (ObjectCol [Some "a1"])
         [Column "REGION" (ObjectCol [Some "DAKAR"]);
          Column "MONTANT" (Float64Col [Some 10%Q]);
          Column "CHURN" (Int64Col [0%Z])])
      (CategoricalEq "REGION" (SStr "DAKAR")) = Ok mask
    /\ all_true mask.
Proof.
  apply (filtered_data_rows_satisfy cleaned_example "REGION" (SStr "DAKAR")
           (SStr "") [("MONTANT", (10%Q, 15%Q))]).
  - reflexivity.
  - left. reflexivity.
Defined.

(** ** Cleaner: what the cleaned table looks like *)

(** X8: a table returned by the cleaning has no missing value left in any
    object or float column; its labels are distinct, none starts with a
    lowercase letter, CHURN is among them and user_id is not. *)
Theorem clean_output_complete (str_to_num : string -> option num) df df' :
  clean str_to_num df = Ok df' ->
  Forall (fun c => column_complete (col_data c)) (df_columns df')
  /\ NoDup (columns df')
  /\ Forall name_normalized (columns df')
  /\ In "CHURN" (columns df')
  /\ ~ In "user_id" (columns df').
Proof.
  intros H. destruct (clean_cleaned _ _ _ H)
    as [Hnames Hnd Hcols (churn & Hget & _) _].
  split; [|split; [exact Hnd|split; [exact Hnames|split]]].
  - eapply Forall_impl; [exact Hcols|]. intros c Hc. simpl in *.
    destruct (col_data c); simpl in *; tauto.
  - apply get_column_ok_in in Hget.
    apply (in_map col_name) in Hget. exact Hget.
  - apply name_normalized_not_user_id, Hnames.
Qed.

Lemma clean_output_complete_witness :
  Forall (fun c => column_complete (col_data c))
    (df_columns raw_example_cleaned)
  /\ NoDup (columns raw_example_cleaned)
  /\ Forall name_normalized (columns raw_example_cleaned)
  /\ In "CHURN" (columns raw_example_cleaned)
  /\ ~ In "user_id" (columns raw_example_cleaned).
Proof.
  exact (clean_output_complete digits_to_num raw_example raw_example_cleaned
           clean_raw_example).
Defined.

Lemma string_map_to_lower_no_upper s :
  no_upper s = true -> string_map to_lower s = s.
Proof.
  induction s as [|c s IH]; simpl; [reflexivity|].
  intros [Hc Hs]%andb_true_iff. rewrite (IH Hs). unfold to_lower.
  destruct (is_upper c); [discriminate | reflexivity].
Qed.

Lemma to_lower_to_upper c : to_lower (to_upper c) = to_lower c.
Proof. destruct c as [[] [] [] [] [] [] [] []]; reflexivity. Qed.

Lemma to_lower_idem c : to_lower (to_lower c) = to_lower c.
Proof. destruct c as [[] [] [] [] [] [] [] []]; reflexivity. Qed.

Lemma to_upper_ascii c :
  (nat_of_ascii c <? 128)%nat = true ->
  (nat_of_ascii (to_upper c) <? 128)%nat = true.
Proof. destruct c as [[] [] [] [] [] [] [] []]; vm_compute; congruence. Qed.

Lemma to_lower_ascii c :
  (nat_of_ascii c <? 128)%nat = true ->
  (nat_of_ascii (to_lower c) <? 128)%nat = true.
Proof. destruct c as [[] [] [] [] [] [] [] []]; vm_compute; congruence. Qed.

Lemma string_map_to_lower_idem s :
  string_map to_lower (string_map to_lower s) = string_map to_lower s.
Proof.
  induction s as [|c s IH]; simpl; [reflexivity|].
  rewrite to_lower_idem, IH. reflexivity.
Qed.

Lemma string_map_to_lower_ascii s :
  ascii_only s = true -> ascii_only (string_map to_lower s) = true.
Proof.
  induction s as [|c s IH]; simpl; [reflexivity|].
  intros [Hc Hs]%andb_true_iff. rewrite (to_lower_ascii c Hc). exact (IH Hs).
Qed.

(** X9: on a non-empty label of ASCII characters the normalization of line
    334 succeeds; the label it gives is ASCII, does not start with a
    lowercase letter, has the letters of the label up to their case, and is
    left as it is by a second normalization; when no capital letter follows
    the first character, only the first character changes, to its capital. *)
Theorem normalize_name_spec label :
  ascii_only label = true -> label <> "" ->
  exists label',
    normalize_name label = Ok label'
    /\ ascii_only label' = true
    /\ (exists c rest, label' = String c rest /\ is_lower c = false)
    /\ string_map to_lower label' = string_map to_lower label
    /\ normalize_name label' = Ok label'
    /\ (forall c rest, label = String c rest -> no_upper rest = true ->
                       label' = String (to_upper c) rest).
Proof.
  intros Hascii Hne. destruct label as [|c rest]; [congruence|].
  destruct (normalize_name (String c rest)) as [label'|] eqn:Hn;
    [|discriminate].
  exists label'. split; [reflexivity|].
  split; [|split; [exact (normalize_name_head _ _ Hn)|split;
    [|split; [exact (normalize_name_idem _ _ Hn)|]]]].
  - simpl in Hn, Hascii. apply andb_true_iff in Hascii as [Hc Hrest].
    injection Hn as <-. destruct (is_lower c); simpl.
    + rewrite (to_upper_ascii c Hc). apply string_map_to_lower_ascii, Hrest.
    + rewrite Hc. exact Hrest.
  - simpl in Hn. injection Hn as <-. destruct (is_lower c); [|reflexivity].
    simpl. rewrite to_lower_to_upper, string_map_to_lower_idem. reflexivity.
  - intros c0 rest0 [= <- <-] Hrest. simpl in Hn. injection Hn as <-.
    destruct (is_lower c) eqn:Hc.
    + simpl. rewrite (string_map_to_lower_no_upper _ Hrest). reflexivity.
    + unfold to_upper. rewrite Hc. reflexivity.
Qed.

Lemma normalize_name_spec_witness :
  exists label',
    normalize_name "region" = Ok label'
    /\ ascii_only label' = true
    /\ (exists c rest, label' = String c rest /\ is_lower c = false)
    /\ string_map to_lower label' = string_map to_lower "region"
    /\ normalize_name label' = Ok label'
    /\ (forall c rest, "region" = String c rest -> no_upper rest = true ->
                       label' = String (to_upper c) rest).
Proof.
  apply (normalize_name_spec "region"); [reflexivity | discriminate].
Defined.

Lemma cast_back_index names df df' :
  cast_back names df = Ok df' ->
  df_index df' = df_index df /\ df_index_name df' = df_index_name df.
Proof.
  unfold cast_back. destruct (traverse _ _); [|discriminate].
  intros [= <-]. split; reflexivity.
Qed.

Lemma impute_and_cast_index df df' :
  impute_and_cast df = Ok df' ->
  df_index df' = df_index df /\ df_index_name df' = df_index_name df.
Proof.
  unfold impute_and_cast.
  destruct (impute_numerical df) as [df1|] eqn:H1; [|discriminate].
  intros [-> ->]%cast_back_index. revert H1. unfold impute_numerical.
  destruct (List.filter _ _); [discriminate|].
  destruct (traverse _ _); [|discriminate].
  intros [= <-]. split; reflexivity.
Qed.

(** The steps after the first keep the index. *)
Lemma clean_index str_to_num df df' :
  clean str_to_num df = Ok df' ->
  exists df1,
    promote_identifier df = Ok df1
    /\ df_index df' = df_index df1
    /\ df_index_name df' = df_index_name df1.
Proof.
  unfold clean, mbind, result_bind.
  destruct (promote_identifier df) as [df1|]; [|discriminate].
  exists df1. split; [reflexivity|]. revert H.
  unfold normalize_columns.
  destruct (traverse _ (df_columns df1)) as [cols2|]; [|discriminate].
  unfold fill_unknown. simpl.
  destruct (traverse _ cols2) as [cols3|]; [|discriminate].
  unfold impute_target. simpl.
  destruct (get_column "CHURN" cols3); [|discriminate].
  destruct (1 <? _)%nat; [discriminate|].
  destruct (impute_most_frequent _); [|discriminate].
  intros [-> ->]%impute_and_cast_index. split; reflexivity.
Qed.

Lemma count_label_zero name names :
  count_label name names = 0%nat -> ~ In name names.
Proof.
  unfold count_label. induction names as [|x names IH]; simpl; [tauto|].
  destruct (String.eqb_spec name x) as [->|Hne]; simpl; [discriminate|].
  intros H [E|Hin]; [congruence|]. exact (IH H Hin).
Qed.

(** A label that occurs once selects the data of the one column that has
    it. *)
Lemma get_column_unique name cols d d' :
  (count_label name (map col_name cols) <= 1)%nat ->
  get_column name cols = Ok d -> In (Column name d') cols -> d' = d.
Proof.
  unfold count_label. induction cols as [|c cols IH]; simpl; [tauto|].
  rewrite (String.eqb_sym name (col_name c)).
  destruct (String.eqb_spec (col_name c) name) as [E|Hne]; simpl.
  - intros Hcount [= <-] [->|Hin]; [reflexivity|].
    exfalso. apply (count_label_zero name (map col_name cols)); [|
      apply (in_map col_name) in Hin; exact Hin].
    unfold count_label. lia.
  - intros Hcount Hget [->|Hin]; [simpl in Hne; congruence|].
    exact (IH Hcount Hget Hin).
Qed.

(** X10: when the table has a column user_id, the cleaning makes that
    column the index, named user_id, and removes it from the columns; when
    it has none, the index is the one the table had. *)
Theorem clean_promotes_identifier (str_to_num : string -> option num) df df' :
  clean str_to_num df = Ok df' ->
  (~ In "user_id" (columns df) ->
   df_index df' = df_index df /\ df_index_name df' = df_index_name df)
  /\ (forall ids, In (Column "user_id" ids) (df_columns df) ->
        df_index df' = ids /\ df_index_name df' = Some "user_id").
Proof.
  intros H. destruct (clean_index _ _ _ H) as (df1 & H1 & -> & ->).
  unfold promote_identifier in H1. split.
  - intros Hnot. rewrite (count_label_absent _ _ Hnot) in H1.
    injection H1 as <-. split; reflexivity.
  - intros ids Hin.
    destruct (count_label "user_id" (columns df)) as [|[|n]] eqn:Hcount;
      [| |discriminate H1].
    + exfalso. apply (count_label_zero _ _ Hcount).
      apply (in_map col_name) in Hin. exact Hin.
    + destruct (get_column "user_id" (df_columns df)) as [ids'|] eqn:Hget;
        [|discriminate].
      injection H1 as <-. simpl. split; [|reflexivity].
      symmetry. apply (get_column_unique _ _ _ _ (Nat.eq_le_incl _ _ Hcount) Hget Hin).
Qed.

Lemma clean_promotes_identifier_witness :
  df_index raw_example_cleaned = ObjectCol [Some "a1"; Some "b7"; Some "c9"]
  /\ df_index_name raw_example_cleaned = Some "user_id".
Proof.
  apply (proj2 (clean_promotes_identifier digits_to_num raw_example
                  raw_example_cleaned clean_raw_example)).
  left. reflexivity.
Defined.

(** ** Cleaner: the rows and the columns are kept *)

Lemma Forall2_compose {A B C} (R : A -> B -> Prop) (S : B -> C -> Prop)
    (T : A -> C -> Prop) xs ys zs :
  (forall x y z, R x y -> S y z -> T x z) ->
  Forall2 R xs ys -> Forall2 S ys zs -> Forall2 T xs zs.
Proof.
  intros HT H. revert zs. induction H as [|x y xs ys Hxy _ IH]; intros zs Hz.
  - inversion Hz. constructor.
  - inversion Hz as [|? z ? zs' Hyz Hrest]; subst. constructor; eauto.
Qed.

Lemma Forall2_weaken {A B} (R S : A -> B -> Prop) xs ys :
  (forall x y, In x xs -> R x y -> S x y) ->
  Forall2 R xs ys -> Forall2 S xs ys.
Proof.
  intros HRS H. induction H as [|x y xs ys Hxy _ IH]; constructor.
  - apply HRS; [left; reflexivity | exact Hxy].
  - apply IH. intros a b Hin. apply HRS. right. exact Hin.
Qed.

Lemma Forall2_map_r_self {A B} (f : A -> B) xs :
  Forall2 (fun x y => y = f x) xs (map f xs).
Proof. induction xs; simpl; constructor; auto. Qed.

Lemma promote_identifier_columns df df1 :
  promote_identifier df = Ok df1 -> df_columns df1 = data_columns df.
Proof.
  unfold promote_identifier, data_columns.
  destruct (count_label "user_id" (columns df)) as [|[|n]] eqn:Hcount;
    [| |discriminate].
  - intros [= <-]. apply count_label_zero in Hcount. unfold columns in Hcount.
    induction (df_columns df) as [|c cols IH]; simpl in *; [reflexivity|].
    destruct (String.eqb_spec (col_name c) "user_id") as [E|_]; simpl.
    + exfalso. apply Hcount. left. exact E.
    + f_equal. apply IH. tauto.
  - destruct (get_column "user_id" (df_columns df)); [|discriminate].
    intros [= <-]. reflexivity.
Qed.

Lemma normalize_columns_kept df df' :
  normalize_columns df = Ok df' ->
  Forall2 (fun c c' => normalize_name (col_name c) = Ok (col_name c')
                       /\ col_data c' = col_data c)
    (df_columns df) (df_columns df').
Proof.
  unfold normalize_columns.
  destruct (traverse _ _) as [cols|] eqn:H; [|discriminate].
  intros [= <-]. simpl. apply traverse_ok_Forall2 in H.
  eapply Forall2_weaken; [|exact H]. simpl. intros c c' _.
  destruct (normalize_name (col_name c)); [|discriminate].
  intros [= <-]. split; reflexivity.
Qed.

Lemma replace_nan_unknown_length d :
  col_length (replace_nan_unknown d) = col_length d.
Proof. destruct d; simpl; try reflexivity. apply length_map. Qed.

Lemma fill_unknown_kept df df' :
  fill_unknown df = Ok df' -> Forall2 kept_as (df_columns df) (df_columns df').
Proof.
  unfold fill_unknown.
  destruct (traverse _ _) as [cols|] eqn:H; [|discriminate].
  intros [= <-]. simpl. apply traverse_ok_Forall2 in H.
  eapply Forall2_weaken; [|exact H]. simpl. intros c c' _.
  unfold fill_column, kept_as.
  destruct (negb _); [|intros [= <-]; split; reflexivity].
  destruct (1 <? _)%nat; [discriminate|].
  destruct (is_categorical_dtype _); intros [= <-]; simpl;
    [|split; reflexivity].
  split; [reflexivity | apply replace_nan_unknown_length].
Qed.

Lemma replace_unknown_nan_length d :
  col_length (replace_unknown_nan d) = col_length d.
Proof. destruct d; simpl; try reflexivity. apply length_map. Qed.

Lemma impute_most_frequent_length d d' :
  impute_most_frequent d = Ok d' -> col_length d' = col_length d.
Proof.
  destruct d as [cells|cells|cells|]; simpl; [| | |discriminate].
  - destruct (most_frequent _ _ _); [|discriminate].
    intros [= <-]. simpl. apply length_map.
  - destruct cells; [discriminate|]. intros [= <-]. reflexivity.
  - destruct (most_frequent _ _ _); [|discriminate].
    intros [= <-]. simpl. apply length_map.
Qed.

Lemma impute_target_kept df df' :
  impute_target df = Ok df' -> Forall2 kept_as (df_columns df) (df_columns df').
Proof.
  unfold impute_target.
  destruct (get_column "CHURN" (df_columns df)) as [churn|] eqn:Hget;
    [|discriminate].
  destruct (1 <? _)%nat eqn:Hcount; [discriminate|].
  apply Nat.ltb_ge in Hcount.
  destruct (impute_most_frequent _) as [imputed|] eqn:Himp; [|discriminate].
  intros [= <-]. simpl. unfold set_column.
  eapply Forall2_weaken; [|apply Forall2_map_r_self]. simpl.
  intros c c' Hin ->. unfold kept_as.
  destruct (String.eqb_spec (col_name c) "CHURN") as [E|_]; simpl;
    [|split; reflexivity].
  split; [symmetry; exact E|].
  rewrite (impute_most_frequent_length _ _ Himp), replace_unknown_nan_length.
  destruct c as [n d]. simpl in E. subst n. simpl.
  rewrite (get_column_unique _ _ _ _ Hcount Hget Hin). reflexivity.
Qed.

Lemma to_numeric_length str_to_num d :
  col_length (to_numeric str_to_num d) = col_length d.
Proof.
  destruct d as [cells| | |]; simpl; try reflexivity.
  destruct (mapM _ cells) as [nums|] eqn:H; [|reflexivity].
  apply length_mapM in H.
  destruct (forallb _ _); simpl; rewrite length_map; symmetry; exact H.
Qed.

Lemma reinfer_numeric_kept str_to_num df :
  Forall2 kept_as (df_columns df) (df_columns (reinfer_numeric str_to_num df)).
Proof.
  unfold reinfer_numeric. simpl.
  eapply Forall2_weaken; [|apply Forall2_map_r_self]. simpl.
  intros c c' _ ->. split; [reflexivity | apply to_numeric_length].
Qed.

Lemma impute_median_length d d' :
  impute_median d = Ok d' -> col_length d' = col_length d.
Proof.
  destruct d as [cells|cells|cells|]; simpl.
  - intros [= <-]. reflexivity.
  - destruct (median _); [|discriminate]. intros [= <-]. simpl.
    rewrite !length_map. reflexivity.
  - destruct (median _); [|discriminate]. intros [= <-]. simpl.
    apply length_map.
  - intros [= <-]. reflexivity.
Qed.

Lemma astype_int64_length d d' :
  astype_int64 d = Ok d' -> col_length d' = col_length d.
Proof.
  destruct d as [cells|cells|cells|]; simpl; try (intros [= <-]; reflexivity).
  destruct (traverse _ cells) as [zs|] eqn:H; [|discriminate].
  intros [= <-]. simpl. apply (traverse_ok_length _ _ _ H).
Qed.

Lemma impute_and_cast_kept df df' :
  impute_and_cast df = Ok df' ->
  Forall2 kept_as (df_columns df) (df_columns df').
Proof.
  unfold impute_and_cast.
  destruct (impute_numerical df) as [df1|] eqn:H1; [|discriminate].
  intros H2. apply (Forall2_compose kept_as kept_as _ _ (df_columns df1)).
  - intros x y z [E1 L1] [E2 L2]. split; congruence.
  - clear H2. revert H1. unfold impute_numerical.
    destruct (List.filter _ _); [discriminate|].
    destruct (traverse _ _) as [cols|] eqn:H; [|discriminate].
    intros [= <-]. simpl. apply traverse_ok_Forall2 in H.
    eapply Forall2_weaken; [|exact H]. simpl. intros x x' _.
    destruct (impute_median (col_data x)) as [d|] eqn:Hd; [|discriminate].
    intros [= <-]. split; [reflexivity|]. simpl.
    apply (impute_median_length _ _ Hd).
  - revert H2. unfold cast_back.
    destruct (traverse _ _) as [cols|] eqn:H; [|discriminate].
    intros [= <-]. simpl. apply traverse_ok_Forall2 in H.
    eapply Forall2_weaken; [|exact H]. simpl. intros x x' _.
    destruct (label_in _ _); [|intros [= <-]; split; reflexivity].
    destruct (astype_int64 (col_data x)) as [d|] eqn:Hd; [|discriminate].
    intros [= <-]. split; [reflexivity|]. simpl.
    apply (astype_int64_length _ _ Hd).
Qed.

(** X11: the cleaning drops no column and no row: the columns of the
    cleaned table are, in the same order, the columns of the table other
    than user_id, each under its normalized label and with as many cells
    as before. *)
Theorem clean_keeps_rows (str_to_num : string -> option num) df df' :
  clean str_to_num df = Ok df' ->
  Forall2 (fun c c' => normalize_name (col_name c) = Ok (col_name c')
                       /\ col_length (col_data c') = col_length (col_data c))
    (data_columns df) (df_columns df').
Proof.
  unfold clean, mbind, result_bind.
  destruct (promote_identifier df) as [df1|] eqn:H1; [|discriminate].
  destruct (normalize_columns df1) as [df2|] eqn:H2; [|discriminate].
  destruct (fill_unknown df2) as [df3|] eqn:H3; [|discriminate].
  destruct (impute_target df3) as [df4|] eqn:H4; [|discriminate].
  intros H5. rewrite <- (promote_identifier_columns _ _ H1).
  apply normalize_columns_kept in H2. apply fill_unknown_kept in H3.
  apply impute_target_kept in H4. apply impute_and_cast_kept in H5.
  pose proof (reinfer_numeric_kept str_to_num df4) as H45.
  assert (forall x y z : column, kept_as x y -> kept_as y z -> kept_as x z)
    as Htrans by (intros x y z [E1 L1] [E2 L2]; split; congruence).
  pose proof (Forall2_compose _ _ _ _ _ _ Htrans H3
                (Forall2_compose _ _ _ _ _ _ Htrans H4
                   (Forall2_compose _ _ _ _ _ _ Htrans H45 H5))) as H35.
  refine (Forall2_compose _ _ _ _ _ _ _ H2 H35).
  intros x y z [Hn Hd] [E L]. split; [rewrite E; exact Hn|].
  rewrite L, Hd. reflexivity.
Qed.

Lemma clean_keeps_rows_witness :
  Forall2 (fun c c' => normalize_name (col_name c) = Ok (col_name c')
                       /\ col_length (col_data c') = col_length (col_data c))
    (data_columns raw_example) (df_columns raw_example_cleaned).
Proof.
  exact (clean_keeps_rows digits_to_num raw_example raw_example_cleaned
           clean_raw_example).
Defined.

(** ** Upload flow: coercion of the numerical columns *)

Lemma Forall2_same {A} (R : A -> A -> Prop) xs :
  (forall x, R x x) -> Forall2 R xs xs.
Proof. intros HR. induction xs; constructor; auto. Qed.

Lemma Forall2_In_r {A B} (R : A -> B -> Prop) xs ys y :
  Forall2 R xs ys -> In y ys -> exists x, In x xs /\ R x y.
Proof.
  induction 1 as [|a b xs ys Hab _ IH]; [intros []|].
  intros [<-|Hin].
  - exists a. split; [left; reflexivity | exact Hab].
  - destruct (IH Hin) as (x & Hx & Hxy). exists x. split; [right|]; assumption.
Qed.

Lemma kept_numeric_refl c : kept_numeric c c.
Proof. split; [split; reflexivity | tauto]. Qed.

Lemma kept_numeric_trans x y z :
  kept_numeric x y -> kept_numeric y z -> kept_numeric x z.
Proof.
  intros [[E1 L1] D1] [[E2 L2] D2]. split; [split; congruence | tauto].
Qed.

Lemma to_numeric_coerce_length str_to_num d :
  col_length (to_numeric_coerce str_to_num d) = col_length d.
Proof.
  destruct d as [cells| | |]; simpl; try reflexivity.
  destruct (forallb _ _); simpl; rewrite !length_map; reflexivity.
Qed.

Lemma to_numeric_coerce_not_object str_to_num d :
  is_object (to_numeric_coerce str_to_num d) = false.
Proof.
  destruct d as [cells| | |]; simpl; try reflexivity.
  destruct (forallb _ _); reflexivity.
Qed.

Lemma set_column_In name d cols c' :
  In c' (set_column name d cols) ->
  c' = Column name d \/ (In c' cols /\ col_name c' <> name).
Proof.
  unfold set_column. rewrite in_map_iff. intros (c & <- & Hin).
  destruct (String.eqb_spec (col_name c) name) as [E|Hne]; [left|right];
    [reflexivity | split; assumption].
Qed.

(** One turn of the loop: the columns stay, the column of the turn is no
    text afterwards, and a table that changed was announced. *)
Lemma coerce_column_spec str_to_num df w column df1 w1 :
  coerce_column str_to_num df w column = Ok (df1, w1) ->
  Forall2 kept_numeric (df_columns df) (df_columns df1)
  /\ (forall c, In c (df_columns df1) -> col_name c = column ->
                is_object (col_data c) = false)
  /\ (w <= w1)%nat
  /\ (w1 = w -> df1 = df).
Proof.
  unfold coerce_column.
  destruct (label_in column (columns df)) eqn:Hin.
  2:{ intros [= <- <-]. split; [apply Forall2_same, kept_numeric_refl|].
      split; [|split; [lia | reflexivity]].
      intros c Hc E. exfalso.
      assert (label_in column (columns df) = true) as Hyes.
      { apply label_in_spec. rewrite <- E. apply (in_map col_name), Hc. }
      congruence. }
  destruct (1 <? _)%nat eqn:Hcount; [discriminate|].
  apply Nat.ltb_ge in Hcount.
  destruct (get_column column (df_columns df)) as [d|] eqn:Hget;
    [|discriminate].
  assert (forall c, In c (df_columns df) -> col_name c = column ->
                    col_data c = d) as Hd.
  { intros [n d'] Hc E. simpl in E. subst n. simpl.
    exact (get_column_unique _ _ _ _ Hcount Hget Hc). }
  destruct (String.eqb_spec (dtype_str d) "object") as [Hobj|Hobj].
  - intros [= <- <-]. simpl. split; [|split; [|split; [lia | lia]]].
    + unfold set_column.
      eapply Forall2_weaken; [|apply Forall2_map_r_self]. simpl.
      intros c c' Hc ->.
      destruct (String.eqb_spec (col_name c) column) as [E|_];
        [|apply kept_numeric_refl].
      split; [split|]; simpl.
      * symmetry. exact E.
      * rewrite to_numeric_coerce_length, (Hd c Hc E). reflexivity.
      * intros _. apply to_numeric_coerce_not_object.
    + intros c [->|[_ Hne]]%set_column_In E; [|contradiction].
      apply to_numeric_coerce_not_object.
  - intros [= <- <-]. split; [apply Forall2_same, kept_numeric_refl|].
    split; [|split; [lia | reflexivity]].
    intros c Hc E. rewrite (Hd c Hc E).
    destruct d; simpl in *; congruence.
Qed.

Lemma coerce_loop_spec str_to_num names df w df' w' :
  coerce_loop str_to_num names df w = Ok (df', w') ->
  Forall2 kept_numeric (df_columns df) (df_columns df')
  /\ (forall c, In c (df_columns df') -> In (col_name c) names ->
                is_object (col_data c) = false)
  /\ (w <= w')%nat
  /\ (w' = w -> df' = df).
Proof.
  revert df w. induction names as [|column rest IH]; intros df w; simpl.
  - intros [= <- <-]. split; [apply Forall2_same, kept_numeric_refl|].
    split; [intros c _ []|split; [lia | reflexivity]].
  - destruct (coerce_column str_to_num df w column) as [[df1 w1]|] eqn:H1;
      [|discriminate].
    intros H. apply coerce_column_spec in H1 as (K1 & O1 & L1 & U1).
    apply IH in H as (K & O & L & U).
    split; [|split; [|split]].
    + exact (Forall2_compose _ _ _ _ _ _ kept_numeric_trans K1 K).
    + intros c Hc [E|Hin]; [|exact (O c Hc Hin)].
      destruct (Forall2_In_r _ _ _ _ K Hc) as (c1 & Hc1 & [[En _] Hobj]).
      apply Hobj, (O1 c1 Hc1). congruence.
    + lia.
    + intros ->. assert (w1 = w) as E by lia. subst w1.
      rewrite (U eq_refl). apply U1. reflexivity.
Qed.

(** X12: when the coercion of lines 308-313 goes through, the table has
    the columns it had, under the same labels and with as many cells; none
    of the eleven listed columns is a text column any more; and when no
    warning was shown the table is the one the first conversion gave. *)
Theorem coerce_columns_numerical (str_to_num : string -> option num)
    df df' warnings :
  coerce_columns str_to_num df = Ok (df', warnings) ->
  Forall2 kept_as (df_columns df) (df_columns df')
  /\ (forall c, In c (df_columns df') -> In (col_name c) columns_to_coerce ->
                is_object (col_data c) = false)
  /\ (warnings = 0%nat -> df' = reinfer_numeric str_to_num df).
Proof.
  unfold coerce_columns. intros (K & O & _ & U)%coerce_loop_spec.
  split; [|split; [exact O | exact U]].
  refine (Forall2_compose _ _ _ _ _ _ _ (reinfer_numeric_kept str_to_num df) K).
  intros x y z [E1 L1] [[E2 L2] _]. split; congruence.
Qed.

Lemma coerce_montant_as_text :
  coerce_columns digits_to_num montant_as_text = Ok (montant_coerced, 1%nat).
Proof. vm_compute. reflexivity. Qed.

Lemma coerce_columns_numerical_witness :
  Forall2 kept_as (df_columns montant_as_text) (df_columns montant_coerced)
  /\ (forall c, In c (df_columns montant_coerced) ->
                In (col_name c) columns_to_coerce ->
                is_object (col_data c) = false)
  /\ (1%nat = 0%nat -> montant_coerced = reinfer_numeric digits_to_num
                                           montant_as_text).
Proof.
  exact (coerce_columns_numerical digits_to_num montant_as_text
           montant_coerced 1 coerce_montant_as_text).
Defined.

(** ** Sliders left where they are *)

Lemma fold_Zmin_acc zs z : (fold_left Z.min zs z <= z)%Z.
Proof.
  revert z. induction zs as [|a zs IH]; intros z; simpl; [lia|].
  specialize (IH (Z.min z a)). lia.
Qed.

Lemma fold_Zmin_le zs z x :
  x = z \/ In x zs -> (fold_left Z.min zs z <= x)%Z.
Proof.
  revert z. induction zs as [|a zs IH]; intros z; simpl.
  - intros [->|[]]. lia.
  - intros H. pose proof (fold_Zmin_acc zs (Z.min z a)) as Hacc.
    destruct H as [->|[->|Hin]]; [lia | lia |]. apply IH. right. exact Hin.
Qed.

Lemma fold_Zmax_acc zs z : (z <= fold_left Z.max zs z)%Z.
Proof.
  revert z. induction zs as [|a zs IH]; intros z; simpl; [lia|].
  specialize (IH (Z.max z a)). lia.
Qed.

Lemma fold_Zmax_ge zs z x :
  x = z \/ In x zs -> (x <= fold_left Z.max zs z)%Z.
Proof.
  revert z. induction zs as [|a zs IH]; intros z; simpl.
  - intros [->|[]]. lia.
  - intros H. pose proof (fold_Zmax_acc zs (Z.max z a)) as Hacc.
    destruct H as [->|[->|Hin]]; [lia | lia |]. apply IH. right. exact Hin.
Qed.

Lemma Q_min_le a b : (Q_min a b <= a)%Q /\ (Q_min a b <= b)%Q.
Proof.
  unfold Q_min. destruct (Qle_bool a b) eqn:H.
  - apply Qle_bool_iff in H. split; [apply Qle_refl | exact H].
  - split; [|apply Qle_refl]. apply Qlt_le_weak, Qnot_le_lt.
    intros Hle. apply Qle_bool_iff in Hle. congruence.
Qed.

Lemma Q_max_ge a b : (a <= Q_max a b)%Q /\ (b <= Q_max a b)%Q.
Proof.
  unfold Q_max. destruct (Qle_bool a b) eqn:H.
  - apply Qle_bool_iff in H. split; [exact H | apply Qle_refl].
  - split; [apply Qle_refl|]. apply Qlt_le_weak, Qnot_le_lt.
    intros Hle. apply Qle_bool_iff in Hle. congruence.
Qed.

Lemma fold_Qmin_acc qs q : (fold_left Q_min qs q <= q)%Q.
Proof.
  revert q. induction qs as [|a qs IH]; intros q; simpl; [apply Qle_refl|].
  eapply Qle_trans; [apply IH | apply (proj1 (Q_min_le q a))].
Qed.

Lemma fold_Qmin_le qs q x :
  x = q \/ In x qs -> (fold_left Q_min qs q <= x)%Q.
Proof.
  revert q. induction qs as [|a qs IH]; intros q; simpl.
  - intros [->|[]]. apply Qle_refl.
  - intros H. pose proof (fold_Qmin_acc qs (Q_min q a)) as Hacc.
    destruct (Q_min_le q a) as [Hq Ha].
    destruct H as [->|[->|Hin]].
    + eapply Qle_trans; eassumption.
    + eapply Qle_trans; eassumption.
    + apply IH. right. exact Hin.
Qed.

Lemma fold_Qmax_acc qs q : (q <= fold_left Q_max qs q)%Q.
Proof.
  revert q. induction qs as [|a qs IH]; intros q; simpl; [apply Qle_refl|].
  eapply Qle_trans; [apply (proj1 (Q_max_ge q a)) | apply IH].
Qed.

Lemma fold_Qmax_ge qs q x :
  x = q \/ In x qs -> (x <= fold_left Q_max qs q)%Q.
Proof.
  revert q. induction qs as [|a qs IH]; intros q; simpl.
  - intros [->|[]]. apply Qle_refl.
  - intros H. pose proof (fold_Qmax_acc qs (Q_max q a)) as Hacc.
    destruct (Q_max_ge q a) as [Hq Ha].
    destruct H as [->|[->|Hin]].
    + eapply Qle_trans; eassumption.
    + eapply Qle_trans; eassumption.
    + apply IH. right. exact Hin.
Qed.

Lemma select_all {A} (f : A -> bool) (xs : list A) :
  (forall x, In x xs -> f x = true) -> forall {B} (ys : list B),
  length ys = length xs -> select (map f xs) ys = ys.
Proof.
  induction xs as [|x xs IH]; intros Hf B [|y ys]; simpl; try discriminate;
    try reflexivity.
  intros [= Hlen]. rewrite (Hf x (or_introl eq_refl)). f_equal.
  apply IH; [|exact Hlen]. intros a Ha. apply Hf. right. exact Ha.
Qed.

Lemma select_col_all {A} (f : A -> bool) (xs : list A) d :
  (forall x, In x xs -> f x = true) ->
  col_length d = length xs -> select_col (map f xs) d = d.
Proof.
  intros Hf Hlen. destruct d; simpl in *; f_equal; apply select_all; assumption.
Qed.

Lemma select_rows_all {A} (f : A -> bool) (xs : list A) df :
  (forall x, In x xs -> f x = true) ->
  uniform_rows df -> col_length (df_index df) = length xs ->
  select_rows (map f xs) df = df.
Proof.
  intros Hf Hu Hlen. destruct df as [iname idx cols]. unfold select_rows.
  unfold uniform_rows in Hu. simpl in *.
  rewrite (select_col_all f xs idx Hf Hlen). f_equal.
  induction cols as [|[n d] cols IH]; simpl; [reflexivity|].
  apply Forall_cons_1 in Hu as [Hd Hu]. simpl in Hd.
  rewrite (select_col_all f xs d Hf) by congruence.
  f_equal. apply IH, Hu.
Qed.

Lemma observed_complete {A} (cells : list (option A)) :
  no_nan cells -> map Some (observed cells) = cells.
Proof.
  unfold no_nan, observed. induction cells as [|[x|] cells IH]; simpl;
    intros H; [reflexivity| |].
  - apply Forall_cons_1 in H as [_ H]. f_equal. apply IH, H.
  - apply Forall_cons_1 in H as [H _]. congruence.
Qed.

(** The range of an untouched slider lets every row of a column without
    NaN through. *)
Lemma default_range_all df column slider :
  uniform_rows df ->
  Forall (fun c => column_complete (col_data c)) (df_columns df) ->
  slider_default df column = Ok slider ->
  apply_slider df slider = Ok df.
Proof.
  intros Hu Hc. unfold slider_default, apply_slider.
  destruct (1 <? _)%nat; [discriminate|].
  destruct (get_column column (df_columns df)) as [d|] eqn:Hget;
    [|discriminate].
  destruct (series_min_max d) as [[lo hi]|] eqn:Hmm; [|discriminate].
  intros [= <-]. rewrite Hget.
  apply get_column_ok_in in Hget.
  pose proof Hu as Hu'. unfold uniform_rows in Hu'.
  rewrite Forall_forall in Hu', Hc.
  pose proof (Hu' _ (proj2 (list_elem_of_In _ _) Hget)) as Hlen.
  pose proof (Hc _ (proj2 (list_elem_of_In _ _) Hget)) as Hcomplete.
  simpl in Hlen, Hcomplete. clear Hu' Hc Hget.
  destruct d as [cells|cells|cells|]; simpl in Hmm; try discriminate.
  - assert (forall z, In z cells ->
              Qle_bool lo (inject_Z z) && Qle_bool (inject_Z z) hi = true)
      as Hall.
    { destruct cells as [|z0 zs]; [discriminate|].
      injection Hmm as <- <-. intros z Hz. apply andb_true_iff.
      assert (z = z0 \/ In z zs) as Hz' by (destruct Hz; auto).
      split; apply Qle_bool_iff; rewrite <- Zle_Qle;
        [apply fold_Zmin_le | apply fold_Zmax_ge]; exact Hz'. }
    simpl. rewrite (select_rows_all _ cells df Hall Hu); [reflexivity|].
    symmetry. exact Hlen.
  - rewrite <- (observed_complete cells Hcomplete) in *.
    set (qs := observed cells) in *. clearbody qs. clear Hcomplete.
    assert (forall c, In c (map Some qs) ->
              match c with
              | Some q => Qle_bool lo q && Qle_bool q hi
              | None => false
              end = true) as Hall.
    { intros c (q & <- & Hq)%in_map_iff.
      assert (observed (map Some qs) = qs) as Hobs.
      { unfold observed. clear. induction qs as [|a qs IH]; simpl;
          [reflexivity | f_equal; exact IH]. }
      rewrite Hobs in Hmm. destruct qs as [|q0 qs]; [discriminate|].
      injection Hmm as <- <-. apply andb_true_iff.
      assert (q = q0 \/ In q qs) as Hq' by (destruct Hq; auto).
      split; apply Qle_bool_iff;
        [apply fold_Qmin_le | apply fold_Qmax_ge]; exact Hq'. }
    simpl. rewrite (select_rows_all _ (map Some qs) df Hall Hu); [reflexivity|].
    symmetry. exact Hlen.
Qed.

Lemma apply_sliders_all df sliders :
  Forall (fun s => apply_slider df s = Ok df) sliders ->
  apply_sliders df sliders = Ok df.
Proof.
  induction 1 as [|s sliders Hs _ IH]; simpl; [reflexivity|].
  rewrite Hs. exact IH.
Qed.

(** X13: on a table without NaN whose columns all have a cell for every
    row, the sliders of lines 413-430, left at the range they start with,
    remove no row: with no value and no customer selected the filtered
    table is the table itself. *)
Theorem default_sliders_keep_all_rows df selected_column slider_values :
  uniform_rows df ->
  Forall (fun c => column_complete (col_data c)) (df_columns df) ->
  slider_defaults df = Ok slider_values ->
  filtered_data df selected_column (SStr "") (SStr "") slider_values = Ok df.
Proof.
  intros Hu Hc Hs. unfold filtered_data. simpl.
  apply apply_sliders_all. unfold slider_defaults in Hs.
  apply traverse_ok_Forall2 in Hs.
  induction Hs as [|column s cols sliders Hs _ IH]; constructor; [|exact IH].
  exact (default_range_all df column s Hu Hc Hs).
Qed.

Lemma cleaned_example_sliders :
  slider_defaults cleaned_example
  = Ok [("MONTANT", (10%Q, 30%Q)); ("CHURN", (0%Q, 1%Q))].
Proof. vm_compute. reflexivity. Qed.

Lemma default_sliders_keep_all_rows_witness :
  filtered_data cleaned_example "REGION" (SStr "") (SStr "")
    [("MONTANT", (10%Q, 30%Q)); ("CHURN", (0%Q, 1%Q))]
  = Ok cleaned_example.
Proof.
  apply default_sliders_keep_all_rows.
  - repeat constructor.
  - repeat constructor; discriminate.
  - exact cleaned_example_sliders.
Defined.
